(** * Game leaderboard: ledger, score encoder and rank index

    Shallow embedding of [backend/main.py], [backend/redis_client.py],
    [backend/models.py] and [backend/schemas.py].

    - Python [int] is [Z]; Python [float] is IEEE 754 binary64, taken from the
      Standard Library's executable specification [SpecFloat] with
      [prec = 53] and [emax = 1024].
    - A [UUID] is its 128-bit integer value ([N]).  [str(uuid)] is a fixed
      width lower-case hexadecimal rendering, so the byte order of the strings
      Redis compares is the numeric order of the values.
    - A naive [datetime] is its wall-clock reading in microseconds from
      1970-01-01T00:00:00 ([Z]).  [datetime.utcnow()] reads the clock in UTC;
      [datetime.timestamp()] reads a naive datetime in the local time zone of
      the process, which is part of the state ([TimeZone]).
    - SQL tables with a primary key are [gmap]s from the key to the row; the
      append-only [score_history] table is a list in insertion order.
    - The Redis sorted set is a [gmap] from member to score; range and rank
      queries read it in descending (score, member) order. *)

From Stdlib Require Import ZArith Lia List Bool String.
From Stdlib Require Import Floats.SpecFloat.
From stdpp Require Import base option list gmap fin_maps numbers strings.
From stdpp Require Import sorting.

Local Open Scope Z_scope.

(** ** Python floats *)

Module PyFloat.

Definition prec : Z := 53.
Definition emax : Z := 1024.

Definition float : Type := spec_float.

Definition mul : float -> float -> float := SFmul prec emax.
Definition sub : float -> float -> float := SFsub prec emax.
Definition add : float -> float -> float := SFadd prec emax.
Definition div : float -> float -> float := SFdiv prec emax.
Definition ltb : float -> float -> bool := SFltb.
Definition eqb : float -> float -> bool := SFeqb.

(** Correctly rounded (round-half-even) conversion of an integer; the
    infinity it gives for a huge integer is not yet an error. *)
Definition of_Z (n : Z) : float := binary_normalize prec emax n 0 false.

(** [float(n)]: raises [OverflowError] ([None]) when [n] is too large. *)
Definition float_of_int (n : Z) : option float :=
  match of_Z n with
  | S754_infinity _ => None
  | f => Some f
  end.

(** [int(x)]: truncation toward zero; raises on infinities and NaN. *)
Definition int_of_float (x : float) : option Z :=
  match x with
  | S754_zero _ => Some 0
  | S754_finite s m e =>
      let a := match e with
               | Z0 => Zpos m
               | Zpos p => Z.shiftl (Zpos m) (Zpos p)
               | Zneg p => Z.shiftr (Zpos m) (Zpos p)
               end in
      Some (if s then - a else a)
  | _ => None
  end.

End PyFloat.

(** ** [backend/redis_client.py]: the score encoder *)

(** The literal [1_000_000_000.0] of the encoder. *)
Definition K : Z := 1000000000.

Definition K_float : PyFloat.float := PyFloat.of_Z K.

(** [_encode_score_with_tiebreaker(best_score, achieved_ts_ms)]:
    [float(best_score) * 1_000_000_000.0 - float(achieved_ts_ms)]. *)
Definition _encode_score_with_tiebreaker (best_score achieved_ts_ms : Z)
  : option PyFloat.float :=
  s ← PyFloat.float_of_int best_score;
  t ← PyFloat.float_of_int achieved_ts_ms;
  Some (PyFloat.sub (PyFloat.mul s K_float) t).

(** ** [backend/models.py]: the tables of the ledger *)

Definition UUID : Type := N.
Definition datetime : Type := Z.

(** Rows are stored under their primary key [player_id]; the records hold the
    remaining columns. *)
Module PlayerInfo.
Record t : Type := mk {
  name : string;
  phone_or_email : string;
  password_hash : string;
  created_at : datetime
}.
End PlayerInfo.

Module PlayerLeaderboard.
Record t : Type := mk {
  best_score : Z;
  last_updated : datetime
}.
End PlayerLeaderboard.

Module ScoreHistory.
Record t : Type := mk {
  id : Z;
  player_id : UUID;
  score : Z;
  created_at : datetime
}.
End ScoreHistory.

(** Range of a PostgreSQL [Integer] column ([best_score], [score]). *)
Definition INT4_MIN : Z := -2147483648.
Definition INT4_MAX : Z := 2147483647.

Definition fits_Integer (n : Z) : bool := (INT4_MIN <=? n) && (n <=? INT4_MAX).

Record Ledger : Type := mkLedger {
  playerinfo : gmap UUID PlayerInfo.t;
  playerleaderboard : gmap UUID PlayerLeaderboard.t;
  score_history : list ScoreHistory.t;
  score_history_id_seq : Z
}.

(** ** The Redis database: the sorted set [global:leaderboard] and the
    hashes [player:meta:<id>] *)

Definition zentry : Type := UUID * PyFloat.float.

Record Redis : Type := mkRedis {
  GLOBAL_LEADERBOARD : gmap UUID PyFloat.float;
  PLAYER_META : gmap UUID (Z * Z)
}.

(** ** The process: its local time zone *)

(** The class name of a Python exception. *)
Definition exn : Type := string.

(** What the C library tells [datetime.timestamp()] about the local time
    zone: for a wall-clock second, counted from 1970-01-01T00:00:00, the
    POSIX second it stands for in that zone, or the exception raised when
    the conversion leaves the supported range. *)
Record TimeZone : Type := mkTimeZone {
  local_to_seconds : Z -> exn + Z
}.

(** UTC: the wall-clock second is the POSIX second.  The conversion also
    looks one day back, so it raises within the first day of year 1, and
    it raises past the last second of year 9999. *)
Definition UTC : TimeZone :=
  mkTimeZone (λ s,
    if (s <? -62135510400) || (253402300799 <? s) then inl "ValueError"
    else inr s).

Record State : Type := mkState {
  db : Ledger;
  redis : Redis;
  tz : TimeZone
}.

Definition empty_state_in (zone : TimeZone) : State :=
  mkState (mkLedger ∅ ∅ [] 1) (mkRedis ∅ ∅) zone.

Definition empty_state : State := empty_state_in UTC.

(** *** Sorted-set commands *)

(** [zabove a b]: entry [a] comes before entry [b] in descending order: a
    higher score, or the same score and a greater member. *)
Definition zabove (a b : zentry) : bool :=
  PyFloat.ltb (snd b) (snd a)
  || (PyFloat.eqb (snd a) (snd b) && (fst b <? fst a)%N).

Fixpoint zinsert (e : zentry) (l : list zentry) : list zentry :=
  match l with
  | [] => [e]
  | x :: r => if zabove e x then e :: x :: r else x :: zinsert e r
  end.

(** All entries, highest first. *)
Definition zrev_entries (z : gmap UUID PyFloat.float) : list zentry :=
  foldr zinsert [] (map_to_list z).

(** [ZADD key member score]. *)
Definition zadd (member : UUID) (score : PyFloat.float)
  (z : gmap UUID PyFloat.float) : gmap UUID PyFloat.float :=
  <[member := score]> z.

(** [ZREVRANGE key start stop WITHSCORES], with Redis's treatment of negative
    and out-of-range indices. *)
Definition zrevrange (z : gmap UUID PyFloat.float) (start stop : Z)
  : list zentry :=
  let l := zrev_entries z in
  let llen := Z.of_nat (length l) in
  let start := if start <? 0 then llen + start else start in
  let stop := if stop <? 0 then llen + stop else stop in
  let start := if start <? 0 then 0 else start in
  if (stop <? start) || (llen <=? start) then []
  else
    let stop := if llen <=? stop then llen - 1 else stop in
    take (Z.to_nat (stop - start + 1)) (drop (Z.to_nat start) l).

Fixpoint index_of (member : UUID) (l : list zentry) : option Z :=
  match l with
  | [] => None
  | (m, _) :: r =>
      if (m =? member)%N then Some 0
      else i ← index_of member r; Some (i + 1)
  end.

(** [ZREVRANK key member]: 0-based position from the highest score. *)
Definition zrevrank (z : gmap UUID PyFloat.float) (member : UUID) : option Z :=
  index_of member (zrev_entries z).

(** ** [backend/redis_client.py]: access to the rank index *)

(** [datetime.timestamp()] of a naive datetime:
    [self._mktime() + self.microsecond / 1e6], where [_mktime] is the POSIX
    second of the wall-clock second in the local zone. *)
Definition timestamp (zone : TimeZone) (d : datetime) : exn + PyFloat.float :=
  match local_to_seconds zone (d `div` 1000000) with
  | inl e => inl e
  | inr seconds =>
      match PyFloat.float_of_int seconds,
            PyFloat.float_of_int (d `mod` 1000000) with
      | Some s, Some us =>
          inr (PyFloat.add s (PyFloat.div us (PyFloat.of_Z 1000000)))
      | _, _ => inl "OverflowError"
      end
  end.

Definition update_leaderboard (player_id : UUID) (best_score : Z)
  (achieved_at : PyFloat.float) (r : Redis) : option Redis :=
  ts_ms ← PyFloat.int_of_float (PyFloat.mul achieved_at (PyFloat.of_Z 1000));
  encoded_score ← _encode_score_with_tiebreaker best_score ts_ms;
  Some (mkRedis (zadd player_id encoded_score (GLOBAL_LEADERBOARD r))
                (<[player_id := (best_score, ts_ms)]> (PLAYER_META r))).

Definition get_top_n_from_redis (n : Z) (r : Redis) : list zentry :=
  zrevrange (GLOBAL_LEADERBOARD r) 0 (n - 1).

Definition get_rank_from_redis (player_id : UUID) (r : Redis) : option Z :=
  match zrevrank (GLOBAL_LEADERBOARD r) player_id with
  | None => None
  | Some rank => Some (rank + 1)
  end.

(** ** [backend/schemas.py]: request and response bodies *)

Record SignupRequest : Type := mkSignupRequest {
  signup_name : string;
  signup_phone_or_email : string;
  signup_password : string
}.

Record LoginRequest : Type := mkLoginRequest {
  login_phone_or_email : string;
  login_password : string
}.

Record LoginResponse : Type := mkLoginResponse {
  login_player_id : UUID;
  login_name : string
}.

Record SubmitScoreRequest : Type := mkSubmitScoreRequest {
  player_id : UUID;
  score : Z
}.

Record PlayerLeaderboardEntry : Type := mkPlayerLeaderboardEntry {
  entry_rank : Z;
  entry_player_id : UUID;
  entry_name : string;
  entry_score : Z;
  entry_last_updated : datetime
}.

Record LeaderboardResponse : Type := mkLeaderboardResponse {
  total : Z;
  items : list PlayerLeaderboardEntry
}.

Record PlayerProfileResponse : Type := mkPlayerProfileResponse {
  profile_player_id : UUID;
  profile_name : string;
  profile_phone_or_email : string;
  profile_rank : option Z;
  profile_best_score : Z;
  profile_last_updated : datetime
}.

Record ScoreHistoryItem : Type := mkScoreHistoryItem {
  item_score : Z;
  item_created_at : datetime
}.

Record PlayerHistoryResponse : Type := mkPlayerHistoryResponse {
  history_player_id : UUID;
  history_name : string;
  history : list ScoreHistoryItem
}.

(** What a handler answers: a body, an [HTTPException] it raises, or an
    exception that escapes it (status 500). *)
Inductive response (A : Type) : Type :=
| OK (body : A)
| HTTPException (status_code : Z) (detail : string)
| Unhandled (exn : string).

Arguments OK {A} body.
Arguments HTTPException {A} status_code detail.
Arguments Unhandled {A} exn.

Definition len (s : string) : Z := Z.of_nat (String.length s).

Definition valid_SignupRequest (p : SignupRequest) : bool :=
  (1 <=? len (signup_name p)) && (len (signup_name p) <=? 100)
  && (3 <=? len (signup_phone_or_email p))
  && (len (signup_phone_or_email p) <=? 255)
  && (6 <=? len (signup_password p)) && (len (signup_password p) <=? 128).

Definition valid_SubmitScoreRequest (p : SubmitScoreRequest) : bool :=
  0 <=? score p.

(** [Query(10, ge=1, le=100)] of [n] and [limit]. *)
Definition valid_Query (n : Z) : bool := (1 <=? n) && (n <=? 100).

(** ** [backend/main.py]: the endpoints *)

(** [db.query(PlayerInfo).filter(PlayerInfo.phone_or_email == ...).first()]
    only tested for presence. *)
Definition contact_taken (contact : string) (l : Ledger) : bool :=
  bool_decide (Exists (λ kv, PlayerInfo.phone_or_email (snd kv) = contact)
                      (map_to_list (playerinfo l))).

(** The PostgreSQL driver refuses a string parameter that contains the
    character NUL: binding it raises [ValueError]. *)
Fixpoint has_NUL (s : string) : bool :=
  match s with
  | EmptyString => false
  | String c rest => Ascii.eqb c Ascii.zero || has_NUL rest
  end.

(** [signup]: [new_id] is the value [uuid.uuid4] draws, [password_hash] the
    salted hash [hash_password] returns and [now] what [datetime.utcnow]
    reads.  PostgreSQL stores no NUL in a text column, so a contact that the
    first query finds has none; the driver's check of the contact is written
    after the lookup, together with that of the strings of the insert. *)
Definition signup (payload : SignupRequest) (new_id : UUID)
  (password_hash : string) (now : datetime) (st : State)
  : response string * State :=
  if contact_taken (signup_phone_or_email payload) (db st)
  then (HTTPException 400 "User already exists", st)
  else if has_NUL (signup_phone_or_email payload)
          || has_NUL (signup_name payload) || has_NUL password_hash
  then (Unhandled "ValueError", st)
  else
    match playerinfo (db st) !! new_id, playerleaderboard (db st) !! new_id with
    | None, None =>
        let player :=
          PlayerInfo.mk (signup_name payload) (signup_phone_or_email payload)
                        password_hash now in
        (* Initialize leaderboard row with score 0 *)
        let leaderboard := PlayerLeaderboard.mk 0 now in
        (OK "Signup successful. Please log in.",
         mkState
           (mkLedger (<[new_id := player]> (playerinfo (db st)))
                     (<[new_id := leaderboard]> (playerleaderboard (db st)))
                     (score_history (db st))
                     (score_history_id_seq (db st)))
           (redis st) (tz st))
    | _, _ => (Unhandled "IntegrityError", st)
    end.

(** [login]: [password_ok] is the answer of [verify_password] for the stored
    hash of the player found.  The query raises [ValueError] for a contact
    that contains NUL. *)
Definition login (payload : LoginRequest) (password_ok : bool) (st : State)
  : response LoginResponse * State :=
  if has_NUL (login_phone_or_email payload) then (Unhandled "ValueError", st)
  else
  match list_find (λ kv, PlayerInfo.phone_or_email (snd kv)
                         = login_phone_or_email payload)
                  (map_to_list (playerinfo (db st))) with
  | Some (_, (pid, player)) =>
      if password_ok
      then (OK (mkLoginResponse pid (PlayerInfo.name player)), st)
      else (HTTPException 401 "Invalid credentials", st)
  | None => (HTTPException 401 "Invalid credentials", st)
  end.

(** The read-modify-write of step 2 of [submit_score] on the locked row: the
    row the handler ends up holding, and the table after it. *)
Definition upsert_best (pid : UUID) (score : Z) (now : datetime)
  (tbl : gmap UUID PlayerLeaderboard.t)
  : PlayerLeaderboard.t * gmap UUID PlayerLeaderboard.t :=
  match tbl !! pid with
  | None =>
      let leaderboard := PlayerLeaderboard.mk score now in
      (leaderboard, <[pid := leaderboard]> tbl)
  | Some leaderboard =>
      (* Tie-breaker: last_updated changes only if score is strictly higher. *)
      if PlayerLeaderboard.best_score leaderboard <? score
      then
        let leaderboard := PlayerLeaderboard.mk score now in
        (leaderboard, <[pid := leaderboard]> tbl)
      else (leaderboard, tbl)
  end.

(** [submit_score]: [now] is what [datetime.utcnow] reads.  The commit fails
    as a whole when [score] does not fit the [Integer] columns; an exception
    of the Redis mirror (of [timestamp()], [int()] or the encoder) escapes
    after the commit. *)
Definition submit_score (payload : SubmitScoreRequest) (now : datetime)
  (st : State) : response string * State :=
  match playerinfo (db st) !! player_id payload with
  | None => (HTTPException 404 "Player not found", st)
  | Some player =>
      (* 1. Insert into score_history *)
      let history :=
        ScoreHistory.mk (score_history_id_seq (db st)) (player_id payload)
                        (score payload) now in
      (* 2. Update leaderboard row if this is a better score *)
      let '(leaderboard, tbl) :=
        upsert_best (player_id payload) (score payload) now
                    (playerleaderboard (db st)) in
      if negb (fits_Integer (score payload)) then (Unhandled "DataError", st)
      else
        let db' :=
          mkLedger (playerinfo (db st)) tbl
                   (score_history (db st) ++ [history])
                   (score_history_id_seq (db st) + 1) in
        (* 3. Mirror into Redis *)
        match
          timestamp (tz st) (PlayerLeaderboard.last_updated leaderboard)
        with
        | inl e => (Unhandled e, mkState db' (redis st) (tz st))
        | inr achieved_at =>
            match
              update_leaderboard (player_id payload)
                (PlayerLeaderboard.best_score leaderboard) achieved_at
                (redis st)
            with
            | Some redis' => (OK "Score submitted", mkState db' redis' (tz st))
            | None =>
                (Unhandled "OverflowError", mkState db' (redis st) (tz st))
            end
        end
  end.

(** The join of [playerinfo] and [playerleaderboard] on [player_id]. *)
Definition player_join (l : Ledger)
  : gmap UUID (PlayerInfo.t * PlayerLeaderboard.t) :=
  map_zip (playerinfo l) (playerleaderboard l).

(** The loop of [get_top_leaderboard] over [enumerate(redis_entries)],
    [idx] being the index of the head of [redis_entries]. *)
Fixpoint top_items (info_map : gmap UUID (PlayerInfo.t * PlayerLeaderboard.t))
  (idx : Z) (redis_entries : list zentry) : list PlayerLeaderboardEntry :=
  match redis_entries with
  | [] => []
  | (pid, _) :: rest =>
      match info_map !! pid with
      | None =>
          (* In case of slight inconsistencies, skip missing players. *)
          top_items info_map (idx + 1) rest
      | Some (player, leaderboard) =>
          mkPlayerLeaderboardEntry (idx + 1) pid (PlayerInfo.name player)
            (PlayerLeaderboard.best_score leaderboard)
            (PlayerLeaderboard.last_updated leaderboard)
          :: top_items info_map (idx + 1) rest
      end
  end.

Definition get_top_leaderboard (n : Z) (st : State)
  : response LeaderboardResponse * State :=
  let redis_entries := get_top_n_from_redis n (redis st) in
  let player_ids := map fst redis_entries in
  match player_ids with
  | [] => (OK (mkLeaderboardResponse 0 []), st)
  | _ =>
      let info_map :=
        filter (λ kv, fst kv ∈ player_ids) (player_join (db st)) in
      let items := top_items info_map 0 redis_entries in
      (OK (mkLeaderboardResponse (Z.of_nat (length items)) items), st)
  end.

Definition get_player_profile (player_id : UUID) (st : State)
  : response PlayerProfileResponse * State :=
  match player_join (db st) !! player_id with
  | None => (HTTPException 404 "Player not found", st)
  | Some (player_info, leaderboard) =>
      let rank := get_rank_from_redis player_id (redis st) in
      (OK (mkPlayerProfileResponse player_id
             (PlayerInfo.name player_info)
             (PlayerInfo.phone_or_email player_info)
             rank
             (PlayerLeaderboard.best_score leaderboard)
             (PlayerLeaderboard.last_updated leaderboard)), st)
  end.

(** [ORDER BY created_at DESC]; rows with the same [created_at] are kept in
    insertion order, which SQL leaves open. *)
Definition newer_first (a b : ScoreHistory.t) : Prop :=
  ScoreHistory.created_at b <= ScoreHistory.created_at a.

#[local] Instance newer_first_dec a b : Decision (newer_first a b).
Proof. unfold newer_first. apply _. Defined.

(** [get_player_history]: the newest [limit] submissions of the player. *)
Definition get_player_history (player_id : UUID) (limit : Z) (st : State)
  : response PlayerHistoryResponse * State :=
  match playerinfo (db st) !! player_id with
  | None => (HTTPException 404 "Player not found", st)
  | Some player =>
      let scores :=
        take (Z.to_nat limit)
          (merge_sort newer_first
             (filter (λ s, ScoreHistory.player_id s = player_id)
                     (score_history (db st)))) in
      (OK (mkPlayerHistoryResponse player_id (PlayerInfo.name player)
             (map (λ s, mkScoreHistoryItem (ScoreHistory.score s)
                                           (ScoreHistory.created_at s))
                  scores)), st)
  end.

(** ** The service as a transition system *)

Inductive Request : Type :=
| Signup (payload : SignupRequest) (new_id : UUID) (password_hash : string)
| Login (payload : LoginRequest) (password_ok : bool)
| SubmitScore (payload : SubmitScoreRequest)
| GetTopLeaderboard (n : Z)
| GetPlayerProfile (pid : UUID)
| GetPlayerHistory (pid : UUID) (limit : Z).

(** A request passes validation (else FastAPI answers 422 without calling
    the handler). *)
Definition valid_Request (req : Request) : bool :=
  match req with
  | Signup payload _ _ => valid_SignupRequest payload
  | SubmitScore payload => valid_SubmitScoreRequest payload
  | GetTopLeaderboard n => valid_Query n
  | GetPlayerHistory _ limit => valid_Query limit
  | Login _ _ | GetPlayerProfile _ => true
  end.

(** The state a request handled at time [now] leaves behind. *)
Definition handle (req : Request) (now : datetime) (st : State) : State :=
  if valid_Request req then
    match req with
    | Signup payload new_id password_hash =>
        snd (signup payload new_id password_hash now st)
    | Login payload password_ok => snd (login payload password_ok st)
    | SubmitScore payload => snd (submit_score payload now st)
    | GetTopLeaderboard n => snd (get_top_leaderboard n st)
    | GetPlayerProfile pid => snd (get_player_profile pid st)
    | GetPlayerHistory pid limit => snd (get_player_history pid limit st)
    end
  else st.

(** States the service reaches from the empty database, in whatever time
    zone the process runs; [reachable c st]: [st] is reached and [c] is the
    latest reading of the clock, which never runs backwards. *)
Inductive reachable : datetime -> State -> Prop :=
| reachable_init c zone : reachable c (empty_state_in zone)
| reachable_step c st req now :
    reachable c st -> c <= now -> reachable now (handle req now st).


(** ** Notions used to state the properties *)

(** The ledger a committed submission leaves behind. *)
Definition committed (payload : SubmitScoreRequest) (now : datetime)
  (st : State) : Ledger :=
  mkLedger (playerinfo (db st))
    (snd (upsert_best (player_id payload) (score payload) now
                      (playerleaderboard (db st))))
    (score_history (db st)
     ++ [ScoreHistory.mk (score_history_id_seq (db st)) (player_id payload)
                         (score payload) now])
    (score_history_id_seq (db st) + 1).

(** One submission of a player: the score and the time the call reads. *)
Definition submission : Type := Z * datetime.

(** A sequence of [submit_score] calls for one player. *)
Definition submit_all (pid : UUID) (subs : list submission) (st : State)
  : State :=
  foldl (λ st sub,
           snd (submit_score (mkSubmitScoreRequest pid (fst sub)) (snd sub) st))
        st subs.

(** The largest of [b] and the scores of [subs]. *)
Definition max_from (b : Z) (subs : list submission) : Z :=
  foldr (λ x m, Z.max (fst x) m) b subs.

Definition max_score (subs : list submission) : option Z :=
  match subs with
  | [] => None
  | sub :: rest => Some (max_from (fst sub) rest)
  end.

(** Time of the first submission whose score is [m]. *)
Fixpoint first_time_of (m : Z) (subs : list submission) : option datetime :=
  match subs with
  | [] => None
  | sub :: rest =>
      if fst sub =? m then Some (snd sub) else first_time_of m rest
  end.

(** After the calls the row of [pid] holds the highest score submitted and the
    time of the first submission that reached it. *)
Definition best_is_first_max (pid : UUID) (subs : list submission)
  (st : State) : Prop :=
  exists r m,
    playerleaderboard (db (submit_all pid subs st)) !! pid = Some r
    /\ max_score subs = Some m
    /\ PlayerLeaderboard.best_score r = m
    /\ first_time_of m subs = Some (PlayerLeaderboard.last_updated r).

(** Players without any submission have no best-score row. *)
Definition lazily_created (st : State) : Prop :=
  forall pid,
    is_Some (playerinfo (db st) !! pid) ->
    Forall (λ e, ScoreHistory.player_id e ≠ pid) (score_history (db st)) ->
    playerleaderboard (db st) !! pid = None.



(** Sample requests. *)
Definition alice : SignupRequest :=
  mkSignupRequest "Alice" "alice" "password123".
Definition bob : SignupRequest :=
  mkSignupRequest "Bob" "bob" "password123".

(** Step 2 of [submit_score] seen on the row alone. *)
Definition raise_best (o : option PlayerLeaderboard.t) (sub : submission)
  : option PlayerLeaderboard.t :=
  match o with
  | None => Some (PlayerLeaderboard.mk (fst sub) (snd sub))
  | Some r =>
      if PlayerLeaderboard.best_score r <? fst sub
      then Some (PlayerLeaderboard.mk (fst sub) (snd sub))
      else Some r
  end.

(** Ranks numbered 1, 2, 3, ... without a gap. *)
Definition contiguous_ranks (l : list PlayerLeaderboardEntry) : Prop :=
  map entry_rank l = map Z.of_nat (seq 1 (length l)).

(** A state with index/ledger drift: player 1 has submitted 50; the index also
    holds member 9, which the ledger does not know, with a higher score. *)
Definition drift_state : State :=
  let st :=
    snd (submit_score (mkSubmitScoreRequest 1%N 50) 1790000000000000
           (handle (Signup alice 1%N "h") 100 empty_state)) in
  mkState (db st)
          (mkRedis (zadd 9%N (PyFloat.of_Z 0) (GLOBAL_LEADERBOARD (redis st)))
                   (PLAYER_META (redis st)))
          (tz st).

(** Two players: Alice with best score 100, Bob with 50. *)
Definition two_players : State :=
  snd (submit_score (mkSubmitScoreRequest 2%N 50) 1790000001000000
    (snd (submit_score (mkSubmitScoreRequest 1%N 100) 1790000000000000
       (handle (Signup bob 2%N "h") 200
          (handle (Signup alice 1%N "h") 100 empty_state))))).

(** ** Notions used to state the properties of the encoder *)

(** The binary64 number that is the integer [n], for [|n| < 2^53]: a 53-bit
    mantissa and the matching exponent. *)
Definition expo (n : Z) : Z := Z.log2 (Z.abs n) - 52.
Definition mant (n : Z) : Z := Z.abs n * 2 ^ (- expo n).
Definition canon (n : Z) : PyFloat.float :=
  if n =? 0 then S754_zero false
  else S754_finite (n <? 0) (Z.to_pos (mant n)) (expo n).

(** The float [x] is the integer [n], without rounding: it is what [float(n)]
    gives, and [int(x)] gives [n] back. *)
Definition exactly (x : PyFloat.float) (n : Z) : Prop :=
  x = PyFloat.of_Z n /\ PyFloat.int_of_float x = Some n.

(** Largest score whose product with [K] is below [2^53]. *)
Definition MAX_EXACT_SCORE : Z := 9007199.

(** A (score, timestamp in milliseconds) pair as the encoder receives it. *)
Definition achievement : Type := Z * Z.

(** The rule of the leaderboard: the higher score wins; for equal scores the
    earlier timestamp wins. *)
Definition ranks_above (a b : achievement) : Prop :=
  fst b < fst a \/ (fst a = fst b /\ snd a < snd b).

(** The encoded value of [a] is strictly greater than that of [b]. *)
Definition encodes_above (a b : achievement) : Prop :=
  exists x y,
    _encode_score_with_tiebreaker (fst a) (snd a) = Some x
    /\ _encode_score_with_tiebreaker (fst b) (snd b) = Some y
    /\ PyFloat.ltb y x = true.

(** Pairs whose encoding involves no rounding. *)
Definition exact_range (a : achievement) : Prop :=
  0 <= fst a <= MAX_EXACT_SCORE /\ 0 <= snd a < 2 ^ 53.

(** 2026-09-21T14:13:20Z in milliseconds since the epoch. *)
Definition sample_ts_ms : Z := 1790000000000.

(** ** Notions used for rounded results *)

(** The value of a finite number in units of [2^-1074] (an integer for every
    binary64 number). *)
Definition sval (x : spec_float) : Z :=
  match x with
  | S754_finite s m e => cond_Zopp s (Zpos m * 2 ^ (e + 1074))
  | _ => 0
  end.

(** Zero, or a finite number with a full 53-bit mantissa. *)
Definition normal (x : spec_float) : Prop :=
  match x with
  | S754_zero _ => True
  | S754_finite _ m e => Zpos (digits2_pos m) = 53 /\ -1074 <= e
  | _ => False
  end.

(** What [k] steps leave of a mantissa [M]: the quotient by [2^k], and in the
    round and sticky bits whether the remainder [rho] reaches the half,
    respectively differs from zero and the half. *)
Definition shr_inv (M : Z) (k : nat) (mrs : shr_record) : Prop :=
  exists rho,
    M = shr_m mrs * 2 ^ Z.of_nat k + rho
    /\ 0 <= rho < 2 ^ Z.of_nat k
    /\ 0 <= shr_m mrs
    /\ shr_r mrs = (2 ^ Z.of_nat k <=? 2 * rho)
    /\ shr_s mrs = negb (rho =? 0) && negb (2 * rho =? 2 ^ Z.of_nat k).

(** ** Further notions: invariants of the service *)

(** The ledger after a successful [signup]. *)
Definition signed_up (payload : SignupRequest) (new_id : UUID)
  (password_hash : string) (now : datetime) (l : Ledger) : Ledger :=
  mkLedger
    (<[new_id := PlayerInfo.mk (signup_name payload)
                   (signup_phone_or_email payload) password_hash now]>
       (playerinfo l))
    (<[new_id := PlayerLeaderboard.mk 0 now]> (playerleaderboard l))
    (score_history l) (score_history_id_seq l).

(** No string of the request contains NUL. *)
Definition NUL_free (payload : SignupRequest) (password_hash : string)
  : Prop :=
  has_NUL (signup_phone_or_email payload) = false
  /\ has_NUL (signup_name payload) = false
  /\ has_NUL password_hash = false.

(** Some player is registered under [contact]. *)
Definition registered (contact : string) (l : Ledger) : Prop :=
  exists pid player,
    playerinfo l !! pid = Some player
    /\ PlayerInfo.phone_or_email player = contact.

(** The unique constraint of [playerinfo.phone_or_email]. *)
Definition unique_contacts (l : Ledger) : Prop :=
  forall p1 p2 a b,
    playerinfo l !! p1 = Some a -> playerinfo l !! p2 = Some b ->
    PlayerInfo.phone_or_email a = PlayerInfo.phone_or_email b -> p1 = p2.

(** The foreign keys of [playerleaderboard] and [score_history]. *)
Definition foreign_keys (l : Ledger) : Prop :=
  (forall pid, is_Some (playerleaderboard l !! pid) ->
               is_Some (playerinfo l !! pid))
  /\ Forall (λ e, is_Some (playerinfo l !! ScoreHistory.player_id e))
            (score_history l).

(** The ids of [score_history] grow with the insertion order and stay below
    the sequence. *)
Definition history_ids (l : Ledger) : Prop :=
  StronglySorted (λ a b, ScoreHistory.id a < ScoreHistory.id b)
                 (score_history l)
  /\ Forall (λ e, ScoreHistory.id e < score_history_id_seq l)
            (score_history l).

(** The submissions of a player, oldest first. *)
Definition history_of (pid : UUID) (l : Ledger) : list submission :=
  map (λ e, (ScoreHistory.score e, ScoreHistory.created_at e))
      (filter (λ e, ScoreHistory.player_id e = pid) (score_history l)).

(** Every member of the rank index is a player with a best-score row. *)
Definition index_members_known (st : State) : Prop :=
  forall pid,
    is_Some (GLOBAL_LEADERBOARD (redis st) !! pid) ->
    is_Some (playerinfo (db st) !! pid)
    /\ is_Some (playerleaderboard (db st) !! pid).

(** The timestamp in milliseconds [update_leaderboard] derives from a
    [last_updated], in the time zone [zone]. *)
Definition ts_ms_of (zone : TimeZone) (d : datetime) : option Z :=
  match timestamp zone d with
  | inl _ => None
  | inr achieved_at =>
      PyFloat.int_of_float (PyFloat.mul achieved_at (PyFloat.of_Z 1000))
  end.

(** What the mirror holds for a best-score row. *)
Definition mirror_of (zone : TimeZone) (row : PlayerLeaderboard.t)
  : option (PyFloat.float * (Z * Z)) :=
  ts_ms ← ts_ms_of zone (PlayerLeaderboard.last_updated row);
  encoded ← _encode_score_with_tiebreaker
              (PlayerLeaderboard.best_score row) ts_ms;
  Some (encoded, (PlayerLeaderboard.best_score row, ts_ms)).

(** The entry of [pid] in Redis is the mirror of its best-score row. *)
Definition mirrored_at (pid : UUID) (st : State) : Prop :=
  exists row encoded meta,
    playerleaderboard (db st) !! pid = Some row
    /\ mirror_of (tz st) row = Some (encoded, meta)
    /\ GLOBAL_LEADERBOARD (redis st) !! pid = Some encoded
    /\ PLAYER_META (redis st) !! pid = Some meta.

(** Every member of the rank index mirrors its best-score row. *)
Definition mirrored (st : State) : Prop :=
  forall pid,
    is_Some (GLOBAL_LEADERBOARD (redis st) !! pid) -> mirrored_at pid st.

(** The mirror step of [submit_score] raised: an exception escaped the
    handler after the commit. *)
Definition mirror_raised (req : Request) (now : datetime) (st : State)
  : Prop :=
  exists payload e,
    req = SubmitScore payload
    /\ fst (submit_score payload now st) = Unhandled e
    /\ db (snd (submit_score payload now st)) = committed payload now st.

(** ** [sample_data.py]: the sample players *)

(** The loop over the draws of one player in [create_sample_players]:
    [best_score] starts at 0 and [best_ts] at the time read before the loop;
    a draw replaces them when its score is strictly higher.  A draw is the
    score [random.randint] returned with the time computed for it. *)
Definition sample_best (now0 : datetime) (draws : list submission)
  : Z * datetime :=
  foldl (λ best draw, if fst best <? fst draw then draw else best)
        (0, now0) draws.

(** The best-score row [create_sample_players] adds for the player. *)
Definition sample_row (now0 : datetime) (draws : list submission)
  : PlayerLeaderboard.t :=
  PlayerLeaderboard.mk (fst (sample_best now0 draws))
                       (snd (sample_best now0 draws)).

(** The second block of [create_sample_players]: one [update_leaderboard]
    call for every row the query returned, in the order of the result; the
    first call that raises ends the loop.  [zone] is the local time zone of
    the process that runs the script. *)
Fixpoint mirror_rows (zone : TimeZone)
  (players : list (UUID * PlayerLeaderboard.t)) (r : Redis) : option Redis :=
  match players with
  | [] => Some r
  | (pid, pl) :: rest =>
      match timestamp zone (PlayerLeaderboard.last_updated pl) with
      | inl _ => None
      | inr achieved_at =>
          r' ← update_leaderboard pid (PlayerLeaderboard.best_score pl)
                 achieved_at r;
          mirror_rows zone rest r'
      end
  end.

(** What [random.randint(10, 200)] can return. *)
Definition randint_10_200 (draws : list submission) : Prop :=
  Forall (λ draw, 10 <= fst draw <= 200) draws.

(** The entries of Redis for the ids outside a table are those of [r]. *)
Definition same_outside (tbl : gmap UUID PlayerLeaderboard.t) (r r' : Redis)
  : Prop :=
  forall pid,
    tbl !! pid = None ->
    GLOBAL_LEADERBOARD r' !! pid = GLOBAL_LEADERBOARD r !! pid
    /\ PLAYER_META r' !! pid = PLAYER_META r !! pid.

(** ** Notions for the millisecond timestamp of the mirror *)

(** [datetime.max], the last microsecond of the year 9999, and its second. *)
Definition DATETIME_MAX : datetime := 253402300799999999.
Definition MAX_SECOND : Z := 253402300799.

(** The zone maps the second of the datetime [d] to a POSIX second between
    the epoch and the last second of the year 9999. *)
Definition stamp_ok (zone : TimeZone) (d : datetime) : Prop :=
  exists u,
    local_to_seconds zone (d `div` 1000000) = inr u /\ 0 <= u <= MAX_SECOND.

(** The POSIX time, in microseconds, that the zone gives the datetime. *)
Definition posix_us (zone : TimeZone) (d : datetime) : option Z :=
  match local_to_seconds zone (d `div` 1000000) with
  | inl _ => None
  | inr u => Some (u * 1000000 + d `mod` 1000000)
  end.

(** What the steps of [shr] leave of a quotient [N / P]: the integer part in
    [shr_m], and in the round and sticky bits whether the remainder [rho]
    reaches the half of [P], respectively differs from zero and the half. *)
Definition shr_scaled (N P : Z) (mrs : shr_record) : Prop :=
  exists rho,
    N = shr_m mrs * P + rho
    /\ 0 <= rho < P
    /\ 0 <= shr_m mrs
    /\ shr_r mrs = (P <=? 2 * rho)
    /\ shr_s mrs = negb (rho =? 0) && negb (2 * rho =? P).

(** The best-score rows are stamped with datetimes the zone maps between the
    epoch and the end of the year 9999, and hold scores a PostgreSQL
    [Integer] holds, from 0 on. *)
Definition rows_in_range (zone : TimeZone) (l : Ledger) : Prop :=
  forall pid row,
    playerleaderboard l !! pid = Some row ->
    stamp_ok zone (PlayerLeaderboard.last_updated row)
    /\ 0 <= PlayerLeaderboard.best_score row <= INT4_MAX.

(** The values the mirror step computes for the row are defined: neither
    [timestamp()], [int()] nor the encoder raises. *)
Definition mirror_defined (zone : TimeZone) (row : PlayerLeaderboard.t)
  : Prop :=
  is_Some (mirror_of zone row).

(** States the service reaches from the empty database by serving requests
    one after the other, each with a clock reading from [lo] to [hi]; the
    readings need not come in the order in which the requests are served. *)
Inductive reachable_within (lo hi : datetime) : State -> Prop :=
| reachable_within_init zone : reachable_within lo hi (empty_state_in zone)
| reachable_within_step st req now :
    reachable_within lo hi st -> lo <= now <= hi ->
    reachable_within lo hi (handle req now st).

(** The achievement an item of the leaderboard shows: its score with the
    millisecond timestamp of its [last_updated] in the zone. *)
Definition achievement_of (zone : TimeZone) (item : PlayerLeaderboardEntry)
  : option achievement :=
  ts_ms ← ts_ms_of zone (entry_last_updated item);
  Some (entry_score item, ts_ms).

(** ** Notions for the rank of a member *)

(** The number of members of the sorted set that come before the entry
    [(pid, sc)] in descending order. *)
Definition members_above (z : gmap UUID PyFloat.float) (pid : UUID)
  (sc : PyFloat.float) : nat :=
  length (filter (λ e, zabove e (pid, sc) = true) (map_to_list z)).

(** Every score of the sorted set is a normal number or zero. *)
Definition normal_scores (z : gmap UUID PyFloat.float) : Prop :=
  map_Forall (λ _ sc, normal sc) z.

(** * Properties of the ledger *)

Section Ledger.

Implicit Types (st : State) (payload : SubmitScoreRequest) (now : datetime).
Implicit Types (pid : UUID) (tbl : gmap UUID PlayerLeaderboard.t).

Lemma submit_score_commits payload now st :
  is_Some (playerinfo (db st) !! player_id payload) ->
  fits_Integer (score payload) = true ->
  db (snd (submit_score payload now st)) = committed payload now st.
Proof.
  intros [player Hp] Hfit. unfold submit_score, committed.
  rewrite Hp. destruct (upsert_best _ _ _ _) as [leaderboard tbl'].
  rewrite Hfit. cbn [negb snd].
  destruct (timestamp _ _) as [e|a]; [done|].
  by destruct (update_leaderboard _ _ _ _).
Qed.

Lemma submit_score_aborts payload now st :
  playerinfo (db st) !! player_id payload = None
  \/ fits_Integer (score payload) = false ->
  snd (submit_score payload now st) = st.
Proof.
  unfold submit_score. intros [Hp | Hfit].
  - by rewrite Hp.
  - destruct (playerinfo (db st) !! player_id payload); [|done].
    destruct (upsert_best _ _ _ _). by rewrite Hfit.
Qed.

Lemma submit_score_ledger payload now st :
  db (snd (submit_score payload now st)) = db st
  \/ (is_Some (playerinfo (db st) !! player_id payload)
      /\ db (snd (submit_score payload now st)) = committed payload now st).
Proof.
  destruct (playerinfo (db st) !! player_id payload) as [p|] eqn:Hp.
  - destruct (fits_Integer (score payload)) eqn:Hfit.
    + right. split; [by eexists|].
      apply submit_score_commits; [by eexists|done].
    + left. by rewrite submit_score_aborts; [|right].
  - left. by rewrite submit_score_aborts; [|left].
Qed.

Lemma upsert_best_lookup pid score now tbl :
  snd (upsert_best pid score now tbl) !! pid
  = Some (fst (upsert_best pid score now tbl)).
Proof.
  unfold upsert_best. destruct (tbl !! pid) as [r|] eqn:E; cbn.
  - destruct (_ <? _); cbn; [apply lookup_insert_eq | done].
  - apply lookup_insert_eq.
Qed.

Lemma upsert_best_other pid pid' score now tbl :
  pid ≠ pid' -> snd (upsert_best pid score now tbl) !! pid' = tbl !! pid'.
Proof.
  intros Hne. unfold upsert_best. destruct (tbl !! pid) as [r|]; cbn.
  - destruct (_ <? _); cbn; [by apply lookup_insert_ne | done].
  - by apply lookup_insert_ne.
Qed.

(** What the row of [pid] becomes: the three cases of step 2. *)
Lemma upsert_best_cases pid score now tbl :
  match tbl !! pid with
  | None =>
      snd (upsert_best pid score now tbl) !! pid
      = Some (PlayerLeaderboard.mk score now)
  | Some r =>
      (PlayerLeaderboard.best_score r < score
       /\ snd (upsert_best pid score now tbl) !! pid
          = Some (PlayerLeaderboard.mk score now))
      \/ (score <= PlayerLeaderboard.best_score r
          /\ snd (upsert_best pid score now tbl) = tbl)
  end.
Proof.
  unfold upsert_best. destruct (tbl !! pid) as [r|]; cbn.
  - destruct (Z.ltb_spec (PlayerLeaderboard.best_score r) score); cbn.
    + left. split; [done | apply lookup_insert_eq].
    + by right.
  - apply lookup_insert_eq.
Qed.

(** The change of one row by one request: nothing, a row created by [signup],
    or a row created or raised by [submit_score]. *)
Lemma handle_row req now st pid :
  let o := playerleaderboard (db st) !! pid in
  let o' := playerleaderboard (db (handle req now st)) !! pid in
  o' = o
  \/ (exists (p : SignupRequest) (h : string),
        req = Signup p pid h
        /\ o = None /\ o' = Some (PlayerLeaderboard.mk 0 now))
  \/ (exists payload,
        req = SubmitScore payload /\ player_id payload = pid
        /\ is_Some (playerinfo (db st) !! pid)
        /\ o' = Some (PlayerLeaderboard.mk (score payload) now)
        /\ match o with
           | None => True
           | Some r => PlayerLeaderboard.best_score r < score payload
           end).
Proof.
  intros o o'. subst o o'. unfold handle.
  destruct (valid_Request req); [|by left].
  destruct req as [payload new_id h|payload ok|payload|n|p|p limit]; cbn [snd].
  - unfold signup. destruct (contact_taken _ _); [by left|].
    destruct (has_NUL _ || _ || _); [by left|].
    destruct (playerinfo (db st) !! new_id) eqn:Hp; [by left|].
    destruct (playerleaderboard (db st) !! new_id) eqn:Hl; [by left|].
    cbn. destruct (decide (new_id = pid)) as [->|Hne].
    + right; left. exists payload, h. by rewrite Hl, lookup_insert_eq.
    + left. by rewrite lookup_insert_ne.
  - left. unfold login. by repeat case_match.
  - destruct (submit_score_ledger payload now st) as [-> | [Hp ->]]; [by left|].
    cbn. destruct (decide (player_id payload = pid)) as [<-|Hne].
    + pose proof (upsert_best_cases (player_id payload) (score payload) now
                    (playerleaderboard (db st))) as Hc.
      destruct (playerleaderboard (db st) !! player_id payload) as [r|] eqn:Hl.
      * destruct Hc as [[Hlt Hc] | [_ ->]]; [|by left].
        right; right. by exists payload.
      * right; right. by exists payload.
    + left. by apply upsert_best_other.
  - left. unfold get_top_leaderboard. by case_match.
  - left. unfold get_player_profile. by repeat case_match.
  - left. unfold get_player_history. by case_match.
Qed.

(** [playerinfo] grows only by [signup], which adds the best-score row too. *)
Lemma handle_player req now st pid :
  is_Some (playerinfo (db (handle req now st)) !! pid) ->
  is_Some (playerinfo (db st) !! pid)
  \/ is_Some (playerleaderboard (db (handle req now st)) !! pid).
Proof.
  unfold handle. destruct (valid_Request req); [|by left].
  destruct req as [payload new_id h|payload ok|payload|n|p|p limit]; cbn [snd].
  - unfold signup. destruct (contact_taken _ _); [by left|].
    destruct (has_NUL _ || _ || _); [by left|].
    destruct (playerinfo (db st) !! new_id) eqn:Hp; [by left|].
    destruct (playerleaderboard (db st) !! new_id) eqn:Hl; [by left|].
    cbn. destruct (decide (new_id = pid)) as [->|Hne].
    + right. rewrite lookup_insert_eq. by eexists.
    + rewrite lookup_insert_ne by done. by left.
  - unfold login. by repeat case_match; left.
  - destruct (submit_score_ledger payload now st) as [-> | [Hp ->]]; by left.
  - unfold get_top_leaderboard. by case_match; left.
  - unfold get_player_profile. by repeat case_match; left.
  - unfold get_player_history. by case_match; left.
Qed.

(** Every player of a reachable state has a best-score row. *)
Lemma reachable_player_has_row c st pid :
  reachable c st ->
  is_Some (playerinfo (db st) !! pid) ->
  is_Some (playerleaderboard (db st) !! pid).
Proof.
  induction 1 as [c zone | c st req now Hr IH Hle]; intros Hp.
  - cbn in Hp. rewrite lookup_empty in Hp. by destruct Hp.
  - destruct (handle_player _ _ _ _ Hp) as [Hp' | Hl]; [|done].
    specialize (IH Hp'). destruct IH as [r Hr0].
    destruct (handle_row req now st pid) as [-> | [H | H]].
    + by eexists.
    + destruct H as (? & ? & _ & _ & ->). by eexists.
    + destruct H as (? & _ & _ & _ & -> & _). by eexists.
Qed.


End Ledger.

(** C6. Submitting a score for a [player_id] that is not in [playerinfo] is
    answered with 404 "Player not found" and changes neither the ledger
    (players, best-score rows, score history) nor the Redis rank index. *)
Theorem submit_score_unknown_player_not_found :
  forall (payload : SubmitScoreRequest) (now : datetime) (st : State),
    playerinfo (db st) !! player_id payload = None ->
    submit_score payload now st
    = (HTTPException 404 "Player not found", st).
Proof.
  intros payload now st Hp. unfold submit_score. by rewrite Hp.
Qed.

Lemma submit_score_unknown_player_not_found_witness :
  submit_score (mkSubmitScoreRequest 7%N 10) 1000 empty_state
  = (HTTPException 404 "Player not found", empty_state).
Proof.
  apply (submit_score_unknown_player_not_found
           (mkSubmitScoreRequest 7%N 10) 1000 empty_state).
  reflexivity.
Defined.

(** C10. A committed [submit_score] call appends exactly one score-history row
    stamped with the time the call read, and a best-score row that differs
    after the call (created or raised) carries that same time as
    [last_updated]. *)
Theorem submit_score_single_timestamp :
  forall (payload : SubmitScoreRequest) (now : datetime) (st : State),
    is_Some (playerinfo (db st) !! player_id payload) ->
    fits_Integer (score payload) = true ->
    let st' := snd (submit_score payload now st) in
    exists event,
      score_history (db st') = score_history (db st) ++ [event]
      /\ ScoreHistory.player_id event = player_id payload
      /\ ScoreHistory.score event = score payload
      /\ ScoreHistory.created_at event = now
      /\ forall pid r',
           playerleaderboard (db st') !! pid = Some r' ->
           playerleaderboard (db st) !! pid ≠ Some r' ->
           pid = player_id payload
           /\ PlayerLeaderboard.last_updated r'
              = ScoreHistory.created_at event.
Proof.
  intros payload now st Hp Hfit st'. subst st'.
  rewrite (submit_score_commits _ _ _ Hp Hfit). unfold committed. cbn.
  eexists. split; [reflexivity|]. cbn. repeat split; try done.
  - destruct (decide (player_id payload = pid)) as [E|Hne]; [done|].
    rewrite upsert_best_other in H by done. done.
  - destruct (decide (player_id payload = pid)) as [<-|Hne].
    + pose proof (upsert_best_cases (player_id payload) (score payload) now
                    (playerleaderboard (db st))) as Hc.
      destruct (playerleaderboard (db st) !! player_id payload) as [r|] eqn:Hl.
      * destruct Hc as [[_ Hc] | [_ Hc]].
        -- rewrite Hc in H. by injection H as <-.
        -- rewrite Hc, Hl in H. done.
      * rewrite Hc in H. by injection H as <-.
    + rewrite upsert_best_other in H by done. done.
Qed.

Lemma submit_score_single_timestamp_witness :
  let st := handle (Signup alice 1%N "h") 100 empty_state in
  let st' := snd (submit_score (mkSubmitScoreRequest 1%N 10) 200 st) in
  exists event,
    score_history (db st') = score_history (db st) ++ [event]
    /\ ScoreHistory.player_id event = 1%N
    /\ ScoreHistory.score event = 10
    /\ ScoreHistory.created_at event = 200
    /\ forall pid r',
         playerleaderboard (db st') !! pid = Some r' ->
         playerleaderboard (db st) !! pid ≠ Some r' ->
         pid = 1%N
         /\ PlayerLeaderboard.last_updated r' = ScoreHistory.created_at event.
Proof.
  apply (submit_score_single_timestamp (mkSubmitScoreRequest 1%N 10) 200
           (handle (Signup alice 1%N "h") 100 empty_state)).
  - vm_compute. eexists. reflexivity.
  - reflexivity.
Defined.

(** C5 as stated fails: after a signup the player has no submission but
    already owns a best-score row. *)
Lemma signup_row_not_lazy :
  let st := handle (Signup alice 1%N "h") 100 empty_state in
  reachable 100 st
  /\ playerleaderboard (db st) !! 1%N = Some (PlayerLeaderboard.mk 0 100)
  /\ ~ lazily_created st.
Proof.
  cbn zeta. split; [|split].
  - apply reachable_step with (c := 0); [constructor | lia].
  - reflexivity.
  - intros Hlazy. specialize (Hlazy 1%N).
    assert (@None PlayerLeaderboard.t = Some (PlayerLeaderboard.mk 0 100))
      as Habs; [|discriminate Habs].
    rewrite <- Hlazy; [reflexivity | by eexists | constructor].
Qed.

(** C5, amended. [signup] creates the best-score row at once, with
    [best_score = 0] and [last_updated] the signup time; so in every reachable
    state every player owns a row, with or without submissions.  A row appears
    only through [signup], or through [submit_score] for a player that has
    none. *)
Theorem best_score_row_created_at_signup :
  forall (c : datetime) (st : State),
    reachable c st ->
    (forall pid,
       is_Some (playerinfo (db st) !! pid) ->
       is_Some (playerleaderboard (db st) !! pid))
    /\ (forall req now pid r,
          playerleaderboard (db st) !! pid = None ->
          playerleaderboard (db (handle req now st)) !! pid = Some r ->
          (exists p h, req = Signup p pid h
                       /\ r = PlayerLeaderboard.mk 0 now)
          \/ (exists payload, req = SubmitScore payload
                              /\ player_id payload = pid
                              /\ r = PlayerLeaderboard.mk (score payload) now)).
Proof.
  intros c st Hr. split.
  - intros pid. by apply reachable_player_has_row with (c := c).
  - intros req now pid r Hnone Hsome.
    destruct (handle_row req now st pid) as [E | [H | H]].
    + congruence.
    + destruct H as (p & h & -> & _ & E). left. exists p, h.
      split; [done | congruence].
    + destruct H as (payload & -> & Hpid & _ & E & _). right. exists payload.
      repeat split; [done | congruence].
Qed.

Lemma best_score_row_created_at_signup_witness :
  let st := handle (Signup alice 1%N "h") 100 empty_state in
  is_Some (playerleaderboard (db st) !! 1%N).
Proof.
  cbn zeta.
  apply (best_score_row_created_at_signup 100
           (handle (Signup alice 1%N "h") 100 empty_state)).
  - apply reachable_step with (c := 0); [constructor | lia].
  - vm_compute. eexists. reflexivity.
Defined.




(** * The best score of a player over a sequence of submissions *)

Section BestScore.

Implicit Types (subs : list submission) (r : PlayerLeaderboard.t).

Lemma max_from_max a b subs :
  max_from (Z.max a b) subs = Z.max a (max_from b subs).
Proof.
  unfold max_from.
  induction subs as [|x subs IH]; cbn; [done | rewrite IH; lia].
Qed.

Lemma max_from_ge b subs : b <= max_from b subs.
Proof. unfold max_from. induction subs as [|x subs IH]; cbn; lia. Qed.

Lemma max_score_max_from b subs m :
  max_score subs = Some m -> max_from b subs = Z.max b m.
Proof.
  destruct subs as [|x subs]; [done|]. cbn [max_score]. intros [= <-].
  unfold max_from at 1. cbn [foldr]. fold (max_from b subs).
  rewrite <- !max_from_max. f_equal. lia.
Qed.

Lemma upsert_best_raise pid s t (tbl : gmap UUID PlayerLeaderboard.t) :
  snd (upsert_best pid s t tbl) !! pid = raise_best (tbl !! pid) (s, t).
Proof.
  unfold upsert_best, raise_best.
  destruct (tbl !! pid) as [r|] eqn:E; cbn; [|apply lookup_insert_eq].
  destruct (_ <? _); cbn; [apply lookup_insert_eq | done].
Qed.

Lemma submit_all_cons pid sub subs st :
  submit_all pid (sub :: subs) st
  = submit_all pid subs
      (snd (submit_score (mkSubmitScoreRequest pid (fst sub)) (snd sub) st)).
Proof. reflexivity. Qed.

Lemma submit_all_row pid subs st :
  is_Some (playerinfo (db st) !! pid) ->
  Forall (λ sub, fits_Integer (fst sub) = true) subs ->
  playerleaderboard (db (submit_all pid subs st)) !! pid
  = foldl raise_best (playerleaderboard (db st) !! pid) subs.
Proof.
  revert st. induction subs as [|[s t] subs IH]; intros st Hp Hfit; [done|].
  apply Forall_cons in Hfit as [Hs Hfit]. cbn in Hs.
  rewrite submit_all_cons. cbn [fst snd].
  set (st1 := snd (submit_score (mkSubmitScoreRequest pid s) t st)).
  assert (db st1 = committed (mkSubmitScoreRequest pid s) t st) as Hdb
    by (by apply submit_score_commits).
  rewrite IH; [|by rewrite Hdb|done].
  rewrite Hdb. cbn. by rewrite upsert_best_raise.
Qed.

(** Folding the submissions over an existing row [r]. *)
Lemma foldl_raise_best r subs :
  exists r',
    foldl raise_best (Some r) subs = Some r'
    /\ PlayerLeaderboard.best_score r'
       = max_from (PlayerLeaderboard.best_score r) subs
    /\ if PlayerLeaderboard.best_score r
          <? max_from (PlayerLeaderboard.best_score r) subs
       then first_time_of (max_from (PlayerLeaderboard.best_score r) subs) subs
            = Some (PlayerLeaderboard.last_updated r')
       else r' = r.
Proof.
  revert r. induction subs as [|[s t] subs IH]; intros r.
  - exists r. cbn. by rewrite Z.ltb_irrefl.
  - cbn [foldl raise_best fst snd].
    set (b := PlayerLeaderboard.best_score r).
    set (r1 := if b <? s then PlayerLeaderboard.mk s t else r).
    assert ((if b <? s then Some (PlayerLeaderboard.mk s t) else Some r)
            = Some r1) as -> by (subst r1; by destruct (b <? s)).
    assert (PlayerLeaderboard.best_score r1 = Z.max s b) as Hb1.
    { subst r1. destruct (Z.ltb_spec b s); cbn; subst b; lia. }
    destruct (IH r1) as (r' & Hfold & Hbest & Htime).
    rewrite Hb1, max_from_max in Hbest, Htime.
    exists r'. split; [done|]. cbn [max_from foldr fst].
    fold (max_from b subs). split; [done|].
    set (m := Z.max s (max_from b subs)) in *.
    pose proof (max_from_ge b subs) as Hge.
    cbn [first_time_of fst snd].
    destruct (Z.ltb_spec b m) as [Hlt|Hnlt].
    + destruct (Z.eqb_spec s m) as [Hsm|Hsm].
      * destruct (Z.ltb_spec (Z.max s b) m); [lia|].
        subst r'. subst r1. destruct (Z.ltb_spec b s); [done | lia].
      * destruct (Z.ltb_spec (Z.max s b) m); [done | lia].
    + destruct (Z.ltb_spec (Z.max s b) m); [lia|].
      subst r'. subst r1. destruct (Z.ltb_spec b s); [lia | done].
Qed.

End BestScore.

(** C1 as stated fails: a player fresh from signup who submits a score of 0
    keeps the signup time as [last_updated], not the time of the
    submission. *)
Lemma zero_score_keeps_signup_time :
  let st := handle (Signup alice 1%N "h") 100 empty_state in
  playerleaderboard (db (submit_all 1%N [(0, 200)] st)) !! 1%N
  = Some (PlayerLeaderboard.mk 0 100)
  /\ ~ best_is_first_max 1%N [(0, 200)] st.
Proof.
  cbn zeta. split; [reflexivity|].
  intros (r & m & Hrow & Hmax & Hbest & Htime).
  vm_compute in Hrow. injection Hrow as <-.
  injection Hmax as <-. cbn in Htime. discriminate Htime.
Qed.

(** C1, amended. After a sequence of committed [submit_score] calls for one
    player: if the player had no best-score row, or the highest score
    submitted exceeds the [best_score] stored before (0 after signup), the row
    holds the highest score submitted and the time of the first submission
    that reached it; otherwise the row is the one stored before, with its
    [last_updated] untouched. *)
Theorem best_score_after_submissions :
  forall (pid : UUID) (subs : list submission) (st : State) (m : Z),
    is_Some (playerinfo (db st) !! pid) ->
    Forall (λ sub, fits_Integer (fst sub) = true) subs ->
    max_score subs = Some m ->
    match playerleaderboard (db st) !! pid with
    | None => best_is_first_max pid subs st
    | Some r0 =>
        if PlayerLeaderboard.best_score r0 <? m
        then best_is_first_max pid subs st
        else playerleaderboard (db (submit_all pid subs st)) !! pid = Some r0
    end.
Proof.
  intros pid subs st m Hp Hfit Hmax.
  pose proof (submit_all_row pid subs st Hp Hfit) as Hrow.
  unfold best_is_first_max. rewrite Hrow, Hmax. clear Hrow Hp Hfit.
  destruct (playerleaderboard (db st) !! pid) as [r0|].
  - destruct (foldl_raise_best r0 subs) as (r' & -> & Hbest & Ht).
    set (b := PlayerLeaderboard.best_score r0) in *.
    rewrite (max_score_max_from b subs m Hmax) in Hbest, Ht.
    destruct (Z.ltb_spec b m) as [Hlt|Hge].
    + destruct (Z.ltb_spec b (Z.max b m)); [|lia].
      replace (Z.max b m) with m in * by lia.
      exists r', m. done.
    + destruct (Z.ltb_spec b (Z.max b m)); [lia|]. by subst r'.
  - destruct subs as [|[s t] subs]; [done|]. injection Hmax as Hm.
    cbn [fst] in Hm. cbn [foldl raise_best fst snd].
    destruct (foldl_raise_best (PlayerLeaderboard.mk s t) subs)
      as (r' & -> & Hbest & Ht).
    cbn [PlayerLeaderboard.best_score] in Hbest, Ht. rewrite Hm in Hbest, Ht.
    exists r', m. repeat split; [done|].
    cbn [first_time_of fst snd].
    pose proof (max_from_ge s subs) as Hge. rewrite Hm in Hge.
    destruct (Z.ltb_spec s m); destruct (Z.eqb_spec s m); try lia; [done|].
    by subst r'.
Qed.

Lemma best_score_after_submissions_witness :
  let st := handle (Signup alice 1%N "h") 100 empty_state in
  best_is_first_max 1%N [(10, 200); (50, 300); (30, 400); (50, 500)] st.
Proof.
  cbn zeta.
  apply (best_score_after_submissions 1%N
           [(10, 200); (50, 300); (30, 400); (50, 500)]
           (handle (Signup alice 1%N "h") 100 empty_state) 50).
  - vm_compute. eexists. reflexivity.
  - repeat constructor.
  - reflexivity.
Defined.

(** * The rank index *)

Section FloatOrder.

(** [SFcompare] read in the other direction gives the opposite answer. *)
Lemma SFcompare_swap (x y : spec_float) :
  SFcompare y x = CompOpp <$> SFcompare x y.
Proof.
  destruct x as [sx|sx| |sx mx ex], y as [sy|sy| |sy my ey]; cbn;
    try done; try (by destruct sx); try (by destruct sy);
    try (by destruct sx, sy).
  f_equal. rewrite (Z.compare_antisym ey ex).
  change (Pos.compare_cont Eq my mx) with (Pos.compare my mx).
  change (Pos.compare_cont Eq mx my) with (Pos.compare mx my).
  rewrite (Pos.compare_antisym my mx).
  destruct sx, sy; try done;
    by destruct (ey ?= ex); cbn; try done; destruct (my ?= mx)%positive.
Qed.

Lemma ltb_not_gtb (x y : PyFloat.float) :
  PyFloat.ltb x y = true -> PyFloat.ltb y x = false.
Proof.
  unfold PyFloat.ltb, SFltb. rewrite (SFcompare_swap x y).
  by destruct (SFcompare x y) as [[]|].
Qed.

Lemma ltb_not_eqb (x y : PyFloat.float) :
  PyFloat.ltb x y = true -> PyFloat.eqb y x = false.
Proof.
  unfold PyFloat.ltb, PyFloat.eqb, SFltb, SFeqb. rewrite (SFcompare_swap x y).
  by destruct (SFcompare x y) as [[]|].
Qed.

Lemma ltb_not_eqb' (x y : PyFloat.float) :
  PyFloat.ltb x y = true -> PyFloat.eqb x y = false.
Proof.
  unfold PyFloat.ltb, PyFloat.eqb, SFltb, SFeqb.
  by destruct (SFcompare x y) as [[]|].
Qed.

Lemma eqb_not_ltb (x y : PyFloat.float) :
  PyFloat.eqb x y = true -> PyFloat.ltb x y = false.
Proof.
  unfold PyFloat.ltb, PyFloat.eqb, SFltb, SFeqb.
  by destruct (SFcompare x y) as [[]|].
Qed.

Lemma ltb_irrefl (x : PyFloat.float) : PyFloat.ltb x x = false.
Proof.
  destruct (PyFloat.ltb x x) eqn:E; [|done].
  by rewrite (ltb_not_gtb x x E) in E.
Qed.

End FloatOrder.

Section SortedSet.

Implicit Types (e x : zentry) (l : list zentry) (z : gmap UUID PyFloat.float).

Lemma zabove_asym e x : zabove e x = true -> zabove x e = false.
Proof.
  unfold zabove. destruct e as [p sp], x as [q sq]. cbn.
  intros [Hlt | [Heq Hn]%andb_true_iff]%orb_true_iff.
  - by rewrite (ltb_not_gtb _ _ Hlt), (ltb_not_eqb' _ _ Hlt).
  - rewrite (eqb_not_ltb _ _ Heq). cbn.
    apply andb_false_iff. right.
    apply N.ltb_lt in Hn. apply N.ltb_ge. lia.
Qed.

Lemma zabove_irrefl e : zabove e e = false.
Proof.
  destruct (zabove e e) eqn:E; [|done]. by rewrite (zabove_asym e e E) in E.
Qed.

Lemma zinsert_perm e l : zinsert e l ≡ₚ e :: l.
Proof.
  induction l as [|x l IH]; cbn; [done|].
  destruct (zabove e x); [done|]. rewrite IH. apply perm_swap.
Qed.

Lemma zrev_entries_perm z : zrev_entries z ≡ₚ map_to_list z.
Proof.
  unfold zrev_entries. induction (map_to_list z) as [|x l IH]; cbn; [done|].
  by rewrite zinsert_perm, IH.
Qed.

Lemma elem_of_zrev_entries z pid sc :
  (pid, sc) ∈ zrev_entries z <-> z !! pid = Some sc.
Proof. rewrite zrev_entries_perm. apply elem_of_map_to_list. Qed.

Lemma zrev_entries_NoDup z : NoDup (map fst (zrev_entries z)).
Proof.
  rewrite zrev_entries_perm. apply NoDup_fst_map_to_list.
Qed.

(** No entry is directly followed by one that ranks above it. *)
Lemma zinsert_sorted e l :
  Sorted (λ a b, zabove b a = false) l ->
  Sorted (λ a b, zabove b a = false) (zinsert e l).
Proof.
  induction 1 as [|x l Hs IH Hhd]; cbn; [by repeat constructor|].
  destruct (zabove e x) eqn:E.
  - constructor; [by constructor|]. constructor. by apply zabove_asym.
  - constructor; [done|].
    destruct l as [|y l]; cbn in *; [by repeat constructor|].
    destruct (zabove e y); constructor; [done|].
    by inversion Hhd.
Qed.

Lemma zrev_entries_sorted z :
  Sorted (λ a b, zabove b a = false) (zrev_entries z).
Proof.
  unfold zrev_entries. induction (map_to_list z) as [|x l IH]; cbn.
  - constructor.
  - by apply zinsert_sorted.
Qed.

(** An entry that is above every other one is read first. *)
Lemma zinsert_head e x l rest :
  zabove x e = false -> l = e :: rest ->
  exists rest', zinsert x l = e :: rest'.
Proof. intros Hx ->. cbn. rewrite Hx. by eexists. Qed.

Lemma foldr_zinsert_head e l :
  e ∈ l ->
  (forall x, x ∈ l -> x = e \/ zabove e x = true) ->
  exists rest, foldr zinsert [] l = e :: rest.
Proof.
  induction l as [|x l IH]; intros Hin Hdom; [by apply elem_of_nil in Hin|].
  cbn [foldr].
  assert (forall y, y ∈ foldr zinsert [] l -> y ∈ l) as Hsub.
  { intros y Hy. clear -Hy. induction l as [|a l IHl]; cbn in Hy; [done|].
    rewrite zinsert_perm in Hy. apply elem_of_cons in Hy as [->|Hy].
    - apply elem_of_cons. by left.
    - apply elem_of_cons. right. by apply IHl. }
  apply elem_of_cons in Hin as [->|Hel].
  - destruct (foldr zinsert [] l) as [|h t] eqn:Hf; cbn; [by eexists|].
    destruct (Hdom h) as [->|Hh].
    { apply elem_of_cons. right. apply Hsub. apply elem_of_cons. by left. }
    + rewrite zabove_irrefl. by eexists.
    + rewrite Hh. by eexists.
  - destruct IH as [rest Hrest]; [done| |].
    { intros y Hy. apply Hdom. apply elem_of_cons. by right. }
    apply zinsert_head with (rest := rest); [|done].
    destruct (Hdom x) as [->|Hx]; [apply elem_of_cons; by left| |].
    + apply zabove_irrefl.
    + by apply zabove_asym.
Qed.

Lemma index_of_None pid l : index_of pid l = None <-> pid ∉ map fst l.
Proof.
  induction l as [|[m s] l IH]; cbn.
  - split; [intros _; apply not_elem_of_nil | done].
  - rewrite not_elem_of_cons. destruct (N.eqb_spec m pid) as [->|Hne].
    + split; [done | by intros [? _]].
    + destruct (index_of pid l); cbn.
      * split; [done|]. intros [_ H]. by apply IH in H.
      * split; [|done]. intros _. split; [done | by apply IH].
Qed.

Lemma index_of_Some pid l i :
  NoDup (map fst l) ->
  index_of pid l = Some i
  <-> 0 <= i /\ exists sc, l !! Z.to_nat i = Some (pid, sc).
Proof.
  revert i. induction l as [|[m s] l IH]; intros i Hnd; cbn.
  - split; [done | by intros [_ [? ?]]].
  - cbn in Hnd. apply NoDup_cons in Hnd as [Hm Hnd].
    destruct (N.eqb_spec m pid) as [->|Hne].
    + split.
      * intros [= <-]. split; [done|]. by exists s.
      * intros [Hi [sc Hsc]]. destruct (Z.to_nat i) as [|k] eqn:Ek.
        -- f_equal. lia.
        -- cbn in Hsc. exfalso. apply Hm.
           apply list_elem_of_lookup_2 in Hsc.
           apply (list_elem_of_fmap_2 fst) in Hsc. done.
    + split.
      * destruct (index_of pid l) as [j|] eqn:Ej; cbn; [|done].
        intros [= <-]. destruct (proj1 (IH j Hnd) eq_refl) as [Hj [sc Hsc]].
        split; [lia|]. exists sc.
        replace (Z.to_nat (j + 1)) with (S (Z.to_nat j)) by lia. done.
      * intros [Hi [sc Hsc]]. destruct (Z.to_nat i) as [|k] eqn:Ek.
        -- cbn in Hsc. congruence.
        -- cbn in Hsc.
           assert (index_of pid l = Some (Z.of_nat k)) as ->.
           { apply IH; [done|]. split; [lia|]. exists sc.
             by rewrite Nat2Z.id. }
           cbn. f_equal. lia.
Qed.

End SortedSet.

Section TopItems.

Implicit Types (info_map : gmap UUID (PlayerInfo.t * PlayerLeaderboard.t)).
Implicit Types (entries : list zentry) (item : PlayerLeaderboardEntry).

(** The items the loop of [get_top_leaderboard] builds: one for each entry
    read from Redis that [info_map] knows, ranked by the position of the
    entry. *)
Lemma elem_of_top_items info_map idx entries item :
  item ∈ top_items info_map idx entries
  <-> exists i pid sc player leaderboard,
        entries !! i = Some (pid, sc)
        /\ info_map !! pid = Some (player, leaderboard)
        /\ item = mkPlayerLeaderboardEntry (idx + Z.of_nat i + 1) pid
                    (PlayerInfo.name player)
                    (PlayerLeaderboard.best_score leaderboard)
                    (PlayerLeaderboard.last_updated leaderboard).
Proof.
  revert idx. induction entries as [|[q sq] entries IH]; intros idx; cbn.
  - split; [by intros ?%elem_of_nil | by intros (i & ? & ? & ? & ? & ? & _)].
  - split.
    + intros Hin.
      assert (item ∈ top_items info_map (idx + 1) entries ->
              exists i pid sc player leaderboard,
                ((q, sq) :: entries) !! i = Some (pid, sc)
                /\ info_map !! pid = Some (player, leaderboard)
                /\ item = mkPlayerLeaderboardEntry (idx + Z.of_nat i + 1) pid
                            (PlayerInfo.name player)
                            (PlayerLeaderboard.best_score leaderboard)
                            (PlayerLeaderboard.last_updated leaderboard))
        as Htail.
      { intros (i & pid & sc & p & l & Hi & Hinfo & ->)%IH.
        exists (S i), pid, sc, p, l. repeat split; [done..|].
        f_equal. lia. }
      destruct (info_map !! q) as [[p l]|] eqn:Hq; [|by apply Htail].
      apply elem_of_cons in Hin as [->|Hin]; [|by apply Htail].
      exists 0%nat, q, sq, p, l. repeat split; [done|]. f_equal. lia.
    + intros (i & pid & sc & p & l & Hi & Hinfo & ->).
      destruct i as [|i]; cbn in Hi.
      * injection Hi as -> ->. rewrite Hinfo. apply elem_of_cons. left.
        f_equal. lia.
      * assert (mkPlayerLeaderboardEntry (idx + Z.of_nat (S i) + 1) pid
                  (PlayerInfo.name p) (PlayerLeaderboard.best_score l)
                  (PlayerLeaderboard.last_updated l)
                ∈ top_items info_map (idx + 1) entries) as Hin.
        { apply IH. exists i, pid, sc, p, l. repeat split; [done..|].
          f_equal. lia. }
        destruct (info_map !! q) as [[p' l']|]; [|done].
        apply elem_of_cons. by right.
Qed.

Lemma top_items_ranks_above info_map idx entries :
  Forall (λ item, idx < entry_rank item) (top_items info_map idx entries).
Proof.
  revert idx. induction entries as [|[q sq] entries IH]; intros idx; cbn.
  - constructor.
  - assert (Forall (λ item, idx < entry_rank item)
                   (top_items info_map (idx + 1) entries)) as Htail.
    { eapply Forall_impl; [apply IH|]. cbn. intros. lia. }
    destruct (info_map !! q) as [[p l]|]; [|done].
    constructor; [cbn; lia | done].
Qed.

(** Ranks grow strictly along the items. *)
Lemma top_items_ranks_sorted info_map idx entries :
  StronglySorted (λ a b, entry_rank a < entry_rank b)
                 (top_items info_map idx entries).
Proof.
  revert idx. induction entries as [|[q sq] entries IH]; intros idx; cbn.
  - constructor.
  - destruct (info_map !! q) as [[p l]|]; [|apply IH].
    constructor; [apply IH|]. apply top_items_ranks_above.
Qed.

Lemma info_map_lookup (l : Ledger) (player_ids : list UUID) pid player
  leaderboard :
  filter (λ kv, fst kv ∈ player_ids) (player_join l) !! pid
  = Some (player, leaderboard)
  <-> pid ∈ player_ids
      /\ playerinfo l !! pid = Some player
      /\ playerleaderboard l !! pid = Some leaderboard.
Proof.
  rewrite map_lookup_filter_Some. unfold player_join.
  rewrite map_lookup_zip_Some. cbn. tauto.
Qed.

End TopItems.

(** C4 as stated fails: with an index entry that has no ledger row ranked
    first, the only item returned carries rank 2, not 1. *)
Lemma get_top_keeps_index_positions :
  fst (get_top_leaderboard 10 drift_state)
  = OK (mkLeaderboardResponse 1
          [mkPlayerLeaderboardEntry 2 1%N "Alice" 50 1790000000000000])
  /\ ~ contiguous_ranks
         [mkPlayerLeaderboardEntry 2 1%N "Alice" 50 1790000000000000].
Proof.
  split; [by vm_compute|]. unfold contiguous_ranks. cbn. discriminate.
Qed.

(** C4, amended. [get_top_leaderboard] returns one item for each entry read
    from the rank index whose player has both ledger rows, and none for the
    others; the rank of an item is the 1-based position of its entry among
    the entries read (an entry without ledger rows is skipped but still
    counts for the positions after it), so ranks grow strictly but may leave
    gaps; [total] is the number of items returned. *)
Theorem get_top_ranks_are_index_positions :
  forall (n : Z) (st : State),
    let entries := get_top_n_from_redis n (redis st) in
    exists items,
      get_top_leaderboard n st
      = (OK (mkLeaderboardResponse (Z.of_nat (length items)) items), st)
      /\ (forall item,
            item ∈ items
            <-> exists i pid sc player leaderboard,
                  entries !! i = Some (pid, sc)
                  /\ playerinfo (db st) !! pid = Some player
                  /\ playerleaderboard (db st) !! pid = Some leaderboard
                  /\ item = mkPlayerLeaderboardEntry (Z.of_nat i + 1) pid
                              (PlayerInfo.name player)
                              (PlayerLeaderboard.best_score leaderboard)
                              (PlayerLeaderboard.last_updated leaderboard))
      /\ StronglySorted (λ a b, entry_rank a < entry_rank b) items.
Proof.
  intros n st entries. unfold get_top_leaderboard. fold entries.
  destruct (map fst entries) as [|q ids] eqn:Hids.
  - exists []. destruct entries; [|done]. split; [done|]. split; [|constructor].
    intros item. split; [by intros ?%elem_of_nil|].
    by intros (i & ? & ? & ? & ? & ? & _).
  - rewrite <- Hids. eexists. split; [reflexivity|]. split.
    + intros item. rewrite elem_of_top_items. split.
      * intros (i & pid & sc & p & l & Hi & Hinfo & ->).
        apply info_map_lookup in Hinfo as (_ & Hp & Hl).
        exists i, pid, sc, p, l. done.
      * intros (i & pid & sc & p & l & Hi & Hp & Hl & ->).
        exists i, pid, sc, p, l. split; [done|]. split; [|done].
        apply info_map_lookup. split; [|done].
        apply list_elem_of_lookup_2 in Hi.
        by apply (list_elem_of_fmap_2 fst) in Hi.
    + apply top_items_ranks_sorted.
Qed.

(** * Binary64 arithmetic on integers below [2^53] *)

Section Digits.

Lemma digits2_pos_bounds (p : positive) :
  2 ^ (Zpos (digits2_pos p) - 1) <= Zpos p < 2 ^ Zpos (digits2_pos p).
Proof.
  induction p as [p IH|p IH|]; cbn [digits2_pos]; [| |done];
    set (d := Zpos (digits2_pos p)) in *;
    assert (1 <= d) by (subst d; lia);
    rewrite Pos2Z.inj_succ; fold d;
    replace (Z.succ d - 1) with (Z.succ (d - 1)) by lia;
    rewrite !Z.pow_succ_r by lia; lia.
Qed.

Lemma digits2_pos_log2 (p : positive) :
  Zpos (digits2_pos p) = Z.log2 (Zpos p) + 1.
Proof.
  pose proof (digits2_pos_bounds p) as [Hlo Hhi].
  set (d := Zpos (digits2_pos p)) in *.
  assert (1 <= d) by (subst d; lia).
  rewrite (Z.log2_unique (Zpos p) (d - 1)); [lia|lia|].
  split; [done|]. by replace (Z.succ (d - 1)) with d by lia.
Qed.

(** The iterator of [SpecFloat] counts as [Nat.iter] does. *)
Lemma iter_pos_nat {A} (f : A -> A) (p : positive) (x : A) :
  SpecFloat.iter_pos f p x = Nat.iter (Pos.to_nat p) f x.
Proof.
  revert x.
  induction p as [p IH|p IH|]; intros x; cbn [SpecFloat.iter_pos]; [| |done].
  - rewrite !IH, Pos2Nat.inj_xI.
    replace (S (2 * Pos.to_nat p))
      with (Pos.to_nat p + (Pos.to_nat p + 1))%nat by lia.
    by rewrite !Nat.iter_add.
  - rewrite !IH, Pos2Nat.inj_xO.
    replace (2 * Pos.to_nat p)%nat
      with (Pos.to_nat p + Pos.to_nat p)%nat by lia.
    by rewrite Nat.iter_add.
Qed.

Lemma shr_1_even (q : Z) :
  0 < q ->
  shr_1 (Build_shr_record (2 * q) false false) = Build_shr_record q false false.
Proof. by destruct q. Qed.

Lemma shr_iter_exact (k : nat) (q : Z) :
  0 < q ->
  Nat.iter k shr_1 (Build_shr_record (q * 2 ^ Z.of_nat k) false false)
  = Build_shr_record q false false.
Proof.
  intros Hq. induction k as [|k IH]; [by rewrite Z.mul_1_r|].
  rewrite Nat.iter_succ_r, Nat2Z.inj_succ, Z.pow_succ_r by lia.
  replace (q * (2 * 2 ^ Z.of_nat k)) with (2 * (q * 2 ^ Z.of_nat k)) by lia.
  rewrite shr_1_even; [done|].
  assert (0 < 2 ^ Z.of_nat k) by (apply Z.pow_pos_nonneg; lia). lia.
Qed.

(** Shifting right by [n] bits a mantissa that ends in [n] zero bits. *)
Lemma shr_exact (q e n : Z) :
  0 < q -> 0 <= n ->
  shr (Build_shr_record (q * 2 ^ n) false false) e n
  = (Build_shr_record q false false, e + n).
Proof.
  intros Hq Hn. unfold shr. destruct n as [|p|p]; [|..|lia].
  - by rewrite Z.mul_1_r, Z.add_0_r.
  - rewrite iter_pos_nat. f_equal.
    rewrite <- (positive_nat_Z p) at 1. by apply shr_iter_exact.
Qed.

End Digits.

Section Canon.

Lemma expo_range n : 0 < Z.abs n < 2 ^ 53 -> -52 <= expo n <= 0.
Proof.
  intros [Hlo Hhi]. unfold expo.
  pose proof (Z.log2_nonneg (Z.abs n)).
  assert (Z.log2 (Z.abs n) < 53) by (apply Z.log2_lt_pow2; lia). lia.
Qed.

Lemma mant_range n : 0 < Z.abs n < 2 ^ 53 -> 2 ^ 52 <= mant n < 2 ^ 53.
Proof.
  intros Hn. pose proof (expo_range n Hn) as He. unfold mant.
  destruct (Z.log2_spec (Z.abs n)) as [Hlo Hhi]; [lia|].
  unfold expo in *. set (l := Z.log2 (Z.abs n)) in *.
  replace (- (l - 52)) with (52 - l) by lia.
  assert (2 ^ 52 = 2 ^ l * 2 ^ (52 - l)) as E52.
  { rewrite <- Z.pow_add_r by lia. f_equal. lia. }
  assert (2 ^ 53 = 2 ^ Z.succ l * 2 ^ (52 - l)) as E53.
  { rewrite <- Z.pow_add_r by lia. f_equal. lia. }
  assert (0 < 2 ^ (52 - l)) by (apply Z.pow_pos_nonneg; lia).
  rewrite E52, E53. split; nia.
Qed.

Lemma digits_of_range (p : positive) (d : Z) :
  2 ^ (d - 1) <= Zpos p < 2 ^ d -> Zpos (digits2_pos p) = d.
Proof.
  intros [Hlo Hhi]. rewrite digits2_pos_log2.
  assert (0 <= d - 1).
  { destruct (Z.le_gt_cases 0 (d - 1)); [done|].
    destruct (Z.le_gt_cases 0 d).
    - assert (d = 0) as -> by lia. cbn in Hhi. lia.
    - rewrite Z.pow_neg_r in Hhi by lia. lia. }
  rewrite (Z.log2_unique (Zpos p) (d - 1)); [lia|lia|].
  split; [done|]. by replace (Z.succ (d - 1)) with d by lia.
Qed.

(** Rounding a mantissa that holds the integer [N] with trailing zero bits
    gives the canonical form of [N]. *)
Lemma round_aux_exact (s : bool) (m : positive) (e N : Z) :
  0 < N < 2 ^ 53 -> e <= expo N ->
  Zpos m = N * 2 ^ (- e) ->
  binary_round_aux 53 1024 s (Zpos m) e loc_Exact
  = S754_finite s (Z.to_pos (mant N)) (expo N).
Proof.
  intros HN He Hm.
  assert (0 < Z.abs N < 2 ^ 53) as HN' by lia.
  pose proof (expo_range N HN') as Hc. pose proof (mant_range N HN') as Hmr.
  set (c := expo N) in *. set (M := mant N) in *.
  assert (Zpos m = M * 2 ^ (c - e)) as HmM.
  { rewrite Hm. subst M. unfold mant. rewrite Z.abs_eq by lia. fold c.
    rewrite <- Z.mul_assoc, <- Z.pow_add_r by lia. do 2 f_equal. lia. }
  assert (Zpos (digits2_pos m) = 53 + (c - e)) as Hd.
  { apply digits_of_range. rewrite HmM.
    replace (53 + (c - e) - 1) with (52 + (c - e)) by lia.
    rewrite !Z.pow_add_r by lia.
    assert (0 < 2 ^ (c - e)) by (apply Z.pow_pos_nonneg; lia). nia. }
  unfold binary_round_aux, shr_fexp. cbn [Zdigits2 shr_record_of_loc].
  rewrite Hd. unfold fexp, emin.
  replace (Z.max (53 + (c - e) + e - 53) (3 - 1024 - 53) - e)
    with (c - e) by lia.
  rewrite HmM, shr_exact by lia.
  cbn [shr_m loc_of_shr_record round_nearest_even].
  replace (e + (c - e)) with c by lia.
  assert (exists mp, M = Zpos mp) as [mp HM]
    by (destruct M; [lia|by eexists|lia]).
  rewrite HM. cbn [Zdigits2].
  assert (Zpos (digits2_pos mp) = 53) as ->.
  { apply digits_of_range. rewrite <- HM. done. }
  replace (Z.max (53 + c - 53) (3 - 1024 - 53) - c) with 0 by lia.
  cbn [shr shr_m].
  assert ((c <=? 1024 - 53) = true) as -> by (apply Z.leb_le; lia).
  done.
Qed.

Lemma iter_xO (m d : positive) :
  Zpos (Pos.iter xO m d) = Zpos m * 2 ^ Zpos d.
Proof.
  induction d as [|d IH] using Pos.peano_ind.
  - cbn. lia.
  - rewrite Pos.iter_succ, Pos2Z.inj_succ, Z.pow_succ_r, Pos2Z.inj_xO by lia.
    rewrite IH. lia.
Qed.

Lemma shl_align_spec (m : positive) (e e' : Z) :
  e' <= e ->
  Zpos (fst (shl_align m e e')) = Zpos m * 2 ^ (e - e')
  /\ snd (shl_align m e e') = e'.
Proof.
  intros Hle. unfold shl_align. destruct (e' - e) as [|d|d] eqn:Hd; [|lia|].
  - cbn. replace (e - e') with 0 by lia. split; lia.
  - cbn. rewrite iter_xO. replace (e - e') with (Zpos d) by lia. done.
Qed.

Lemma shl_align_id (m : positive) (e e' : Z) :
  e <= e' -> shl_align m e e' = (m, e).
Proof.
  intros Hle. unfold shl_align. by destruct (e' - e) as [|d|d] eqn:Hd; [..|lia].
Qed.

Lemma round_exact (s : bool) (m : positive) (e N : Z) :
  0 < N < 2 ^ 53 -> e <= 0 ->
  Zpos m = N * 2 ^ (- e) ->
  binary_round 53 1024 s m e = S754_finite s (Z.to_pos (mant N)) (expo N).
Proof.
  intros HN He Hm.
  assert (0 < Z.abs N < 2 ^ 53) as HN' by lia.
  pose proof (expo_range N HN') as Hc.
  assert (Zpos (digits2_pos m) = Z.log2 N + 1 - e) as Hd.
  { apply digits_of_range. rewrite Hm.
    destruct (Z.log2_spec N) as [Hlo Hhi]; [lia|].
    replace (Z.log2 N + 1 - e - 1) with (Z.log2 N + - e) by lia.
    replace (Z.log2 N + 1 - e) with (Z.succ (Z.log2 N) + - e) by lia.
    pose proof (Z.log2_nonneg N).
    rewrite !Z.pow_add_r by lia.
    assert (0 < 2 ^ (- e)) by (apply Z.pow_pos_nonneg; lia). nia. }
  unfold binary_round. rewrite Hd. unfold fexp, emin.
  assert (Z.max (Z.log2 N + 1 - e + e - 53) (3 - 1024 - 53) = expo N) as ->.
  { unfold expo in *. rewrite Z.abs_eq in * by lia. lia. }
  destruct (Z.le_gt_cases e (expo N)) as [Hle|Hgt].
  - rewrite shl_align_id by done. by apply round_aux_exact.
  - destruct (shl_align_spec m e (expo N)) as [Hf Hs]; [lia|].
    destruct (shl_align m e (expo N)) as [mz ez]. cbn in Hf, Hs. subst ez.
    apply round_aux_exact; [done|lia|].
    rewrite Hf, Hm, <- Z.mul_assoc, <- Z.pow_add_r by lia. do 2 f_equal. lia.
Qed.

Lemma expo_opp n : expo (- n) = expo n.
Proof. unfold expo. by rewrite Z.abs_opp. Qed.

Lemma mant_opp n : mant (- n) = mant n.
Proof. unfold mant. by rewrite Z.abs_opp, expo_opp. Qed.

(** [binary_normalize] of an integer [N] written as [M * 2^e]. *)
Lemma normalize_exact (M e N : Z) :
  Z.abs N < 2 ^ 53 -> e <= 0 -> M = N * 2 ^ (- e) ->
  binary_normalize 53 1024 M e false = canon N.
Proof.
  intros HN He HM. unfold canon.
  assert (0 < 2 ^ (- e)) by (apply Z.pow_pos_nonneg; lia).
  destruct (Z.eqb_spec N 0) as [->|Hne]; [by subst M|].
  destruct M as [|m|m]; cbn [binary_normalize]; [nia|..].
  - assert (0 < N) by nia. destruct (Z.ltb_spec N 0); [lia|].
    apply round_exact; [lia|done..].
  - assert (N < 0) by nia. destruct (Z.ltb_spec N 0); [|lia].
    rewrite <- (mant_opp N), <- (expo_opp N).
    apply round_exact; [lia|done|]. lia.
Qed.

Lemma of_Z_canon (n : Z) :
  Z.abs n < 2 ^ 53 -> binary_normalize 53 1024 n 0 false = canon n.
Proof. intros Hn. apply normalize_exact; [done..|]. cbn. lia. Qed.

Lemma canon_pos (n : Z) :
  0 < n -> canon n = S754_finite false (Z.to_pos (mant n)) (expo n).
Proof.
  intros Hn. unfold canon.
  destruct (Z.eqb_spec n 0); [lia|]. by destruct (Z.ltb_spec n 0); [lia|].
Qed.

Lemma canon_neg (n : Z) :
  n < 0 -> canon n = S754_finite true (Z.to_pos (mant n)) (expo n).
Proof.
  intros Hn. unfold canon.
  destruct (Z.eqb_spec n 0); [lia|]. by destruct (Z.ltb_spec n 0); [|lia].
Qed.

Lemma mant_pos (n : Z) :
  0 < Z.abs n < 2 ^ 53 -> Zpos (Z.to_pos (mant n)) = mant n.
Proof. intros Hn. pose proof (mant_range n Hn). rewrite Z2Pos.id; lia. Qed.

Lemma mul_canon (a b : Z) :
  0 <= a -> 0 < b -> a * b < 2 ^ 53 ->
  SFmul 53 1024 (canon a) (canon b) = canon (a * b).
Proof.
  intros Ha Hb Hab. rewrite (canon_pos b) by done.
  destruct (Z.eq_dec a 0) as [->|Hne]; [done|].
  assert (0 < a * b) by nia.
  assert (a < 2 ^ 53 /\ b < 2 ^ 53) as [Ha' Hb'] by nia.
  rewrite !canon_pos by lia. cbn [SFmul xorb].
  pose proof (expo_range a ltac:(lia)). pose proof (expo_range b ltac:(lia)).
  apply round_aux_exact; [lia| |].
  - unfold expo. rewrite !Z.abs_eq by lia.
    pose proof (Z.log2_mul_below a b ltac:(lia) ltac:(lia)). lia.
  - rewrite Pos2Z.inj_mul, !mant_pos by lia. unfold mant.
    rewrite !Z.abs_eq by lia.
    replace (- (expo a + expo b)) with (- expo a + - expo b) by lia.
    rewrite Z.pow_add_r by lia. lia.
Qed.

Lemma sub_canon (a b : Z) :
  0 <= a < 2 ^ 53 -> 0 <= b < 2 ^ 53 ->
  SFsub 53 1024 (canon a) (canon b) = canon (a - b).
Proof.
  intros Ha Hb.
  destruct (Z.eq_dec a 0) as [->|Hane]; destruct (Z.eq_dec b 0) as [->|Hbne].
  - done.
  - rewrite (canon_pos b), (canon_neg (0 - b)) by lia. cbn.
    replace (0 - b) with (- b) by lia. by rewrite mant_opp, expo_opp.
  - rewrite Z.sub_0_r, (canon_pos a) by lia. done.
  - rewrite (canon_pos a), (canon_pos b) by lia. cbn [SFsub cond_Zopp].
    pose proof (expo_range a ltac:(lia)). pose proof (expo_range b ltac:(lia)).
    set (ez := Z.min (expo a) (expo b)).
    destruct (shl_align_spec (Z.to_pos (mant a)) (expo a) ez) as [-> _]; [lia|].
    destruct (shl_align_spec (Z.to_pos (mant b)) (expo b) ez) as [-> _]; [lia|].
    apply normalize_exact; [lia|lia|].
    rewrite !mant_pos by lia. unfold mant. rewrite !Z.abs_eq by lia.
    rewrite <- !Z.mul_assoc, <- !Z.pow_add_r by lia.
    replace (- expo a + (expo a - ez)) with (- ez) by lia.
    replace (- expo b + (expo b - ez)) with (- ez) by lia. lia.
Qed.

Lemma compare_canon_pos (a b : Z) :
  0 < a < 2 ^ 53 -> 0 < b < 2 ^ 53 ->
  match expo a ?= expo b with
  | Lt => Lt
  | Gt => Gt
  | Eq => Pos.compare_cont Eq (Z.to_pos (mant a)) (Z.to_pos (mant b))
  end = (a ?= b).
Proof.
  intros Ha Hb. unfold expo. rewrite !Z.abs_eq by lia.
  destruct (Z.compare_spec (Z.log2 a - 52) (Z.log2 b - 52)) as [He|He|He].
  - change (Pos.compare_cont Eq ?x ?y) with (Z.compare (Zpos x) (Zpos y)).
    rewrite !mant_pos by lia. unfold mant, expo. rewrite !Z.abs_eq by lia.
    replace (Z.log2 b) with (Z.log2 a) by lia.
    pose proof (Z.log2_nonneg a).
    assert (Z.log2 a < 53) by (apply Z.log2_lt_pow2; lia).
    symmetry. apply Zmult_compare_compat_r.
    assert (0 < 2 ^ (- (Z.log2 a - 52))) by (apply Z.pow_pos_nonneg; lia). lia.
  - symmetry. apply Z.compare_lt_iff. apply Z.log2_lt_cancel. lia.
  - symmetry. apply Z.compare_gt_iff. apply Z.log2_lt_cancel. lia.
Qed.

Lemma compare_canon (a b : Z) :
  Z.abs a < 2 ^ 53 -> Z.abs b < 2 ^ 53 ->
  SFcompare (canon a) (canon b) = Some (a ?= b).
Proof.
  intros Ha Hb.
  destruct (Z.lt_trichotomy a 0) as [Ha0|[->|Ha0]];
    destruct (Z.lt_trichotomy b 0) as [Hb0|[->|Hb0]];
    rewrite ?(canon_pos a), ?(canon_pos b), ?(canon_neg a), ?(canon_neg b)
      by lia; cbn [SFcompare canon Z.eqb]; f_equal;
    try (symmetry; first [by apply Z.compare_lt_iff; lia
                         | by apply Z.compare_gt_iff; lia
                         | by apply Z.compare_eq_iff; lia]).
  - rewrite <- (mant_opp a), <- (expo_opp a), <- (mant_opp b), <- (expo_opp b).
    pose proof (compare_canon_pos (- a) (- b) ltac:(lia) ltac:(lia)) as Hc.
    rewrite <- (Z.compare_opp b a), (Z.compare_antisym (- a) (- b)), <- Hc.
    by destruct (expo (- a) ?= expo (- b)).
  - by apply compare_canon_pos; lia.
Qed.

End Canon.

(** * Binary64 rounding of larger values *)

Section Rounding.

(** One step of [shr] on a non-negative mantissa. *)
Lemma shr_1_spec (m : Z) (r s : bool) :
  0 <= m ->
  shr_1 (Build_shr_record m r s)
  = Build_shr_record (Z.div2 m) (Z.odd m) (r || s).
Proof.
  intros Hm. destruct m as [|p|p]; [done| |lia]. by destruct p.
Qed.

Lemma shr_inv_step M k mrs :
  shr_inv M k mrs -> shr_inv M (S k) (shr_1 mrs).
Proof.
  destruct mrs as [m r s]. intros (rho & HM & Hrho & Hm & Hr & Hs).
  cbn [shr_m shr_r shr_s] in *. rewrite shr_1_spec by done.
  exists (Z.b2z (Z.odd m) * 2 ^ Z.of_nat k + rho).
  cbn [shr_m shr_r shr_s]. rewrite Nat2Z.inj_succ, Z.pow_succ_r by lia.
  assert (0 < 2 ^ Z.of_nat k) as Hpos by (apply Z.pow_pos_nonneg; lia).
  pose proof (Z.div2_odd m) as Hdiv.
  pose proof (proj2 (Z.div2_nonneg m) Hm) as Hq.
  set (q := Z.div2 m) in *. set (P := 2 ^ Z.of_nat k) in *.
  subst r s.
  destruct (Z.odd m); cbn [Z.b2z] in *;
    (split; [rewrite HM, Hdiv; ring|]); clear HM Hdiv;
    (split; [lia|]); (split; [done|]);
    destruct (Z.leb_spec P (2 * rho)), (Z.eqb_spec rho 0),
      (Z.eqb_spec (2 * rho) P); split; cbn;
    repeat match goal with
           | |- context [Z.leb ?a ?b] => destruct (Z.leb_spec a b)
           | |- context [Z.eqb ?a ?b] => destruct (Z.eqb_spec a b)
           end; cbn; try done; lia.
Qed.

Lemma shr_inv_iter M k :
  0 <= M -> shr_inv M k (Nat.iter k shr_1 (Build_shr_record M false false)).
Proof.
  intros HM. induction k as [|k IH].
  - exists 0. cbn. repeat split; lia.
  - rewrite Nat.iter_succ. by apply shr_inv_step.
Qed.

Lemma shr_inv_shr M e n :
  0 <= M -> 0 <= n ->
  exists mrs, shr (Build_shr_record M false false) e n = (mrs, e + n)
              /\ shr_inv M (Z.to_nat n) mrs.
Proof.
  intros HM Hn. unfold shr. destruct n as [|p|p]; [| |lia].
  - eexists. split; [by rewrite Z.add_0_r|]. apply (shr_inv_iter M 0 HM).
  - eexists. split; [done|]. rewrite iter_pos_nat.
    rewrite Z2Nat.inj_pos. by apply shr_inv_iter.
Qed.

(** Round-half-even of a shifted mantissa stays within half a unit. *)
Lemma round_nearest_even_inv M k mrs :
  shr_inv M k mrs ->
  let q' := round_nearest_even (shr_m mrs) (loc_of_shr_record mrs) in
  shr_m mrs <= q' <= shr_m mrs + 1
  /\ 2 * Z.abs (q' * 2 ^ Z.of_nat k - M) <= 2 ^ Z.of_nat k.
Proof.
  destruct mrs as [q r s]. intros (rho & HM & Hrho & Hq & Hr & Hs).
  cbn [shr_m shr_r shr_s] in *. set (P := 2 ^ Z.of_nat k) in *.
  destruct (Z.leb_spec P (2 * rho)), (Z.eqb_spec rho 0),
    (Z.eqb_spec (2 * rho) P); cbn in Hr, Hs; subst r s;
    cbn [loc_of_shr_record round_nearest_even]; try lia.
  destruct (Z.even q); lia.
Qed.

Lemma pow2_pos (n : Z) : 0 <= n -> 0 < 2 ^ n.
Proof. intros. by apply Z.pow_pos_nonneg. Qed.

Lemma pow2_split (a b : Z) : 0 <= a -> 0 <= b -> 2 ^ (a + b) = 2 ^ a * 2 ^ b.
Proof. intros. by apply Z.pow_add_r. Qed.

(** [binary_round_aux] on a mantissa of at least 53 bits: a normal number
    within half a unit in the last place. *)
Lemma round_aux_spec (s : bool) (m : positive) (e : Z) :
  let d := Zpos (digits2_pos m) in
  53 <= d -> -1074 <= e -> d + e <= 1000 ->
  exists m' e',
    binary_round_aux 53 1024 s (Zpos m) e loc_Exact = S754_finite s m' e'
    /\ Zpos (digits2_pos m') = 53 /\ e <= e'
    /\ 2 * Z.abs (Zpos m' * 2 ^ (e' - e) - Zpos m) <= 2 ^ (d - 53).
Proof.
  intros d Hd He Hde.
  pose proof (digits2_pos_bounds m) as Hm. fold d in Hm.
  unfold binary_round_aux, shr_fexp. cbn [Zdigits2 shr_record_of_loc].
  fold d. unfold fexp, emin.
  replace (Z.max (d + e - 53) (3 - 1024 - 53) - e) with (d - 53) by lia.
  destruct (shr_inv_shr (Zpos m) e (d - 53)) as (mrs & -> & Hinv); [lia..|].
  pose proof (round_nearest_even_inv _ _ _ Hinv) as [Hq' Herr].
  rewrite Z2Nat.id in Herr by lia.
  destruct Hinv as (rho & HM & Hrho & Hq & _).
  rewrite Z2Nat.id in HM, Hrho by lia.
  set (q := shr_m mrs) in *.
  set (q' := round_nearest_even q (loc_of_shr_record mrs)) in *.
  set (k := d - 53) in *.
  assert (0 < 2 ^ k) as Hk by (apply pow2_pos; lia).
  assert (2 ^ 52 <= q < 2 ^ 53) as Hqr.
  { replace (d - 1) with (52 + k) in Hm by lia.
    replace d with (53 + k) in Hm by lia.
    rewrite !pow2_split in Hm by lia. nia. }
  destruct (Z.eq_dec q' (2 ^ 53)) as [E|Hne].
  - rewrite E. change (Zdigits2 (2 ^ 53)) with 54.
    exists (Z.to_pos (2 ^ 52)), (e + k + 1).
    split; [|split; [done|split; [lia|]]].
    + replace (Z.max (54 + (e + k) - 53) (3 - 1024 - 53) - (e + k))
        with 1 by lia.
      change (shr (Build_shr_record (2 ^ 53) false false) (e + k) 1)
        with (Build_shr_record (2 ^ 52) false false, e + k + 1).
      cbn [shr_m]. change (2 ^ 52) with (Zpos (Z.to_pos (2 ^ 52))) at 1.
      cbn match.
      assert ((e + k + 1 <=? 1024 - 53) = true) as -> by (apply Z.leb_le; lia).
      done.
    + replace (e + k + 1 - e) with (k + 1) by lia.
      rewrite pow2_split by lia. rewrite E in Herr.
      change (Zpos (Z.to_pos (2 ^ 52))) with (2 ^ 52).
      change (2 ^ 53) with (2 ^ 52 * 2 ^ 1) in Herr.
      replace (2 ^ 52 * (2 ^ k * 2 ^ 1)) with (2 ^ 52 * 2 ^ 1 * 2 ^ k) by ring.
      done.
  - assert (exists mp, q' = Zpos mp) as [mp Hmp].
    { destruct q' as [|mp|mp]; [lia|by eexists|lia]. }
    rewrite Hmp. cbn [Zdigits2].
    assert (Zpos (digits2_pos mp) = 53) as Hd'.
    { apply digits_of_range. rewrite <- Hmp.
      change (2 ^ (53 - 1)) with (2 ^ 52). lia. }
    rewrite Hd'.
    replace (Z.max (53 + (e + k) - 53) (3 - 1024 - 53) - (e + k)) with 0 by lia.
    cbn [shr shr_m].
    assert ((e + k <=? 1024 - 53) = true) as -> by (apply Z.leb_le; lia).
    exists mp, (e + k). split; [done|]. split; [done|]. split; [lia|].
    replace (e + k - e) with k by lia. by rewrite <- Hmp.
Qed.

(** [binary_round]: a normal number within half a unit in the last place of
    [m * 2^e]; values are counted in units of [2^-1074]. *)
Lemma round_spec (s : bool) (m : positive) (e : Z) :
  let d := Zpos (digits2_pos m) in
  -1000 <= e -> d + e <= 1000 ->
  exists m' e',
    binary_round 53 1024 s m e = S754_finite s m' e'
    /\ Zpos (digits2_pos m') = 53 /\ -1074 <= e'
    /\ 2 * Z.abs (Zpos m' * 2 ^ (e' + 1074) - Zpos m * 2 ^ (e + 1074))
       <= 2 ^ (d + e - 53 + 1074).
Proof.
  intros d He Hde.
  pose proof (digits2_pos_bounds m) as Hm. fold d in Hm.
  assert (1 <= d) by (subst d; lia).
  unfold binary_round. fold d. unfold fexp, emin.
  replace (Z.max (d + e - 53) (3 - 1024 - 53)) with (d + e - 53) by lia.
  destruct (Z.le_gt_cases 53 d) as [Hbig|Hsmall].
  - rewrite shl_align_id by lia.
    destruct (round_aux_spec s m e) as (m' & e' & -> & Hd' & He' & Herr);
      [done|lia|done|]. fold d in Herr.
    exists m', e'. split; [done|]. split; [done|]. split; [lia|].
    replace (e' + 1074) with ((e' - e) + (e + 1074)) by lia.
    replace (d + e - 53 + 1074) with ((d - 53) + (e + 1074)) by lia.
    rewrite (pow2_split (e' - e) (e + 1074)), (pow2_split (d - 53) (e + 1074))
      by lia.
    assert (0 < 2 ^ (e + 1074)) by (apply pow2_pos; lia).
    set (X := 2 ^ (e + 1074)) in *.
    replace (Zpos m' * (2 ^ (e' - e) * X) - Zpos m * X)
      with ((Zpos m' * 2 ^ (e' - e) - Zpos m) * X) by ring.
    rewrite Z.abs_mul, (Z.abs_eq X), Z.mul_assoc by lia.
    apply Z.mul_le_mono_nonneg_r; [lia | exact Herr].
  - destruct (shl_align_spec m e (d + e - 53)) as [Hf Hs]; [lia|].
    destruct (shl_align m e (d + e - 53)) as [mz ez]. cbn in Hf, Hs. subst ez.
    replace (e - (d + e - 53)) with (53 - d) in Hf by lia.
    assert (Zpos (digits2_pos mz) = 53) as Hdz.
    { apply digits_of_range. rewrite Hf.
      replace (2 ^ (53 - 1)) with (2 ^ (d - 1) * 2 ^ (53 - d))
        by (rewrite <- pow2_split by lia; f_equal; lia).
      replace (2 ^ 53) with (2 ^ d * 2 ^ (53 - d))
        by (rewrite <- pow2_split by lia; f_equal; lia).
      assert (0 < 2 ^ (53 - d)) by (apply pow2_pos; lia). nia. }
    destruct (round_aux_spec s mz (d + e - 53))
      as (m' & e' & -> & Hd' & He' & Herr); [lia|lia|lia|].
    rewrite Hdz in Herr. change (2 ^ (53 - 53)) with 1 in Herr.
    assert (Zpos m' * 2 ^ (e' - (d + e - 53)) = Zpos mz) as Hex by lia.
    exists m', e'. split; [done|]. split; [done|]. split; [lia|].
    replace (e' + 1074) with ((e' - (d + e - 53)) + (d + e - 53 + 1074)) by lia.
    rewrite (pow2_split (e' - (d + e - 53)) (d + e - 53 + 1074)) by lia.
    rewrite Z.mul_assoc, Hex, Hf.
    replace (e + 1074) with ((53 - d) + (d + e - 53 + 1074)) by lia.
    rewrite (pow2_split (53 - d) (d + e - 53 + 1074)) by lia.
    assert (0 < 2 ^ (d + e - 53 + 1074)) by (apply pow2_pos; lia).
    replace (Zpos m * 2 ^ (53 - d) * 2 ^ (d + e - 53 + 1074) -
             Zpos m * (2 ^ (53 - d) * 2 ^ (d + e - 53 + 1074))) with 0 by ring.
    cbn [Z.abs]. lia.
Qed.

(** The magnitude of a value bounds the digits of its mantissa. *)
Lemma digits_le_of_bound (m : positive) (e j : Z) :
  -1074 <= e -> 0 <= j + 1074 ->
  Zpos m * 2 ^ (e + 1074) < 2 ^ (j + 1074) ->
  Zpos (digits2_pos m) + e <= j.
Proof.
  intros He Hj Hlt. pose proof (digits2_pos_bounds m) as [Hlo _].
  set (d := Zpos (digits2_pos m)) in *.
  assert (1 <= d) by (subst d; lia).
  destruct (Z.le_gt_cases (d + e) j) as [|Hgt]; [done|exfalso].
  assert (2 ^ (j + 1074) <= 2 ^ (d - 1 + (e + 1074))) as Hp.
  { apply Z.pow_le_mono_r; lia. }
  rewrite (pow2_split (d - 1) (e + 1074)) in Hp by lia.
  assert (0 < 2 ^ (e + 1074)) by (apply pow2_pos; lia). nia.
Qed.

(** [binary_normalize] of a non-zero integer mantissa. *)
Lemma normalize_spec (M e j : Z) :
  M <> 0 -> -1000 <= e -> j <= 1000 ->
  Z.abs M * 2 ^ (e + 1074) < 2 ^ (j + 1074) ->
  exists m' e',
    binary_normalize 53 1024 M e false = S754_finite (M <? 0) m' e'
    /\ Zpos (digits2_pos m') = 53 /\ -1074 <= e'
    /\ 2 * Z.abs (sval (S754_finite (M <? 0) m' e') - M * 2 ^ (e + 1074))
       <= 2 ^ (j - 53 + 1074).
Proof.
  intros HM He Hj Hlt.
  assert (0 < 2 ^ (e + 1074)) as HX by (apply pow2_pos; lia).
  assert (0 <= j + 1074) as Hj0.
  { destruct (Z.le_gt_cases 0 (j + 1074)); [done|].
    rewrite (Z.pow_neg_r 2 (j + 1074)) in Hlt by lia. nia. }
  assert (forall s (m : positive),
            Zpos m = Z.abs M ->
            exists m' e',
              binary_round 53 1024 s m e = S754_finite s m' e'
              /\ Zpos (digits2_pos m') = 53 /\ -1074 <= e'
              /\ 2 * Z.abs (Zpos m' * 2 ^ (e' + 1074) - Zpos m * 2 ^ (e + 1074))
                 <= 2 ^ (j - 53 + 1074)) as Hround.
  { intros s m Hm.
    assert (Zpos (digits2_pos m) + e <= j) as Hdj.
    { apply digits_le_of_bound; [lia|done|by rewrite Hm]. }
    destruct (round_spec s m e) as (m' & e' & Hr & Hd' & He' & Herr); [lia..|].
    exists m', e'. split; [done|]. split; [done|]. split; [done|].
    etrans; [apply Herr|]. apply Z.pow_le_mono_r; [lia|].
    pose proof (digits2_pos_bounds m). lia. }
  destruct M as [|m|m]; [done|..]; cbn [binary_normalize Z.ltb Z.compare].
  - destruct (Hround false m) as (m' & e' & -> & Hd' & He' & Herr); [done|].
    exists m', e'. split; [done|]. split; [done|]. split; [done|].
    cbn [sval cond_Zopp]. done.
  - destruct (Hround true m) as (m' & e' & -> & Hd' & He' & Herr); [done|].
    exists m', e'. split; [done|]. split; [done|]. split; [done|].
    cbn [sval cond_Zopp].
    replace (- (Zpos m' * 2 ^ (e' + 1074)) - Zneg m * 2 ^ (e + 1074))
      with (- (Zpos m' * 2 ^ (e' + 1074) - Zpos m * 2 ^ (e + 1074))) by lia.
    by rewrite Z.abs_opp.
Qed.

Lemma sval_pos_finite (m : positive) (e : Z) :
  -1074 <= e -> 0 < Zpos m * 2 ^ (e + 1074).
Proof. intros. assert (0 < 2 ^ (e + 1074)) by (apply pow2_pos; lia). lia. Qed.

Lemma compare_normal_pos (m1 m2 : positive) (e1 e2 : Z) :
  Zpos (digits2_pos m1) = 53 -> Zpos (digits2_pos m2) = 53 ->
  -1074 <= e1 -> -1074 <= e2 ->
  match e1 ?= e2 with
  | Lt => Lt
  | Gt => Gt
  | Eq => Pos.compare_cont Eq m1 m2
  end = (Zpos m1 * 2 ^ (e1 + 1074) ?= Zpos m2 * 2 ^ (e2 + 1074)).
Proof.
  intros Hd1 Hd2 He1 He2.
  pose proof (digits2_pos_bounds m1) as Hm1. rewrite Hd1 in Hm1.
  pose proof (digits2_pos_bounds m2) as Hm2. rewrite Hd2 in Hm2.
  change (2 ^ (53 - 1)) with (2 ^ 52) in *.
  assert (forall (a b : positive) (x y : Z),
            2 ^ 52 <= Zpos a < 2 ^ 53 -> 2 ^ 52 <= Zpos b < 2 ^ 53 ->
            -1074 <= x -> x < y ->
            Zpos a * 2 ^ (x + 1074) < Zpos b * 2 ^ (y + 1074)) as Hlt.
  { intros a b x y Ha Hb Hx Hxy.
    assert (2 ^ (x + 1 + 1074) <= 2 ^ (y + 1074)) as Hp
      by (apply Z.pow_le_mono_r; lia).
    replace (x + 1 + 1074) with (1 + (x + 1074)) in Hp by lia.
    rewrite (pow2_split 1 (x + 1074)) in Hp by lia.
    assert (0 < 2 ^ (x + 1074)) by (apply pow2_pos; lia).
    change (2 ^ 53) with (2 ^ 52 * 2 ^ 1) in *. nia. }
  destruct (Z.compare_spec e1 e2) as [->|He|He].
  - change (Pos.compare_cont Eq m1 m2) with (Zpos m1 ?= Zpos m2).
    apply Zmult_compare_compat_r.
    assert (0 < 2 ^ (e2 + 1074)) by (apply pow2_pos; lia). lia.
  - symmetry. apply Z.compare_lt_iff. by apply Hlt.
  - symmetry. apply Z.compare_gt_iff. by apply Hlt.
Qed.

(** On normal numbers [SFcompare] compares the values. *)
Lemma compare_normal (x y : spec_float) :
  normal x -> normal y -> SFcompare x y = Some (sval x ?= sval y).
Proof.
  destruct x as [sx|sx| |sx mx ex], y as [sy|sy| |sy my ey]; try done.
  - intros _ [Hd He]. cbn [SFcompare sval].
    pose proof (sval_pos_finite my ey He).
    f_equal. symmetry. destruct sy; cbn [cond_Zopp].
    + apply Z.compare_gt_iff. lia.
    + apply Z.compare_lt_iff. lia.
  - intros [Hd He] _. cbn [SFcompare sval].
    pose proof (sval_pos_finite mx ex He).
    f_equal. symmetry. destruct sx; cbn [cond_Zopp].
    + apply Z.compare_lt_iff. lia.
    + apply Z.compare_gt_iff. lia.
  - intros [Hdx Hex] [Hdy Hey]. cbn [SFcompare sval].
    pose proof (sval_pos_finite mx ex Hex).
    pose proof (sval_pos_finite my ey Hey).
    pose proof (compare_normal_pos mx my ex ey Hdx Hdy Hex Hey) as Hc.
    f_equal. destruct sx, sy; cbn [cond_Zopp].
    + rewrite Z.compare_opp, (Z.compare_antisym (Zpos mx * _)), <- Hc.
      by destruct (ex ?= ey).
    + symmetry. apply Z.compare_lt_iff. lia.
    + symmetry. apply Z.compare_gt_iff. lia.
    + done.
Qed.

Lemma normal_canon (n : Z) :
  Z.abs n < 2 ^ 53 -> normal (canon n) /\ sval (canon n) = n * 2 ^ 1074.
Proof.
  intros Hn. unfold canon. destruct (Z.eqb_spec n 0) as [->|Hne]; [done|].
  pose proof (expo_range n ltac:(lia)) as He.
  pose proof (mant_range n ltac:(lia)) as Hm.
  cbn [normal sval]. rewrite mant_pos by lia. split.
  - split; [|lia]. apply digits_of_range. rewrite mant_pos by lia. done.
  - unfold mant.
    rewrite <- Z.mul_assoc, <- pow2_split by lia.
    replace (- expo n + (expo n + 1074)) with 1074 by lia.
    destruct (Z.ltb_spec n 0); cbn [cond_Zopp]; lia.
Qed.

(** The product of two positive normal numbers. *)
Lemma mul_spec (mx my : positive) (ex ey j : Z) :
  Zpos (digits2_pos mx) = 53 -> Zpos (digits2_pos my) = 53 ->
  -1074 <= ex + ey -> j <= 1000 ->
  Zpos mx * Zpos my * 2 ^ (ex + ey + 1074) < 2 ^ (j + 1074) ->
  exists m' e',
    SFmul 53 1024 (S754_finite false mx ex) (S754_finite false my ey)
    = S754_finite false m' e'
    /\ Zpos (digits2_pos m') = 53 /\ ex + ey <= e'
    /\ 2 * Z.abs (Zpos m' * 2 ^ (e' + 1074)
                  - Zpos mx * Zpos my * 2 ^ (ex + ey + 1074))
       <= 2 ^ (j - 53 + 1074).
Proof.
  intros Hdx Hdy He Hj Hlt. cbn [SFmul xorb].
  pose proof (digits2_pos_bounds mx) as Hmx. rewrite Hdx in Hmx.
  pose proof (digits2_pos_bounds my) as Hmy. rewrite Hdy in Hmy.
  change (2 ^ (53 - 1)) with (2 ^ 52) in *.
  pose proof (digits2_pos_bounds (mx * my)) as Hd.
  set (d := Zpos (digits2_pos (mx * my))) in *.
  assert (0 < 2 ^ (ex + ey + 1074)) as HX by (apply pow2_pos; lia).
  assert (0 <= j + 1074) as Hj0.
  { destruct (Z.le_gt_cases 0 (j + 1074)); [done|].
    rewrite (Z.pow_neg_r 2 (j + 1074)) in Hlt by lia. nia. }
  assert (105 <= d) as Hd105.
  { destruct (Z.le_gt_cases 105 d) as [|Hsmall]; [done|exfalso].
    assert (2 ^ d <= 2 ^ 104) by (apply Z.pow_le_mono_r; lia).
    rewrite Pos2Z.inj_mul in Hd.
    change (2 ^ 104) with (2 ^ 52 * 2 ^ 52) in *. nia. }
  assert (d + (ex + ey) <= j) as Hdj.
  { apply digits_le_of_bound; [lia|done|]. by rewrite Pos2Z.inj_mul. }
  destruct (round_aux_spec false (mx * my) (ex + ey))
    as (m' & e' & -> & Hd' & He' & Herr); [fold d; lia|lia|fold d; lia|].
  fold d in Herr. exists m', e'. split; [done|]. split; [done|]. split; [lia|].
  rewrite Pos2Z.inj_mul in Herr.
  replace (e' + 1074) with ((e' - (ex + ey)) + (ex + ey + 1074)) by lia.
  rewrite (pow2_split (e' - (ex + ey)) (ex + ey + 1074)) by lia.
  set (X := 2 ^ (ex + ey + 1074)) in *.
  replace (Zpos m' * (2 ^ (e' - (ex + ey)) * X) - Zpos mx * Zpos my * X)
    with ((Zpos m' * 2 ^ (e' - (ex + ey)) - Zpos mx * Zpos my) * X) by ring.
  rewrite Z.abs_mul, (Z.abs_eq X), Z.mul_assoc by lia.
  etrans; [apply Z.mul_le_mono_nonneg_r; [lia | exact Herr]|].
  subst X. rewrite <- pow2_split by lia. apply Z.pow_le_mono_r; lia.
Qed.

(** The difference of two positive normal numbers. *)
Lemma sub_spec (ma mb : positive) (ea eb j : Z) :
  let x := S754_finite false ma ea in
  let y := S754_finite false mb eb in
  -1000 <= ea -> -1000 <= eb -> j <= 1000 ->
  Z.abs (sval x - sval y) < 2 ^ (j + 1074) ->
  exists f,
    SFsub 53 1024 x y = f /\ normal f
    /\ 2 * Z.abs (sval f - (sval x - sval y)) <= 2 ^ (j - 53 + 1074).
Proof.
  intros x y Hea Heb Hj Hlt. subst x y. cbn [SFsub cond_Zopp sval] in *.
  set (ez := Z.min ea eb) in *.
  destruct (shl_align_spec ma ea ez) as [-> _]; [lia|].
  destruct (shl_align_spec mb eb ez) as [-> _]; [lia|].
  set (M := Zpos ma * 2 ^ (ea - ez) - Zpos mb * 2 ^ (eb - ez)).
  assert (M * 2 ^ (ez + 1074)
          = Zpos ma * 2 ^ (ea + 1074) - Zpos mb * 2 ^ (eb + 1074)) as HM.
  { replace (ea + 1074) with ((ea - ez) + (ez + 1074)) by lia.
    replace (eb + 1074) with ((eb - ez) + (ez + 1074)) by lia.
    rewrite (pow2_split (ea - ez) (ez + 1074)) by lia.
    rewrite (pow2_split (eb - ez) (ez + 1074)) by lia.
    subst M. ring. }
  assert (0 < 2 ^ (ez + 1074)) as HX by (apply pow2_pos; lia).
  assert (0 <= j - 53 + 1074 -> 0 < 2 ^ (j - 53 + 1074)) as Hpos
    by (intros; by apply pow2_pos).
  destruct (Z.eq_dec M 0) as [E|Hne].
  - rewrite E. cbn [binary_normalize]. eexists. split; [done|]. split; [done|].
    rewrite <- HM, E. cbn [sval]. rewrite Z.mul_0_l. cbn.
    apply Z.pow_nonneg. lia.
  - destruct (normalize_spec M ez j) as (m' & e' & -> & Hd' & He' & Herr);
      [done|lia|done| |].
    { rewrite <- (Z.abs_eq (2 ^ (ez + 1074))) by lia.
      by rewrite <- Z.abs_mul, HM. }
    eexists. split; [done|]. split; [done|]. by rewrite <- HM.
Qed.

End Rounding.

(** * The score encoder *)

Section Encoder.

Implicit Types (a b : achievement) (s t n : Z).

Lemma int_of_float_canon n :
  Z.abs n < 2 ^ 53 -> PyFloat.int_of_float (canon n) = Some n.
Proof.
  intros Hn. unfold canon. destruct (Z.eqb_spec n 0) as [->|Hne]; [done|].
  pose proof (expo_range n ltac:(lia)) as He.
  cbn [PyFloat.int_of_float]. rewrite mant_pos by lia.
  assert (match expo n with
          | 0 => mant n
          | Zpos p => Z.shiftl (mant n) (Zpos p)
          | Zneg p => Z.shiftr (mant n) (Zpos p)
          end = Z.abs n) as ->.
  { unfold mant. destruct (expo n) as [|p|p] eqn:E; [cbn; lia | lia |].
    rewrite Z.shiftr_div_pow2 by lia. cbn [Z.opp].
    apply Z.div_mul. apply Z.pow_nonzero; lia. }
  f_equal. destruct (Z.ltb_spec n 0); lia.
Qed.

Lemma float_of_int_canon n :
  Z.abs n < 2 ^ 53 -> PyFloat.float_of_int n = Some (canon n).
Proof.
  intros Hn. unfold PyFloat.float_of_int, PyFloat.of_Z.
  change PyFloat.prec with 53. change PyFloat.emax with 1024.
  rewrite of_Z_canon by done. unfold canon.
  by destruct (n =? 0).
Qed.

Lemma exactly_canon n : Z.abs n < 2 ^ 53 -> exactly (canon n) n.
Proof.
  intros Hn. split; [|by apply int_of_float_canon].
  unfold PyFloat.of_Z. symmetry. by apply of_Z_canon.
Qed.

Lemma K_float_canon : K_float = canon K.
Proof. reflexivity. Qed.

(** Without rounding the encoder computes [best_score * K - achieved_ts_ms]. *)
Lemma encode_canon s t :
  0 <= s -> s * K < 2 ^ 53 -> 0 <= t < 2 ^ 53 ->
  _encode_score_with_tiebreaker s t = Some (canon (s * K - t)).
Proof.
  intros Hs HsK Ht. unfold _encode_score_with_tiebreaker.
  assert (s < 2 ^ 53) by (unfold K in HsK; lia).
  assert (0 <= s * K) by (unfold K; lia).
  rewrite !float_of_int_canon by lia. cbn [mbind option_bind].
  rewrite K_float_canon. unfold PyFloat.mul, PyFloat.sub.
  change PyFloat.prec with 53. change PyFloat.emax with 1024.
  rewrite mul_canon by (unfold K in *; lia).
  by rewrite sub_canon by lia.
Qed.

Lemma exact_range_bounds a :
  exact_range a ->
  0 <= fst a /\ fst a * K < 2 ^ 53 /\ 0 <= snd a < 2 ^ 53
  /\ Z.abs (fst a * K - snd a) < 2 ^ 53.
Proof. unfold exact_range, MAX_EXACT_SCORE, K. lia. Qed.

(** In the exact range the order of the encoded values is the order of the
    integers [score * K - timestamp]. *)
Lemma encodes_above_iff a b :
  exact_range a -> exact_range b ->
  encodes_above a b <-> fst b * K - snd b < fst a * K - snd a.
Proof.
  intros (Ha1 & Ha2 & Ha3 & Ha4)%exact_range_bounds
         (Hb1 & Hb2 & Hb3 & Hb4)%exact_range_bounds.
  unfold encodes_above. rewrite !encode_canon by done.
  assert (PyFloat.ltb (canon (fst b * K - snd b)) (canon (fst a * K - snd a))
          = (fst b * K - snd b <? fst a * K - snd a)) as Hlt.
  { unfold PyFloat.ltb, SFltb. rewrite compare_canon by done.
    unfold Z.ltb. by destruct (_ ?= _). }
  split.
  - intros (x & y & [= <-] & [= <-] & Hxy). rewrite Hlt in Hxy. lia.
  - intros H. do 2 eexists. repeat split. rewrite Hlt. lia.
Qed.

(** The encoder follows the ranking rule for achievements in the exact range
    whose timestamps are less than [K] milliseconds apart. *)
Lemma encode_order_within_window a b :
  exact_range a -> exact_range b ->
  Z.abs (snd a - snd b) < K ->
  encodes_above a b <-> ranks_above a b.
Proof.
  intros Ha Hb Hw. rewrite encodes_above_iff by done.
  unfold ranks_above, K in *. lia.
Qed.

(** For every score a PostgreSQL [Integer] holds, the encoded value is a
    normal number within 384 of [score * K - timestamp]. *)
Lemma encode_approx s t :
  0 <= s <= INT4_MAX -> 0 <= t < 2 ^ 53 ->
  exists f,
    _encode_score_with_tiebreaker s t = Some f /\ normal f
    /\ Z.abs (sval f - (s * K - t) * 2 ^ 1074) <= 384 * 2 ^ 1074.
Proof.
  intros Hs Ht. unfold INT4_MAX in Hs.
  assert (0 < 2 ^ 1074) as HU by (by apply pow2_pos).
  unfold _encode_score_with_tiebreaker.
  rewrite !float_of_int_canon by lia. cbn [mbind option_bind].
  unfold PyFloat.mul, PyFloat.sub.
  change PyFloat.prec with 53. change PyFloat.emax with 1024.
  destruct (Z.eq_dec s 0) as [->|Hs0].
  { rewrite K_float_canon, mul_canon, sub_canon by (unfold K; lia).
    change (0 * K) with 0. destruct (normal_canon (0 - t)) as [Hn Hv]; [lia|].
    eexists. split; [done|]. split; [done|]. rewrite Hv.
    replace ((0 - t) * 2 ^ 1074 - (0 - t) * 2 ^ 1074) with 0 by ring.
    cbn [Z.abs]. lia. }
  destruct (normal_canon s) as [Hns Hvs]; [lia|].
  rewrite (canon_pos s) in * by lia. cbn [normal sval cond_Zopp] in Hns, Hvs.
  destruct Hns as [Hds Hes].
  pose proof (expo_range s ltac:(lia)) as Hexpo.
  change K_float with (S754_finite false 8388608000000000 (-23)).
  destruct (mul_spec (Z.to_pos (mant s)) 8388608000000000 (expo s) (-23) 61)
    as (ma & ea & -> & Hda & Hea & Herr); [done|done|lia|lia| |].
  { replace (expo s + -23 + 1074) with (23 + (expo s + 1074 - 46)) by lia.
    replace (expo s + 1074) with (46 + (expo s + 1074 - 46)) in Hvs by lia.
    rewrite pow2_split in Hvs |- * by lia.
    set (Y := 2 ^ (expo s + 1074 - 46)) in *.
    assert (0 < Y) by (apply pow2_pos; lia).
    change (2 ^ 23) with 8388608. change (2 ^ 46) with 70368744177664 in Hvs.
    replace (2 ^ (61 + 1074)) with (2 ^ 61 * 2 ^ 1074)
      by (by rewrite <- pow2_split).
    change (2 ^ 61) with 2305843009213693952. nia. }
  assert (Zpos (Z.to_pos (mant s)) * 8388608000000000
          * 2 ^ (expo s + -23 + 1074)
          = s * K * 2 ^ 1074) as HP.
  { replace (expo s + 1074) with (23 + (expo s + -23 + 1074)) in Hvs by lia.
    rewrite pow2_split in Hvs by lia. change (2 ^ 23) with 8388608 in Hvs.
    unfold K. nia. }
  rewrite HP in Herr.
  replace (2 ^ (61 - 53 + 1074)) with (256 * 2 ^ 1074) in Herr
    by (change 256 with (2 ^ 8); by rewrite <- pow2_split).
  set (U := 2 ^ 1074) in *.
  set (WA := Zpos ma * 2 ^ (ea + 1074)) in *.
  destruct (Z.eq_dec t 0) as [->|Ht0].
  { cbn [canon Z.eqb SFsub]. eexists. split; [done|].
    split; [split; [done|lia]|]. cbn [sval cond_Zopp]. fold WA.
    unfold K in *. lia. }
  destruct (normal_canon t) as [Hnt Hvt]; [lia|].
  rewrite (canon_pos t) in * by lia. cbn [normal sval cond_Zopp] in Hnt, Hvt.
  pose proof (expo_range t ltac:(lia)) as Hexpot.
  destruct (sub_spec ma (Z.to_pos (mant t)) ea (expo t) 62)
    as (f & -> & Hnf & Herr2); [lia|lia|lia| |].
  { cbn [sval cond_Zopp]. fold WA. rewrite Hvt. fold U.
    replace (2 ^ (62 + 1074)) with (2 ^ 62 * U)
      by (unfold U; by rewrite <- pow2_split).
    change (2 ^ 62) with 4611686018427387904. unfold K in *. nia. }
  cbn [sval cond_Zopp] in Herr2. fold WA in Herr2. rewrite Hvt in Herr2.
  fold U in Herr2.
  replace (2 ^ (62 - 53 + 1074)) with (512 * U) in Herr2
    by (unfold U; change 512 with (2 ^ 9); by rewrite <- pow2_split).
  exists f. split; [done|]. split; [done|]. unfold K in *. lia.
Qed.

(** At a fixed timestamp a higher score gets a greater encoded value, for all
    scores a PostgreSQL [Integer] holds. *)
Lemma encode_score_monotone s1 s2 t :
  0 <= s2 -> s2 < s1 -> s1 <= INT4_MAX -> 0 <= t < 2 ^ 53 ->
  encodes_above (s1, t) (s2, t).
Proof.
  intros H0 Hlt Hmax Ht.
  destruct (encode_approx s1 t) as (f1 & Hf1 & Hn1 & He1); [lia|done|].
  destruct (encode_approx s2 t) as (f2 & Hf2 & Hn2 & He2); [lia|done|].
  exists f1, f2. split; [done|]. split; [done|].
  unfold PyFloat.ltb, SFltb. rewrite compare_normal by done.
  assert (0 < 2 ^ 1074) as HU by (by apply pow2_pos).
  set (U := 2 ^ 1074) in *.
  assert (sval f2 < sval f1) as Hv by (unfold K in *; nia).
  apply Z.compare_lt_iff in Hv. by rewrite Hv.
Qed.

End Encoder.

(** C2: the encoder breaks the ranking rule.  A score of 51 reached some 13
    days (1.1e9 ms) after a score of 50 ranks above it by the rule, yet its
    encoded value is the smaller one. *)
Theorem lower_score_encoded_above :
  ranks_above (51, sample_ts_ms + 1100000000) (50, sample_ts_ms)
  /\ encodes_above (50, sample_ts_ms) (51, sample_ts_ms + 1100000000)
  /\ ~ encodes_above (51, sample_ts_ms + 1100000000) (50, sample_ts_ms).
Proof.
  split; [|split].
  - left. cbn. lia.
  - apply encodes_above_iff; vm_compute; intuition discriminate.
  - rewrite encodes_above_iff; vm_compute; intuition discriminate.
Qed.

(** C3 as stated fails: [K] is below a present-day timestamp in
    milliseconds, [2^31 * K] is above [2^53], and at a score of [2^31] the
    encoded value is not the exact integer. *)
Lemma K_below_timestamps_and_2_31_inexact :
  K < sample_ts_ms
  /\ 2 ^ 53 < 2 ^ 31 * K
  /\ ~ (exists x,
          _encode_score_with_tiebreaker (2 ^ 31) (sample_ts_ms + 1) = Some x
          /\ exactly x (2 ^ 31 * K - (sample_ts_ms + 1))).
Proof.
  split; [done|]. split; [done|].
  intros (x & Hx & _ & Hint). vm_compute in Hx. injection Hx as <-.
  vm_compute in Hint. discriminate Hint.
Qed.

(** C3, amended. With [K = 10^9], for every score from 0 to 9,007,199 and
    every timestamp from 0 to below [2^53], [score * K] stays below [2^53]
    and the encoded value is exactly the integer [score * K - timestamp]. *)
Theorem encoder_exact_in_range :
  forall a : achievement,
    exact_range a ->
    fst a * K < 2 ^ 53
    /\ exists x,
         _encode_score_with_tiebreaker (fst a) (snd a) = Some x
         /\ exactly x (fst a * K - snd a).
Proof.
  intros a (Ha1 & Ha2 & Ha3 & Ha4)%exact_range_bounds. split; [done|].
  exists (canon (fst a * K - snd a)). split.
  - by apply encode_canon.
  - by apply exactly_canon.
Qed.

Lemma encoder_exact_in_range_witness :
  MAX_EXACT_SCORE * K < 2 ^ 53
  /\ exists x,
       _encode_score_with_tiebreaker MAX_EXACT_SCORE sample_ts_ms = Some x
       /\ exactly x (MAX_EXACT_SCORE * K - sample_ts_ms).
Proof.
  apply (encoder_exact_in_range (MAX_EXACT_SCORE, sample_ts_ms)).
  vm_compute. intuition discriminate.
Defined.

(** C8 as stated fails: at the valid score [2^31 - 1] two timestamps one
    millisecond apart get the same encoded value. *)
Lemma timestamps_collide_at_large_score :
  fits_Integer INT4_MAX = true
  /\ valid_SubmitScoreRequest (mkSubmitScoreRequest 1%N INT4_MAX) = true
  /\ sample_ts_ms < sample_ts_ms + 1
  /\ _encode_score_with_tiebreaker INT4_MAX sample_ts_ms
     = _encode_score_with_tiebreaker INT4_MAX (sample_ts_ms + 1)
  /\ ~ encodes_above (INT4_MAX, sample_ts_ms) (INT4_MAX, sample_ts_ms + 1).
Proof.
  split; [done|]. split; [done|]. split; [done|]. split; [by vm_compute|].
  intros (x & y & Hx & Hy & Hlt). vm_compute in Hx, Hy.
  injection Hx as <-. injection Hy as <-. vm_compute in Hlt. discriminate Hlt.
Qed.

(** C8, amended. For timestamps from 0 to below [2^53] the encoder is strictly
    monotone in the score over all valid scores (0 to [2^31 - 1]): at a fixed
    timestamp the higher score has the greater encoded value.  It is strictly
    monotone in the timestamp for scores from 0 to 9,007,199: at a fixed
    score the earlier timestamp has the greater encoded value. *)
Theorem encoder_strictly_monotone :
  (forall s1 s2 t : Z,
     0 <= s2 -> s2 < s1 -> s1 <= INT4_MAX -> 0 <= t < 2 ^ 53 ->
     encodes_above (s1, t) (s2, t))
  /\ (forall s t1 t2 : Z,
        exact_range (s, t1) -> exact_range (s, t2) ->
        t1 < t2 -> encodes_above (s, t1) (s, t2)).
Proof.
  split.
  - apply encode_score_monotone.
  - intros s t1 t2 H1 H2 Hlt. apply encodes_above_iff; [done..|].
    cbn. lia.
Qed.

Lemma encoder_strictly_monotone_witness :
  encodes_above (INT4_MAX, sample_ts_ms) (INT4_MAX - 1, sample_ts_ms)
  /\ encodes_above (50, sample_ts_ms) (50, sample_ts_ms + 1).
Proof.
  split.
  - apply (proj1 encoder_strictly_monotone INT4_MAX (INT4_MAX - 1)
             sample_ts_ms); vm_compute; intuition discriminate.
  - apply (proj2 encoder_strictly_monotone 50 sample_ts_ms (sample_ts_ms + 1));
      vm_compute; intuition discriminate.
Defined.

(** * The rank of a member of the sorted set *)

Section Rank.

Implicit Types (e x y : zentry) (l : list zentry).
Implicit Types (z : gmap UUID PyFloat.float) (pid : UUID).

(** On normal scores [zabove] is the lexicographic order on the value and the
    member. *)
Lemma zabove_normal x y :
  normal (snd x) -> normal (snd y) ->
  zabove x y = true
  <-> sval (snd y) < sval (snd x)
      \/ (sval (snd x) = sval (snd y) /\ (fst y < fst x)%N).
Proof.
  intros Hx Hy. unfold zabove, PyFloat.ltb, PyFloat.eqb, SFltb, SFeqb.
  rewrite !compare_normal by done.
  destruct (Z.compare_spec (sval (snd y)) (sval (snd x))),
    (Z.compare_spec (sval (snd x)) (sval (snd y))),
    (N.ltb_spec (fst y) (fst x)); cbn; split; try done; lia.
Qed.

Lemma zabove_false_trans x y e :
  normal (snd x) -> normal (snd y) -> normal (snd e) ->
  zabove y x = false -> zabove e y = false -> zabove e x = false.
Proof.
  intros Hx Hy Hz Hyx Hzy.
  destruct (zabove e x) eqn:Hzx; [exfalso|done].
  apply zabove_normal in Hzx; [|done..].
  apply not_true_iff_false in Hyx, Hzy.
  rewrite zabove_normal in Hyx, Hzy by done. lia.
Qed.

(** Of two entries with normal scores and different members one is above
    the other. *)
Lemma zabove_total x y :
  normal (snd x) -> normal (snd y) -> fst x ≠ fst y ->
  zabove x y = false -> zabove y x = true.
Proof.
  intros Hx Hy Hne Hxy. apply not_true_iff_false in Hxy.
  rewrite zabove_normal in Hxy by done. apply zabove_normal; [done..|].
  assert (fst x ≠ fst y)%N as Hne' by done. lia.
Qed.

(** A list sorted by a relation that is transitive on its elements. *)
Lemma Sorted_StronglySorted_on {A} (R : A -> A -> Prop) (P : A -> Prop)
  (s : list A) :
  (forall u v w : A, P u -> P v -> P w -> R u v -> R v w -> R u w) ->
  Forall P s -> Sorted R s -> StronglySorted R s.
Proof.
  intros Htrans HP Hs.
  induction Hs as [|a s Hs IH Hhd]; [constructor|].
  apply Forall_cons in HP as [Pa HP]. specialize (IH HP).
  constructor; [done|].
  destruct Hhd as [|b s Hab]; [constructor|].
  apply Forall_cons in HP as [Pb HP].
  apply StronglySorted_inv in IH as [_ Hb].
  constructor; [done|].
  apply Forall_forall. intros w Hw.
  apply (Htrans a b w); [done|done| |done|].
  - by apply (proj1 (Forall_forall _ _) HP).
  - by apply (proj1 (Forall_forall _ _) Hb).
Qed.

Lemma Sorted_lookup_on {A} (R : A -> A -> Prop) (P : A -> Prop) (s : list A) :
  (forall u v w : A, P u -> P v -> P w -> R u v -> R v w -> R u w) ->
  Forall P s -> Sorted R s ->
  forall (i j : nat) (u v : A),
    (i < j)%nat -> s !! i = Some u -> s !! j = Some v -> R u v.
Proof.
  intros Htrans HP Hs.
  pose proof (Sorted_StronglySorted_on R P s Htrans HP Hs) as Hss.
  clear HP Hs. induction Hss as [|a s Hss IH Hall]; intros i j u v Hij Hi Hj.
  - by rewrite lookup_nil in Hi.
  - destruct j as [|j]; [lia|]. cbn in Hj. destruct i as [|i].
    + injection Hi as <-.
      apply (proj1 (Forall_forall _ _) Hall).
      by apply list_elem_of_lookup_2 in Hj.
    + cbn in Hi. apply (IH i j); [lia|done..].
Qed.

(** With normal scores the entries of the sorted set are sorted against
    every later entry, not only the next one. *)
Lemma zrev_entries_strongly_sorted z :
  normal_scores z ->
  StronglySorted (λ a b, zabove b a = false) (zrev_entries z).
Proof.
  intros Hn.
  apply (Sorted_StronglySorted_on _ (λ e, normal (snd e))).
  - intros u v w Hu Hv Hw. by apply zabove_false_trans.
  - apply Forall_forall. intros [p s] Hin. cbn [snd].
    apply elem_of_zrev_entries in Hin. by apply (Hn p s).
  - apply zrev_entries_sorted.
Qed.

(** In a strongly sorted list of entries with normal scores and distinct
    members, the position of a member is the number of entries above it. *)
Lemma index_of_count l pid (sc : PyFloat.float) :
  StronglySorted (λ a b, zabove b a = false) l ->
  Forall (λ e, normal (snd e)) l ->
  NoDup (map fst l) ->
  (pid, sc) ∈ l ->
  index_of pid l
  = Some (Z.of_nat (length (filter (λ e, zabove e (pid, sc) = true) l))).
Proof.
  induction l as [|[q sq] l IH]; intros Hss Hn Hnd Hin;
    [by apply elem_of_nil in Hin|].
  apply StronglySorted_inv in Hss as [Hss Hall].
  apply Forall_cons in Hn as [Hnq Hn]. cbn [snd] in Hnq.
  cbn [map fst] in Hnd. apply NoDup_cons in Hnd as [Hq Hnd].
  assert (normal sc) as Hnsc.
  { apply elem_of_cons in Hin as [[= _ ->] | Hin]; [done|].
    by apply (proj1 (Forall_forall _ _) Hn (pid, sc)). }
  cbn [index_of]. destruct (N.eqb_spec q pid) as [->|Hne].
  - assert (sc = sq) as ->.
    { apply elem_of_cons in Hin as [[= ->] | Hin]; [done|].
      exfalso. apply Hq. by apply (list_elem_of_fmap_2 fst) in Hin. }
    rewrite filter_cons_False by (by rewrite zabove_irrefl).
    clear -Hall. induction l as [|b l IHl]; [done|].
    apply Forall_cons in Hall as [Hb Hall].
    rewrite filter_cons_False by (by rewrite Hb). by apply IHl.
  - assert ((pid, sc) ∈ l) as Hin'.
    { apply elem_of_cons in Hin as [[= -> _] | Hin]; done. }
    rewrite (IH Hss Hn Hnd Hin'). cbn [mbind option_bind].
    rewrite filter_cons_True.
    + cbn [length]. f_equal. lia.
    + apply zabove_total; [done|done|cbn; congruence|].
      by apply (proj1 (Forall_forall _ _) Hall (pid, sc)).
Qed.

(** The rank is one more than the number of members above the player. *)
Lemma zrevrank_count z pid (sc : PyFloat.float) :
  normal_scores z -> z !! pid = Some sc ->
  zrevrank z pid = Some (Z.of_nat (members_above z pid sc)).
Proof.
  intros Hn Hsc. unfold zrevrank, members_above.
  rewrite (index_of_count (zrev_entries z) pid sc).
  - do 2 f_equal. apply Permutation_length.
    by rewrite (zrev_entries_perm z).
  - by apply zrev_entries_strongly_sorted.
  - apply Forall_forall. intros [p s] Hin. cbn [snd].
    apply elem_of_zrev_entries in Hin. by apply (Hn p s).
  - apply zrev_entries_NoDup.
  - by apply elem_of_zrev_entries.
Qed.

End Rank.

(** C9. [get_rank_from_redis] answers with the 1-based position of the player
    in the descending order of the index.  The order holds every member of
    the index exactly once, sorted by score and then by member; the answer is
    [None] exactly for a player without index entry, [Some 1] for the player
    whose encoded value is strictly above that of every other member, and,
    for an index of normal scores, one more than the number of members that
    come before the player.  [get_player_profile] passes the answer on, an
    absent rank included. *)
Theorem get_rank_is_position_in_index :
  forall (st : State) (pid : UUID),
    let z := GLOBAL_LEADERBOARD (redis st) in
    (z !! pid = None <-> get_rank_from_redis pid (redis st) = None)
    /\ (forall sc,
          z !! pid = Some sc ->
          map_Forall (λ q sq, q ≠ pid -> PyFloat.ltb sq sc = true) z ->
          get_rank_from_redis pid (redis st) = Some 1)
    /\ (forall rank,
          get_rank_from_redis pid (redis st) = Some rank
          <-> 1 <= rank
              /\ exists sc,
                   zrev_entries z !! Z.to_nat (rank - 1) = Some (pid, sc))
    /\ zrev_entries z ≡ₚ map_to_list z
    /\ Sorted (λ a b, zabove b a = false) (zrev_entries z)
    /\ (forall sc,
          z !! pid = Some sc ->
          normal_scores z ->
          get_rank_from_redis pid (redis st)
          = Some (Z.of_nat (members_above z pid sc) + 1))
    /\ (forall player leaderboard,
          playerinfo (db st) !! pid = Some player ->
          playerleaderboard (db st) !! pid = Some leaderboard ->
          fst (get_player_profile pid st)
          = OK (mkPlayerProfileResponse pid (PlayerInfo.name player)
                  (PlayerInfo.phone_or_email player)
                  (get_rank_from_redis pid (redis st))
                  (PlayerLeaderboard.best_score leaderboard)
                  (PlayerLeaderboard.last_updated leaderboard))).
Proof.
  intros st pid z. unfold get_rank_from_redis. fold z.
  split; [|split; [|split; [|split; [|split; [|split]]]]].
  - unfold zrevrank. split.
    + intros Hnone.
      assert (index_of pid (zrev_entries z) = None) as ->; [|done].
      apply index_of_None. intros [[q sq] [Hq Hin]]%list_elem_of_fmap.
      cbn in Hq. subst q. apply elem_of_zrev_entries in Hin. congruence.
    + destruct (index_of pid (zrev_entries z)) as [i|] eqn:Hi; [done|].
      intros _. destruct (z !! pid) as [sc|] eqn:Hsc; [exfalso|done].
      apply index_of_None in Hi. apply Hi.
      apply elem_of_zrev_entries in Hsc.
      by apply (list_elem_of_fmap_2 fst) in Hsc.
  - unfold zrevrank. intros sc Hsc Htop.
    destruct (foldr_zinsert_head (pid, sc) (map_to_list z)) as [rest Hrest].
    + by apply elem_of_map_to_list.
    + intros [q sq] Hq%elem_of_map_to_list.
      destruct (decide (q = pid)) as [->|Hne].
      * left. congruence.
      * right. unfold zabove. cbn. by rewrite (Htop q sq Hq Hne).
    + unfold zrev_entries. rewrite Hrest. cbn. by rewrite N.eqb_refl.
  - unfold zrevrank. intros rank. split.
    + destruct (index_of pid (zrev_entries z)) as [i|] eqn:Hi; [|done].
      intros [= <-].
      apply index_of_Some in Hi as [H0 [sc Hsc]]; [|apply zrev_entries_NoDup].
      split; [lia|]. exists sc. by replace (i + 1 - 1) with i by lia.
    + intros [Hrank [sc Hsc]].
      assert (index_of pid (zrev_entries z) = Some (rank - 1)) as ->.
      { apply index_of_Some; [apply zrev_entries_NoDup|].
        split; [lia | by exists sc]. }
      f_equal. lia.
  - apply zrev_entries_perm.
  - apply zrev_entries_sorted.
  - intros sc Hsc Hn. by rewrite (zrevrank_count z pid sc Hn Hsc).
  - intros player leaderboard Hp Hl. unfold get_player_profile, player_join.
    assert (map_zip (playerinfo (db st)) (playerleaderboard (db st)) !! pid
            = Some (player, leaderboard)) as ->; [|done].
    apply map_lookup_zip_Some. cbn. done.
Qed.

Lemma get_rank_is_position_in_index_witness :
  get_rank_from_redis 2%N (redis two_players)
  = Some (Z.of_nat
            (members_above (GLOBAL_LEADERBOARD (redis two_players)) 2%N
               (S754_finite true 7127040004096000 (-12))) + 1).
Proof.
  apply (proj1 (proj2 (proj2 (proj2 (proj2 (proj2
           (get_rank_is_position_in_index two_players 2%N))))))).
  - reflexivity.
  - apply map_Forall_to_list. vm_compute.
    repeat (constructor; [split; [reflexivity | discriminate]|]).
    constructor.
Defined.

(** * What one request does to the state *)

Section Steps.

Implicit Types (st : State) (l : Ledger) (now : datetime) (pid : UUID).

Lemma contact_taken_registered contact l :
  contact_taken contact l = true <-> registered contact l.
Proof.
  unfold contact_taken, registered.
  rewrite bool_decide_eq_true, Exists_exists. split.
  - intros ([pid player] & Hin%elem_of_map_to_list & Hc). by exists pid, player.
  - intros (pid & player & Hp & Hc). exists (pid, player).
    split; [by apply elem_of_map_to_list | done].
Qed.

Lemma contact_taken_not_registered contact l :
  contact_taken contact l = false <-> ~ registered contact l.
Proof.
  rewrite <- contact_taken_registered. by destruct (contact_taken contact l).
Qed.

(** The three outcomes of [signup]: the contact is taken, an exception
    escapes with nothing stored, or the player and the row are stored. *)
Lemma signup_cases (payload : SignupRequest) new_id (h : string) now st :
  (registered (signup_phone_or_email payload) (db st)
   /\ signup payload new_id h now st
      = (HTTPException 400 "User already exists", st))
  \/ (~ registered (signup_phone_or_email payload) (db st)
      /\ (~ NUL_free payload h
          \/ is_Some (playerinfo (db st) !! new_id)
          \/ is_Some (playerleaderboard (db st) !! new_id))
      /\ exists e, signup payload new_id h now st = (Unhandled e, st))
  \/ (~ registered (signup_phone_or_email payload) (db st)
      /\ NUL_free payload h
      /\ playerinfo (db st) !! new_id = None
      /\ playerleaderboard (db st) !! new_id = None
      /\ signup payload new_id h now st
         = (OK "Signup successful. Please log in.",
            mkState (signed_up payload new_id h now (db st)) (redis st)
                    (tz st))).
Proof.
  unfold signup, NUL_free.
  destruct (contact_taken _ _) eqn:Hc.
  - left. by apply contact_taken_registered in Hc.
  - apply contact_taken_not_registered in Hc. right.
    destruct (has_NUL (signup_phone_or_email payload)) eqn:N1;
      [left; split; [done|]; split; [left; by intros (? & _)|by eexists]|].
    destruct (has_NUL (signup_name payload)) eqn:N2;
      [left; split; [done|]; split; [left; by intros (_ & ? & _)|by eexists]|].
    destruct (has_NUL h) eqn:N3;
      [left; split; [done|]; split; [left; by intros (_ & _ & ?)|by eexists]|].
    cbn [orb].
    destruct (playerinfo (db st) !! new_id) eqn:Hp.
    + left. split; [done|]. split; [right; left; by eexists | by eexists].
    + destruct (playerleaderboard (db st) !! new_id) eqn:Hl.
      * left. split; [done|]. split; [right; right; by eexists | by eexists].
      * right. done.
Qed.

(** The outcomes of [submit_score]: nothing written, or the ledger committed
    with the mirror either updated or left as it was. *)
Lemma submit_score_cases (payload : SubmitScoreRequest) now st :
  snd (submit_score payload now st) = st
  \/ (is_Some (playerinfo (db st) !! player_id payload)
      /\ fits_Integer (score payload) = true
      /\ db (snd (submit_score payload now st)) = committed payload now st
      /\ (((exists e, fst (submit_score payload now st) = Unhandled e)
           /\ redis (snd (submit_score payload now st)) = redis st)
          \/ (exists row achieved_at redis',
                playerleaderboard (committed payload now st)
                  !! player_id payload = Some row
                /\ timestamp (tz st) (PlayerLeaderboard.last_updated row)
                   = inr achieved_at
                /\ update_leaderboard (player_id payload)
                     (PlayerLeaderboard.best_score row) achieved_at (redis st)
                   = Some redis'
                /\ fst (submit_score payload now st) = OK "Score submitted"
                /\ redis (snd (submit_score payload now st)) = redis'))).
Proof.
  destruct (playerinfo (db st) !! player_id payload) as [player|] eqn:Hp;
    [|left; apply submit_score_aborts; by left].
  destruct (fits_Integer (score payload)) eqn:Hfit;
    [|left; apply submit_score_aborts; by right].
  right. split; [by eexists|]. split; [done|].
  split; [apply submit_score_commits; [by eexists | done]|].
  pose proof (upsert_best_lookup (player_id payload) (score payload) now
                (playerleaderboard (db st))) as Hrow.
  unfold submit_score, committed. rewrite Hp. cbn [playerleaderboard].
  destruct (upsert_best _ _ _ _) as [leaderboard tbl]. cbn [fst snd] in *.
  rewrite Hfit. cbn [negb].
  destruct (timestamp (tz st) (PlayerLeaderboard.last_updated leaderboard))
    as [e|achieved_at] eqn:Hts; [left; split; [by eexists|done]|].
  destruct (update_leaderboard _ _ _ _) as [redis'|] eqn:Hup;
    [|left; split; [by eexists|done]].
  right. by exists leaderboard, achieved_at, redis'.
Qed.

(** No request changes the time zone of the process. *)
Lemma submit_score_tz (payload : SubmitScoreRequest) now st :
  tz (snd (submit_score payload now st)) = tz st.
Proof.
  unfold submit_score.
  destruct (playerinfo (db st) !! player_id payload); [|done].
  destruct (upsert_best _ _ _ _).
  destruct (negb (fits_Integer (score payload))); [done|].
  destruct (timestamp _ _); [done|].
  by destruct (update_leaderboard _ _ _ _).
Qed.

(** Everything but a successful [signup] and a committed [submit_score]
    leaves the state as it is. *)
Lemma handle_cases (req : Request) now st :
  handle req now st = st
  \/ (exists p new_id h,
        req = Signup p new_id h
        /\ valid_SignupRequest p = true
        /\ ~ registered (signup_phone_or_email p) (db st)
        /\ playerinfo (db st) !! new_id = None
        /\ playerleaderboard (db st) !! new_id = None
        /\ handle req now st
           = mkState (signed_up p new_id h now (db st)) (redis st) (tz st))
  \/ (exists payload,
        req = SubmitScore payload
        /\ 0 <= score payload <= INT4_MAX
        /\ is_Some (playerinfo (db st) !! player_id payload)
        /\ handle req now st = snd (submit_score payload now st)
        /\ db (handle req now st) = committed payload now st).
Proof.
  unfold handle. destruct (valid_Request req) eqn:Hv; [|by left].
  destruct req as [p new_id h|p ok|payload|n|pid|pid limit]; cbn [snd].
  - destruct (signup_cases p new_id h now st)
      as [[_ ->] | [(_ & _ & e & ->) | (Hc & _ & Hp & Hl & ->)]];
      [by left..|].
    right; left. by exists p, new_id, h.
  - left. unfold login. by repeat case_match.
  - destruct (submit_score_cases payload now st)
      as [-> | (Hp & Hfit & Hdb & _)]; [by left|].
    right; right. exists payload. cbn in Hv.
    unfold valid_SubmitScoreRequest in Hv. unfold fits_Integer in Hfit.
    repeat split; [lia | lia | done..].
  - left. unfold get_top_leaderboard. by case_match.
  - left. unfold get_player_profile. by repeat case_match.
  - left. unfold get_player_history. by case_match.
Qed.

Lemma handle_tz (req : Request) now st : tz (handle req now st) = tz st.
Proof.
  destruct (handle_cases req now st)
    as [-> | [(p & new_id & h & _ & _ & _ & _ & _ & ->)
             | (payload & _ & _ & _ & -> & _)]]; [done|done|].
  apply submit_score_tz.
Qed.

End Steps.

(** * Signup and login *)

(** X1. [signup] with a contact that is already registered is answered with
    400 "User already exists" and changes nothing. *)
Theorem signup_duplicate_contact_rejected :
  forall (payload : SignupRequest) (new_id : UUID) (h : string)
         (now : datetime) (st : State),
    registered (signup_phone_or_email payload) (db st) ->
    signup payload new_id h now st
    = (HTTPException 400 "User already exists", st).
Proof.
  intros payload new_id h now st Hreg.
  destruct (signup_cases payload new_id h now st)
    as [[_ E] | [(Hn & _) | (Hn & _)]]; done.
Qed.

Lemma signup_duplicate_contact_rejected_witness :
  signup alice 2%N "h2" 200 (handle (Signup alice 1%N "h") 100 empty_state)
  = (HTTPException 400 "User already exists",
     handle (Signup alice 1%N "h") 100 empty_state).
Proof.
  apply (signup_duplicate_contact_rejected alice 2%N "h2" 200
           (handle (Signup alice 1%N "h") 100 empty_state)).
  exists 1%N, (PlayerInfo.mk "Alice" "alice" "h" 100). by vm_compute.
Defined.

Section SignupLogin.

Implicit Types (st : State) (l : Ledger) (now : datetime) (pid : UUID).

Lemma signed_up_registered (payload : SignupRequest) new_id (h : string) now l :
  registered (signup_phone_or_email payload)
             (signed_up payload new_id h now l).
Proof.
  eexists new_id, _. cbn. split; [apply lookup_insert_eq | done].
Qed.

(** The player [login] finds for a contact that a single player holds. *)
Lemma login_finds contact l pid player :
  playerinfo l !! pid = Some player ->
  PlayerInfo.phone_or_email player = contact ->
  (forall pid' player',
     playerinfo l !! pid' = Some player' ->
     PlayerInfo.phone_or_email player' = contact -> pid' = pid) ->
  exists i,
    list_find (λ kv, PlayerInfo.phone_or_email (snd kv) = contact)
              (map_to_list (playerinfo l))
    = Some (i, (pid, player)).
Proof.
  intros Hp Hc Huniq.
  destruct (list_find _ (map_to_list (playerinfo l))) as [[i [q x]]|] eqn:Hf.
  - apply list_find_Some in Hf as (Hi & Hx & _). cbn in Hx.
    apply list_elem_of_lookup_2, elem_of_map_to_list in Hi.
    pose proof (Huniq q x Hi Hx) as ->.
    assert (x = player) as -> by congruence. by exists i.
  - exfalso. apply list_find_None in Hf.
    rewrite Forall_forall in Hf. apply (Hf (pid, player)); [|done].
    by apply elem_of_map_to_list.
Qed.

End SignupLogin.

(** X2. [signup] answers "Signup successful" exactly when no player holds
    the contact, none of the strings it sends to the database contains NUL
    and the id drawn is new.  After such a [signup] the contact is
    registered: a [login] with it (and a password that verifies) returns the
    new player's id and name, and a second [signup] with the same contact is
    answered with 400. *)
Theorem signup_then_login :
  forall (payload : SignupRequest) (new_id : UUID) (h : string)
         (now : datetime) (st : State),
    let st' := snd (signup payload new_id h now st) in
    (fst (signup payload new_id h now st)
     = OK "Signup successful. Please log in."
     <-> ~ registered (signup_phone_or_email payload) (db st)
         /\ NUL_free payload h
         /\ playerinfo (db st) !! new_id = None
         /\ playerleaderboard (db st) !! new_id = None)
    /\ (fst (signup payload new_id h now st)
        = OK "Signup successful. Please log in." ->
        (forall password,
           login (mkLoginRequest (signup_phone_or_email payload) password)
                 true st'
           = (OK (mkLoginResponse new_id (signup_name payload)), st'))
        /\ (forall other_id h' now',
              signup payload other_id h' now' st'
              = (HTTPException 400 "User already exists", st'))).
Proof.
  intros payload new_id h now st st'. subst st'.
  destruct (signup_cases payload new_id h now st)
    as [[Hreg E] | [(Hfree & Hbad & e & E)
                   | (Hfree & Hnul & Hp & Hl & E)]];
    rewrite E; cbn [fst snd].
  - split; [|done]. split; [done|]. by intros (Hn & _).
  - split; [|done]. split; [done|]. intros (_ & Hn & Hp & Hl).
    destruct Hbad as [Hbad | [[x Hx] | [x Hx]]]; [done|congruence..].
  - split; [done|]. intros _. split.
    + intros password. unfold login. cbn [db login_phone_or_email].
      destruct Hnul as (-> & _).
      set (player := PlayerInfo.mk (signup_name payload)
                       (signup_phone_or_email payload) h now).
      destruct (login_finds (signup_phone_or_email payload)
                  (signed_up payload new_id h now (db st)) new_id player)
        as [i ->]; [apply lookup_insert_eq | done | | done].
      intros pid' player' Hp' Hc'. cbn in Hp'.
      destruct (decide (new_id = pid')) as [|Hne]; [done|].
      rewrite lookup_insert_ne in Hp' by done.
      exfalso. apply Hfree. by exists pid', player'.
    + intros other_id h' now'.
      destruct (signup_cases payload other_id h' now'
                  (mkState (signed_up payload new_id h now (db st)) (redis st)
                           (tz st)))
        as [[_ E'] | [(Hn & _) | (Hn & _)]]; [done|..];
        exfalso; apply Hn; apply signed_up_registered.
Qed.

Lemma signup_then_login_witness :
  login (mkLoginRequest "alice" "password123") true
        (snd (signup alice 1%N "h" 100 empty_state))
  = (OK (mkLoginResponse 1%N "Alice"),
     snd (signup alice 1%N "h" 100 empty_state)).
Proof.
  apply (proj2 (signup_then_login alice 1%N "h" 100 empty_state)).
  reflexivity.
Defined.

(** X3. [login] never changes the state.  For a contact that contains NUL
    the query raises [ValueError].  Otherwise it answers 401 "Invalid
    credentials" when the password does not verify or no player holds the
    contact, and else returns the id and name of a player who holds it. *)
Theorem login_outcome :
  forall (payload : LoginRequest) (password_ok : bool) (st : State),
    snd (login payload password_ok st) = st
    /\ (has_NUL (login_phone_or_email payload) = true ->
        fst (login payload password_ok st) = Unhandled "ValueError")
    /\ (has_NUL (login_phone_or_email payload) = false ->
        password_ok = false
        \/ ~ registered (login_phone_or_email payload) (db st) ->
        fst (login payload password_ok st)
        = HTTPException 401 "Invalid credentials")
    /\ (has_NUL (login_phone_or_email payload) = false ->
        password_ok = true ->
        registered (login_phone_or_email payload) (db st) ->
        exists pid player,
          playerinfo (db st) !! pid = Some player
          /\ PlayerInfo.phone_or_email player = login_phone_or_email payload
          /\ fst (login payload password_ok st)
             = OK (mkLoginResponse pid (PlayerInfo.name player))).
Proof.
  intros payload ok st. unfold login.
  destruct (has_NUL (login_phone_or_email payload)) eqn:Hnul; [done|].
  destruct (list_find _ _) as [[i [pid player]]|] eqn:Hf.
  - apply list_find_Some in Hf as (Hi & Hc & _). cbn in Hc.
    apply list_elem_of_lookup_2, elem_of_map_to_list in Hi.
    split; [by destruct ok|]. split; [done|]. split.
    + intros _ [-> | Hn]; [done|]. exfalso. apply Hn. by exists pid, player.
    + intros _ -> _. by exists pid, player.
  - apply list_find_None in Hf. rewrite Forall_forall in Hf.
    split; [done|]. split; [done|]. split; [done|].
    intros _ _ (pid & player & Hp & Hc). exfalso.
    apply (Hf (pid, player)); [by apply elem_of_map_to_list | done].
Qed.

Lemma login_outcome_witness :
  fst (login (mkLoginRequest "bob" "password123") true
         (snd (signup alice 1%N "h" 100 empty_state)))
  = HTTPException 401 "Invalid credentials".
Proof.
  apply (login_outcome (mkLoginRequest "bob" "password123") true
           (snd (signup alice 1%N "h" 100 empty_state))).
  - reflexivity.
  - right. apply (proj1 (contact_taken_not_registered _ _)). by vm_compute.
Defined.

(** * Invariants of the ledger *)

Section LedgerInvariants.

Implicit Types (st : State) (l : Ledger) (now c : datetime) (pid : UUID).

Lemma committed_playerinfo (payload : SubmitScoreRequest) now st :
  playerinfo (committed payload now st) = playerinfo (db st).
Proof. done. Qed.

Lemma reachable_unique_contacts c st :
  reachable c st -> unique_contacts (db st).
Proof.
  induction 1 as [c zone | c st req now Hr IH Hle].
  - intros p1 p2 a b Ha. cbn in Ha. by rewrite lookup_empty in Ha.
  - destruct (handle_cases req now st)
      as [-> | [(p & new_id & h & _ & _ & Hfree & Hp & _ & ->)
               | (payload & _ & _ & _ & _ & ->)]]; [done| |done].
    intros p1 p2 a b Ha Hb Hc. cbn in Ha, Hb.
    destruct (decide (new_id = p1)) as [<-|H1];
      destruct (decide (new_id = p2)) as [<-|H2]; [done|..].
    + rewrite lookup_insert_eq in Ha. rewrite lookup_insert_ne in Hb by done.
      injection Ha as <-. cbn in Hc. exfalso. apply Hfree. by exists p2, b.
    + rewrite lookup_insert_eq in Hb. rewrite lookup_insert_ne in Ha by done.
      injection Hb as <-. cbn in Hc. exfalso. apply Hfree. by exists p1, a.
    + rewrite lookup_insert_ne in Ha, Hb by done. by apply (IH p1 p2 a b).
Qed.

Lemma reachable_foreign_keys c st :
  reachable c st -> foreign_keys (db st).
Proof.
  induction 1 as [c zone | c st req now Hr [IHl IHh] Hle].
  - split; [|constructor]. intros pid [r Hr]. cbn in Hr.
    by rewrite lookup_empty in Hr.
  - destruct (handle_cases req now st)
      as [-> | [(p & new_id & h & _ & _ & Hfree & Hp & Hl & ->)
               | (payload & _ & _ & Hpl & _ & ->)]]; [done|..].
    + split; cbn.
      * intros pid. destruct (decide (new_id = pid)) as [<-|Hne].
        -- rewrite !lookup_insert_eq. by eexists.
        -- rewrite !lookup_insert_ne by done. apply IHl.
      * eapply Forall_impl; [exact IHh|]. cbn. intros e [x Hx].
        destruct (decide (new_id = ScoreHistory.player_id e)) as [<-|Hne].
        -- rewrite lookup_insert_eq. by eexists.
        -- rewrite lookup_insert_ne by done. by eexists.
    + split; cbn.
      * intros pid. destruct (decide (player_id payload = pid)) as [<-|Hne].
        -- done.
        -- rewrite upsert_best_other by done. apply IHl.
      * apply Forall_app. split; [done|]. by repeat constructor.
Qed.

Lemma reachable_history_ids c st :
  reachable c st -> history_ids (db st).
Proof.
  induction 1 as [c zone | c st req now Hr [IHs IHb] Hle].
  - split; constructor.
  - destruct (handle_cases req now st)
      as [-> | [(p & new_id & h & _ & _ & _ & _ & _ & ->)
               | (payload & _ & _ & _ & _ & ->)]]; [done|done|].
    split; cbn.
    + apply StronglySorted_app_2; [|done|by repeat constructor].
      intros x1 x2 H1 ->%list_elem_of_singleton. cbn.
      rewrite Forall_forall in IHb. by apply IHb.
    + apply Forall_app. split.
      * eapply Forall_impl; [exact IHb|]. cbn. intros. lia.
      * repeat constructor. cbn. lia.
Qed.

(** A request keeps the history rows that are there, in their order. *)
Lemma handle_history_prefix (req : Request) now st :
  score_history (db st) `prefix_of` score_history (db (handle req now st)).
Proof.
  destruct (handle_cases req now st)
    as [-> | [(p & new_id & h & _ & _ & _ & _ & _ & ->)
             | (payload & _ & _ & _ & _ & ->)]]; [done|done|].
  cbn. by apply prefix_app_r.
Qed.

Lemma filter_none {A} (P : A -> Prop) `{!forall x, Decision (P x)}
  (xs : list A) :
  Forall (λ x, ~ P x) xs -> filter P xs = [].
Proof.
  induction 1 as [|x xs Hx _ IH]; [done|]. by rewrite filter_cons_False.
Qed.

Lemma history_of_snoc pid l (e : ScoreHistory.t) (seq : Z) pi tbl :
  history_of pid (mkLedger pi tbl (score_history l ++ [e]) seq)
  = history_of pid l
    ++ (if decide (ScoreHistory.player_id e = pid)
        then [(ScoreHistory.score e, ScoreHistory.created_at e)] else []).
Proof.
  unfold history_of. cbn [score_history].
  rewrite filter_app, map_app. f_equal.
  rewrite filter_cons, filter_nil. by case_decide.
Qed.

Lemma max_from_snoc b (subs : list submission) (x : submission) :
  max_from b (subs ++ [x]) = Z.max (fst x) (max_from b subs).
Proof.
  unfold max_from. rewrite foldr_app. cbn [foldr].
  fold (max_from (Z.max (fst x) b) subs). fold (max_from b subs).
  apply max_from_max.
Qed.

(** The scores of the history and the best scores stay in the range that
    validation and the column type allow. *)
Lemma reachable_scores_valid c st :
  reachable c st ->
  Forall (λ e, 0 <= ScoreHistory.score e <= INT4_MAX) (score_history (db st))
  /\ (forall pid r,
        playerleaderboard (db st) !! pid = Some r ->
        0 <= PlayerLeaderboard.best_score r <= INT4_MAX).
Proof.
  induction 1 as [c zone | c st req now Hr [IHh IHb] Hle].
  - split; [constructor|]. intros pid r Hl. cbn in Hl.
    by rewrite lookup_empty in Hl.
  - split.
    + destruct (handle_cases req now st)
        as [-> | [(p & new_id & h & _ & _ & _ & _ & _ & ->)
                 | (payload & _ & Hs & _ & _ & ->)]]; [done|done|].
      cbn. apply Forall_app. split; [done|].
      constructor; [by cbn | constructor].
    + intros pid r Hl.
      destruct (handle_row req now st pid) as [E | [H | H]].
      * rewrite E in Hl. by apply (IHb pid).
      * destruct H as (? & ? & _ & _ & E). rewrite E in Hl.
        injection Hl as <-. cbn. unfold INT4_MAX. lia.
      * destruct H as (payload & -> & _ & _ & E & _). rewrite E in Hl.
        injection Hl as <-. cbn.
        destruct (handle_cases (SubmitScore payload) now st)
          as [E' | [(? & ? & ? & ? & _) | (? & [= <-] & Hs & _)]];
          [|done|done].
        rewrite E' in E. specialize (IHb pid _ E). done.
Qed.

(** The best score of a player is the largest score of the player's
    history, and 0 without submissions. *)
Lemma reachable_best_is_history_max c st pid r :
  reachable c st ->
  playerleaderboard (db st) !! pid = Some r ->
  PlayerLeaderboard.best_score r = max_from 0 (history_of pid (db st)).
Proof.
  intros Hr. revert r.
  induction Hr as [c zone | c st req now Hr IH Hle]; intros r Hl.
  - cbn in Hl. by rewrite lookup_empty in Hl.
  - pose proof (reachable_foreign_keys c st Hr) as [Hfk1 Hfk2].
    destruct (handle_cases req now st)
      as [E | [(p & new_id & h & _ & _ & _ & Hp & Hnone & E)
               | (payload & _ & _ & Hpl & _ & E)]];
      rewrite E in Hl |- *; clear E.
    + by apply IH.
    + cbn in Hl.
      change (history_of pid
                (db (mkState (signed_up p new_id h now (db st)) (redis st)
                         (tz st))))
        with (history_of pid (db st)).
      destruct (decide (new_id = pid)) as [<-|Hne].
      * rewrite lookup_insert_eq in Hl. injection Hl as <-. cbn.
        assert (history_of new_id (db st) = []) as ->; [|done].
        unfold history_of.
        assert (filter (λ e, ScoreHistory.player_id e = new_id)
                       (score_history (db st)) = []) as ->; [|done].
        apply filter_none. eapply Forall_impl; [exact Hfk2|]. cbn.
        intros e [x Hx] E. rewrite E in Hx. congruence.
      * rewrite lookup_insert_ne in Hl by done. by apply IH.
    + unfold committed in *. cbn [playerleaderboard] in Hl.
      rewrite history_of_snoc. cbn [ScoreHistory.player_id].
      destruct (decide (player_id payload = pid)) as [<-|Hne].
      * rewrite max_from_snoc. cbn [fst ScoreHistory.score].
        destruct (reachable_player_has_row c st (player_id payload) Hr Hpl)
          as [r0 Hr0].
        rewrite upsert_best_raise, Hr0 in Hl. cbn [raise_best fst snd] in Hl.
        rewrite <- (IH r0 Hr0).
        destruct (Z.ltb_spec (PlayerLeaderboard.best_score r0) (score payload));
          injection Hl as <-; cbn; lia.
      * rewrite upsert_best_other in Hl by done.
        rewrite app_nil_r. by apply IH.
Qed.

End LedgerInvariants.

Lemma two_players_reachable : reachable 1790000001000000 two_players.
Proof.
  change two_players
    with (handle (SubmitScore (mkSubmitScoreRequest 2%N 50)) 1790000001000000
            (handle (SubmitScore (mkSubmitScoreRequest 1%N 100))
               1790000000000000
               (handle (Signup bob 2%N "h") 200
                  (handle (Signup alice 1%N "h") 100 empty_state)))).
  apply reachable_step with (c := 1790000000000000); [|lia].
  apply reachable_step with (c := 200); [|lia].
  apply reachable_step with (c := 100); [|lia].
  apply reachable_step with (c := 0); [constructor | lia].
Qed.

(** X4. In every state reachable through the endpoints no two players share a
    [phone_or_email]: the check at the head of [signup] keeps the unique
    constraint of the column. *)
Theorem contacts_stay_unique :
  forall (c : datetime) (st : State),
    reachable c st -> unique_contacts (db st).
Proof. exact reachable_unique_contacts. Qed.

Lemma contacts_stay_unique_witness : unique_contacts (db two_players).
Proof.
  apply (contacts_stay_unique 1790000001000000 two_players).
  exact two_players_reachable.
Defined.

(** X5. In every reachable state the foreign keys hold: every best-score row
    and every score-history row belongs to a player of [playerinfo]. *)
Theorem foreign_keys_hold :
  forall (c : datetime) (st : State),
    reachable c st -> foreign_keys (db st).
Proof. exact reachable_foreign_keys. Qed.

Lemma foreign_keys_hold_witness : foreign_keys (db two_players).
Proof.
  apply (foreign_keys_hold 1790000001000000 two_players).
  exact two_players_reachable.
Defined.

(** X6. The score history is append-only: whatever the state, a request keeps
    the rows that are there, unchanged and in order, at the front of the
    table; and in every reachable state the ids grow strictly with the
    insertion order and stay below the sequence. *)
Theorem score_history_append_only :
  forall (st : State) (req : Request) (now : datetime),
    score_history (db st) `prefix_of` score_history (db (handle req now st))
    /\ (forall c, reachable c st -> history_ids (db st)).
Proof.
  intros st req now. split.
  - apply handle_history_prefix.
  - intros c. apply reachable_history_ids.
Qed.

Lemma score_history_append_only_witness : history_ids (db two_players).
Proof.
  apply (proj2 (score_history_append_only two_players
                  (GetTopLeaderboard 10) 0) 1790000001000000).
  exact two_players_reachable.
Defined.

(** X7. In every reachable state the [best_score] of a player is the largest
    score in the player's score history (0 if there is none), and lies
    between 0 and [2^31 - 1]. *)
Theorem best_score_is_history_maximum :
  forall (c : datetime) (st : State) (pid : UUID) (r : PlayerLeaderboard.t),
    reachable c st ->
    playerleaderboard (db st) !! pid = Some r ->
    PlayerLeaderboard.best_score r = max_from 0 (history_of pid (db st))
    /\ 0 <= PlayerLeaderboard.best_score r <= INT4_MAX.
Proof.
  intros c st pid r Hr Hl. split.
  - by apply reachable_best_is_history_max with (c := c).
  - by apply (proj2 (reachable_scores_valid c st Hr) pid).
Qed.

Lemma best_score_is_history_maximum_witness :
  PlayerLeaderboard.best_score (PlayerLeaderboard.mk 100 1790000000000000)
  = max_from 0 (history_of 1%N (db two_players))
  /\ 0 <= PlayerLeaderboard.best_score
            (PlayerLeaderboard.mk 100 1790000000000000) <= INT4_MAX.
Proof.
  apply (best_score_is_history_maximum 1790000001000000 two_players 1%N).
  - exact two_players_reachable.
  - reflexivity.
Defined.

(** * The history endpoint *)

#[local] Instance newer_first_total : Total newer_first.
Proof. intros a b. unfold newer_first. lia. Qed.

#[local] Instance newer_first_trans : Transitive newer_first.
Proof. intros a b c. unfold newer_first. lia. Qed.

(** X8. [get_player_history] changes nothing and answers 404 for an unknown
    player.  For a known player it returns the [limit] newest score-history
    rows of that player, newest first: the rows returned, followed by the
    rows left out, are the player's rows sorted by [created_at] descending,
    and [min limit (number of rows)] of them are returned. *)
Theorem get_player_history_newest_first :
  forall (pid : UUID) (limit : Z) (st : State),
    snd (get_player_history pid limit st) = st
    /\ (playerinfo (db st) !! pid = None ->
        fst (get_player_history pid limit st)
        = HTTPException 404 "Player not found")
    /\ (forall player,
          playerinfo (db st) !! pid = Some player ->
          0 <= limit ->
          exists scores rest,
            fst (get_player_history pid limit st)
            = OK (mkPlayerHistoryResponse pid (PlayerInfo.name player)
                    (map (λ s, mkScoreHistoryItem (ScoreHistory.score s)
                                                  (ScoreHistory.created_at s))
                         scores))
            /\ scores ++ rest
               ≡ₚ filter (λ e, ScoreHistory.player_id e = pid)
                         (score_history (db st))
            /\ StronglySorted newer_first (scores ++ rest)
            /\ Z.of_nat (length scores)
               = Z.min limit
                   (Z.of_nat
                      (length (filter (λ e, ScoreHistory.player_id e = pid)
                                      (score_history (db st)))))).
Proof.
  intros pid limit st. unfold get_player_history.
  destruct (playerinfo (db st) !! pid) as [player|] eqn:Hp;
    (split; [done|]); (split; [done|]); [|done].
  intros ? [= <-] Hlimit.
  set (rows := filter (λ e, ScoreHistory.player_id e = pid)
                      (score_history (db st))).
  exists (take (Z.to_nat limit) (merge_sort newer_first rows)),
         (drop (Z.to_nat limit) (merge_sort newer_first rows)).
  split; [done|]. rewrite take_drop.
  split; [apply merge_sort_Permutation|].
  split; [apply StronglySorted_merge_sort; apply _|].
  rewrite length_take, (Permutation_length (merge_sort_Permutation _ rows)).
  lia.
Qed.

Lemma get_player_history_newest_first_witness :
  fst (get_player_history 7%N 10 two_players)
  = HTTPException 404 "Player not found".
Proof.
  apply (get_player_history_newest_first 7%N 10 two_players).
  reflexivity.
Defined.

(** * More on [submit_score] *)

Section Submit.

Implicit Types (st : State) (payload : SubmitScoreRequest) (now : datetime).
Implicit Types (pid : UUID) (r : Redis).

Lemma update_leaderboard_Some pid (best_score : Z) (achieved_at : PyFloat.float)
  r r' :
  update_leaderboard pid best_score achieved_at r = Some r' ->
  exists ts_ms encoded,
    PyFloat.int_of_float (PyFloat.mul achieved_at (PyFloat.of_Z 1000))
    = Some ts_ms
    /\ _encode_score_with_tiebreaker best_score ts_ms = Some encoded
    /\ r' = mkRedis (<[pid := encoded]> (GLOBAL_LEADERBOARD r))
                    (<[pid := (best_score, ts_ms)]> (PLAYER_META r)).
Proof.
  unfold update_leaderboard, zadd.
  destruct (PyFloat.int_of_float _) as [ts_ms|] eqn:Hts; [|done].
  cbn [mbind option_bind].
  destruct (_encode_score_with_tiebreaker best_score ts_ms)
    as [encoded|] eqn:Henc; [|done].
  cbn [mbind option_bind]. intros [= <-]. exists ts_ms, encoded.
  split; [done|]. split; done.
Qed.

Lemma update_leaderboard_other pid pid' (best_score : Z)
  (achieved_at : PyFloat.float) r r' :
  update_leaderboard pid best_score achieved_at r = Some r' ->
  pid ≠ pid' ->
  GLOBAL_LEADERBOARD r' !! pid' = GLOBAL_LEADERBOARD r !! pid'
  /\ PLAYER_META r' !! pid' = PLAYER_META r !! pid'.
Proof.
  intros (ts_ms & encoded & _ & _ & ->)%update_leaderboard_Some Hne. cbn.
  by rewrite !lookup_insert_ne.
Qed.

(** The Redis entries of the other players after [submit_score]. *)
Lemma submit_score_redis_other payload now st pid :
  player_id payload ≠ pid ->
  GLOBAL_LEADERBOARD (redis (snd (submit_score payload now st))) !! pid
  = GLOBAL_LEADERBOARD (redis st) !! pid
  /\ PLAYER_META (redis (snd (submit_score payload now st))) !! pid
     = PLAYER_META (redis st) !! pid.
Proof.
  intros Hne.
  destruct (submit_score_cases payload now st)
    as [-> | (_ & _ & _ & [[_ ->] | (row & a & r' & _ & _ & Hup & _ & ->)])];
    [done|done|].
  by apply (update_leaderboard_other _ _ _ _ _ _ Hup).
Qed.

End Submit.

(** X9. A submission touches only its own player: it never changes
    [playerinfo], and for every other player the best-score row, the entry of
    the rank index and the Redis hash stay as they were. *)
Theorem submit_score_leaves_other_players :
  forall (payload : SubmitScoreRequest) (now : datetime) (st : State)
         (pid : UUID),
    let st' := snd (submit_score payload now st) in
    playerinfo (db st') = playerinfo (db st)
    /\ (player_id payload ≠ pid ->
        playerleaderboard (db st') !! pid = playerleaderboard (db st) !! pid
        /\ GLOBAL_LEADERBOARD (redis st') !! pid
           = GLOBAL_LEADERBOARD (redis st) !! pid
        /\ PLAYER_META (redis st') !! pid = PLAYER_META (redis st) !! pid).
Proof.
  intros payload now st pid st'. subst st'. split.
  - by destruct (submit_score_ledger payload now st) as [-> | [_ ->]].
  - intros Hne. split; [|by apply submit_score_redis_other].
    destruct (submit_score_ledger payload now st) as [-> | [_ ->]]; [done|].
    cbn. by apply upsert_best_other.
Qed.

Lemma submit_score_leaves_other_players_witness :
  playerleaderboard
    (db (snd (submit_score (mkSubmitScoreRequest 1%N 500) 1790000002000000
                two_players))) !! 2%N
  = playerleaderboard (db two_players) !! 2%N.
Proof.
  apply (submit_score_leaves_other_players (mkSubmitScoreRequest 1%N 500)
           1790000002000000 two_players 2%N).
  discriminate.
Defined.

(** X10. A committed submission that does not beat the stored best leaves the
    whole best-score table untouched and still appends its history row.  In
    particular, submitting the same score a second time, at whatever time,
    changes no best-score row. *)
Theorem submit_score_not_better_keeps_row :
  forall (payload : SubmitScoreRequest) (now : datetime) (st : State),
    is_Some (playerinfo (db st) !! player_id payload) ->
    fits_Integer (score payload) = true ->
    (forall r,
       playerleaderboard (db st) !! player_id payload = Some r ->
       score payload <= PlayerLeaderboard.best_score r ->
       playerleaderboard (db (snd (submit_score payload now st)))
       = playerleaderboard (db st)
       /\ length (score_history (db (snd (submit_score payload now st))))
          = S (length (score_history (db st))))
    /\ (forall now',
          let st1 := snd (submit_score payload now st) in
          playerleaderboard (db (snd (submit_score payload now' st1)))
          = playerleaderboard (db st1)).
Proof.
  intros payload now st Hp Hfit.
  assert (forall now0 st0 r,
            is_Some (playerinfo (db st0) !! player_id payload) ->
            playerleaderboard (db st0) !! player_id payload = Some r ->
            score payload <= PlayerLeaderboard.best_score r ->
            playerleaderboard (db (snd (submit_score payload now0 st0)))
            = playerleaderboard (db st0)
            /\ length (score_history (db (snd (submit_score payload now0 st0))))
               = S (length (score_history (db st0)))) as Hkeep.
  { intros now0 st0 r Hp0 Hr Hle.
    rewrite (submit_score_commits _ _ _ Hp0 Hfit). unfold committed. cbn.
    split; [|rewrite length_app; cbn; lia].
    unfold upsert_best. rewrite Hr.
    by destruct (Z.ltb_spec (PlayerLeaderboard.best_score r) (score payload));
      [lia|]. }
  split; [intros r; by apply Hkeep|].
  intros now' st1. subst st1.
  assert (is_Some (playerinfo (db (snd (submit_score payload now st)))
                   !! player_id payload)) as Hp1.
  { by rewrite (submit_score_commits _ _ _ Hp Hfit). }
  pose proof (upsert_best_cases (player_id payload) (score payload) now
                (playerleaderboard (db st))) as Hc.
  assert (exists r1,
            playerleaderboard (db (snd (submit_score payload now st)))
              !! player_id payload = Some r1
            /\ score payload <= PlayerLeaderboard.best_score r1)
    as (r1 & Hr1 & Hle1).
  { rewrite (submit_score_commits _ _ _ Hp Hfit). unfold committed. cbn.
    destruct (playerleaderboard (db st) !! player_id payload) as [r|] eqn:Hl.
    - destruct Hc as [[_ ->] | [Hle ->]].
      + eexists. split; [done|]. cbn. lia.
      + exists r. done.
    - rewrite Hc. eexists. split; [done|]. cbn. lia. }
  by apply (Hkeep now' _ r1).
Qed.

Lemma submit_score_not_better_keeps_row_witness :
  playerleaderboard
    (db (snd (submit_score (mkSubmitScoreRequest 1%N 100) 1790000003000000
                (snd (submit_score (mkSubmitScoreRequest 1%N 100)
                        1790000002000000 two_players)))))
  = playerleaderboard
      (db (snd (submit_score (mkSubmitScoreRequest 1%N 100)
                  1790000002000000 two_players))).
Proof.
  apply (submit_score_not_better_keeps_row (mkSubmitScoreRequest 1%N 100)
           1790000002000000 two_players).
  - vm_compute. eexists. reflexivity.
  - reflexivity.
Defined.

(** * The Redis mirror *)

Section Mirror.

Implicit Types (st : State) (payload : SubmitScoreRequest) (now : datetime).
Implicit Types (pid : UUID) (r : Redis).

Lemma update_leaderboard_mirror (zone : TimeZone) pid
  (row : PlayerLeaderboard.t) (achieved_at : PyFloat.float) r r' :
  timestamp zone (PlayerLeaderboard.last_updated row) = inr achieved_at ->
  update_leaderboard pid (PlayerLeaderboard.best_score row) achieved_at r
  = Some r' ->
  exists encoded meta,
    mirror_of zone row = Some (encoded, meta)
    /\ GLOBAL_LEADERBOARD r' !! pid = Some encoded
    /\ PLAYER_META r' !! pid = Some meta.
Proof.
  intros Hts (ts_ms & encoded & Hint & Henc & ->)%update_leaderboard_Some.
  exists encoded, (PlayerLeaderboard.best_score row, ts_ms).
  split; [|split; cbn; apply lookup_insert_eq].
  unfold mirror_of, ts_ms_of. rewrite Hts, Hint. cbn [mbind option_bind].
  by rewrite Henc.
Qed.

Lemma committed_changes payload now st : committed payload now st ≠ db st.
Proof.
  intros E.
  assert (length (score_history (committed payload now st))
          = length (score_history (db st))) as Hlen by (by rewrite E).
  unfold committed in Hlen. cbn in Hlen. rewrite length_app in Hlen.
  cbn in Hlen. lia.
Qed.

Lemma submit_score_OK_inv payload now st (msg : string) :
  fst (submit_score payload now st) = OK msg ->
  is_Some (playerinfo (db st) !! player_id payload)
  /\ fits_Integer (score payload) = true.
Proof.
  unfold submit_score.
  destruct (playerinfo (db st) !! player_id payload); [|done].
  destruct (upsert_best _ _ _ _).
  destruct (fits_Integer (score payload)); [|done].
  intros _. split; [by eexists | done].
Qed.

Lemma submit_score_OK_mirrored payload now st (msg : string) :
  fst (submit_score payload now st) = OK msg ->
  mirrored_at (player_id payload) (snd (submit_score payload now st)).
Proof.
  intros Hok. pose proof (submit_score_OK_inv _ _ _ _ Hok) as [Hp Hfit].
  destruct (submit_score_cases payload now st)
    as [E | (_ & _ & Hdb & [[E _] | Hdone])].
  - exfalso. apply (committed_changes payload now st).
    by rewrite <- (submit_score_commits _ _ _ Hp Hfit), E.
  - destruct E as [e E]. congruence.
  - destruct Hdone as (row & a & r' & Hrow & Hts & Hup & _ & Hr).
    destruct (update_leaderboard_mirror _ _ _ _ _ _ Hts Hup)
      as (encoded & meta & Hm & Hi & Hmeta).
    exists row, encoded, meta. rewrite Hdb, Hr, submit_score_tz. done.
Qed.

Lemma signed_up_other_row (p : SignupRequest) new_id (h : string) now l pid :
  playerleaderboard l !! new_id = None ->
  is_Some (playerleaderboard l !! pid) ->
  playerleaderboard (signed_up p new_id h now l) !! pid
  = playerleaderboard l !! pid.
Proof.
  intros Hnone [r Hr]. cbn. apply lookup_insert_ne. congruence.
Qed.

Lemma handle_mirrored (req : Request) now st :
  mirrored st -> ~ mirror_raised req now st -> mirrored (handle req now st).
Proof.
  intros Hm Hraise.
  destruct (handle_cases req now st)
    as [-> | [(p & new_id & h & _ & _ & _ & _ & Hl & ->)
             | (payload & -> & _ & _ & -> & _)]]; [done|..].
  - intros pid Hin. destruct (Hm pid Hin) as (row & enc & meta & Hrow & Hrest).
    exists row, enc, meta. split; [|done]. cbn [db].
    rewrite signed_up_other_row; [done..|by eexists].
  - intros pid Hin.
    destruct (decide (player_id payload = pid)) as [<-|Hne].
    + destruct (submit_score_cases payload now st)
        as [E | (_ & _ & Hdb & [[[e E] _] | Hdone])].
      * rewrite E in Hin |- *. by apply Hm.
      * exfalso. apply Hraise. by exists payload, e.
      * destruct Hdone as (row & a & r' & _ & _ & _ & E & _).
        by apply (submit_score_OK_mirrored _ _ _ _ E).
    + destruct (submit_score_redis_other payload now st pid Hne) as [Ei Em].
      rewrite Ei in Hin.
      destruct (Hm pid Hin) as (row & enc & meta & Hrow & Hmir & Hi & Hme).
      exists row, enc, meta. rewrite submit_score_tz.
      destruct (submit_score_ledger payload now st) as [E | [_ E]];
        rewrite E, Ei, Em; [done|].
      cbn. by rewrite upsert_best_other.
Qed.

Lemma reachable_index_members_known c st :
  reachable c st -> index_members_known st.
Proof.
  induction 1 as [c zone | c st req now Hr IH Hle].
  - intros pid [x Hx]. cbn in Hx. by rewrite lookup_empty in Hx.
  - destruct (handle_cases req now st)
      as [-> | [(p & new_id & h & _ & _ & _ & _ & _ & ->)
               | (payload & -> & _ & Hp & -> & _)]]; [done|..].
    + intros pid Hin. destruct (IH pid Hin) as [[x Hx] [y Hy]]. cbn.
      split.
      * destruct (decide (new_id = pid)) as [<-|Hne];
          [rewrite lookup_insert_eq | rewrite lookup_insert_ne by done];
          by eexists.
      * destruct (decide (new_id = pid)) as [<-|Hne];
          [rewrite lookup_insert_eq | rewrite lookup_insert_ne by done];
          by eexists.
    + intros pid Hin.
      destruct (submit_score_ledger payload now st) as [E | [_ E]].
      * destruct (submit_score_cases payload now st)
          as [E' | (_ & _ & Hdb & _)].
        -- rewrite E' in Hin |- *. by apply IH.
        -- exfalso. rewrite Hdb in E.
           by apply (committed_changes payload now st).
      * rewrite E. cbn.
        destruct (decide (player_id payload = pid)) as [<-|Hne].
        -- split; [done|]. rewrite upsert_best_lookup. by eexists.
        -- destruct (submit_score_redis_other payload now st pid Hne) as [Ei _].
           rewrite Ei in Hin. rewrite upsert_best_other by done. by apply IH.
Qed.

End Mirror.

(** X11. When [submit_score] answers "Score submitted", the rank index holds
    for the player the encoding of the best-score row as the ledger has it
    after the call (its [best_score] and the millisecond timestamp of its
    [last_updated]), and the Redis hash holds that pair. *)
Theorem submit_score_mirrors_row :
  forall (payload : SubmitScoreRequest) (now : datetime) (st : State)
         (msg : string),
    fst (submit_score payload now st) = OK msg ->
    mirrored_at (player_id payload) (snd (submit_score payload now st)).
Proof. exact submit_score_OK_mirrored. Qed.

Lemma submit_score_mirrors_row_witness :
  mirrored_at 1%N
    (snd (submit_score (mkSubmitScoreRequest 1%N 500) 1790000002000000
            two_players)).
Proof.
  apply (submit_score_mirrors_row (mkSubmitScoreRequest 1%N 500)
           1790000002000000 two_players "Score submitted").
  by vm_compute.
Defined.

(** X12. The mirror stays in step with the ledger: if every member of the
    rank index holds the encoding of its best-score row, this is still so
    after any request, unless the mirror step of that [submit_score]
    raised. *)
Theorem mirror_stays_in_step :
  forall (req : Request) (now : datetime) (st : State),
    mirrored st -> ~ mirror_raised req now st -> mirrored (handle req now st).
Proof. exact handle_mirrored. Qed.

Lemma mirror_stays_in_step_witness :
  mirrored (handle (SubmitScore (mkSubmitScoreRequest 1%N 100))
              1790000000000000
              (handle (Signup alice 1%N "h") 100 empty_state)).
Proof.
  apply (mirror_stays_in_step (SubmitScore (mkSubmitScoreRequest 1%N 100))
           1790000000000000 (handle (Signup alice 1%N "h") 100 empty_state)).
  - intros pid [x Hx]. vm_compute in Hx. discriminate Hx.
  - intros (payload & e & [= <-] & Hraise & _). vm_compute in Hraise.
    discriminate Hraise.
Defined.

(** X13. [update_leaderboard] is last-write-wins per player: an update for a
    player overwrites what an earlier update for the same player left, so
    repeating an update changes nothing; entries of other players are not
    touched. *)
Theorem update_leaderboard_last_write_wins :
  forall (pid : UUID) (b1 b2 : Z) (a1 a2 : PyFloat.float) (r r1 r2 : Redis),
    update_leaderboard pid b1 a1 r = Some r1 ->
    update_leaderboard pid b2 a2 r = Some r2 ->
    update_leaderboard pid b2 a2 r1 = Some r2
    /\ forall pid', pid ≠ pid' ->
         GLOBAL_LEADERBOARD r2 !! pid' = GLOBAL_LEADERBOARD r !! pid'
         /\ PLAYER_META r2 !! pid' = PLAYER_META r !! pid'.
Proof.
  intros pid b1 b2 a1 a2 r r1 r2 H1 H2. split.
  - apply update_leaderboard_Some in H1 as (t1 & e1 & _ & _ & ->).
    pose proof H2 as (t2 & e2 & Ht2 & He2 & ->)%update_leaderboard_Some.
    unfold update_leaderboard, zadd. rewrite Ht2. cbn [mbind option_bind].
    rewrite He2. cbn. by rewrite !insert_insert_eq.
  - intros pid' Hne. by apply (update_leaderboard_other _ _ _ _ _ _ H2).
Qed.

Lemma update_leaderboard_last_write_wins_witness :
  update_leaderboard 1%N 50 (PyFloat.of_Z 1790000000)
    (mkRedis (zadd 1%N (PyFloat.of_Z (-1740000000000)) ∅)
             (<[1%N := (50, 1790000000000)]> ∅))
  = Some (mkRedis (zadd 1%N (PyFloat.of_Z (-1740000000000)) ∅)
                  (<[1%N := (50, 1790000000000)]> ∅)).
Proof.
  apply (update_leaderboard_last_write_wins 1%N 50 50
           (PyFloat.of_Z 1790000000) (PyFloat.of_Z 1790000000)
           (mkRedis ∅ ∅)); by vm_compute.
Defined.

(** X14. The endpoints create no index/ledger drift: in every reachable state
    every member of the rank index is a player with a best-score row. *)
Theorem index_members_are_players :
  forall (c : datetime) (st : State),
    reachable c st -> index_members_known st.
Proof. exact reachable_index_members_known. Qed.

Lemma index_members_are_players_witness : index_members_known two_players.
Proof.
  apply (index_members_are_players 1790000001000000 two_players).
  exact two_players_reachable.
Defined.

(** * The read endpoints *)

Section Reads.

Implicit Types (st : State) (pid : UUID) (entries : list zentry).
Implicit Types (info_map : gmap UUID (PlayerInfo.t * PlayerLeaderboard.t)).

Lemma zrevrange_take (z : gmap UUID PyFloat.float) (n : Z) :
  1 <= n -> zrevrange z 0 (n - 1) = take (Z.to_nat n) (zrev_entries z).
Proof.
  intros Hn. unfold zrevrange. generalize (zrev_entries z). intros l.
  change (0 <? 0) with false. cbv iota.
  rewrite (proj2 (Z.ltb_ge (n - 1) 0)) by lia. cbv iota.
  change (0 <? 0) with false. cbv iota.
  rewrite (proj2 (Z.ltb_ge (n - 1) 0)) by lia. cbn [orb].
  destruct (Z.leb_spec (Z.of_nat (length l)) 0) as [Hl|Hl].
  - destruct l; [by rewrite take_nil | cbn in Hl; lia].
  - cbn [Z.to_nat]. rewrite drop_0.
    destruct (Z.leb_spec (Z.of_nat (length l)) (n - 1)).
    + rewrite !take_ge; [done|lia..].
    + f_equal. lia.
Qed.

Lemma zrev_entries_length (z : gmap UUID PyFloat.float) :
  length (zrev_entries z) = size z.
Proof.
  rewrite (Permutation_length (zrev_entries_perm z)).
  apply length_map_to_list.
Qed.

Lemma top_items_length_le info_map idx entries :
  (length (top_items info_map idx entries) <= length entries)%nat.
Proof.
  revert idx. induction entries as [|[q sq] entries IH]; intros idx; cbn.
  - done.
  - specialize (IH (idx + 1)). destruct (info_map !! q) as [[p l]|]; cbn; lia.
Qed.

(** Without drift no entry is skipped: the items follow the entries one by
    one. *)
Lemma top_items_no_skip info_map idx entries :
  Forall (λ e, is_Some (info_map !! fst e)) entries ->
  map entry_rank (top_items info_map idx entries)
  = map (λ i, idx + Z.of_nat i) (seq 1 (length entries))
  /\ map entry_player_id (top_items info_map idx entries) = map fst entries.
Proof.
  revert idx. induction entries as [|[q sq] entries IH]; intros idx Hall.
  - done.
  - apply Forall_cons in Hall as [[[p l] Hq] Hall]. cbn in Hq.
    cbn [top_items]. rewrite Hq. cbn [map entry_rank entry_player_id].
    destruct (IH (idx + 1) Hall) as [-> ->]. split; [|done].
    cbn [map length seq]. f_equal.
    rewrite <- (seq_shift (length entries) 1), map_map. apply map_ext.
    intros i. lia.
Qed.

Lemma get_top_unfold (n : Z) st :
  get_top_leaderboard n st
  = (OK (mkLeaderboardResponse
           (Z.of_nat
              (length (top_items
                         (filter (λ kv, fst kv ∈ map fst
                                    (get_top_n_from_redis n (redis st)))
                                 (player_join (db st)))
                         0 (get_top_n_from_redis n (redis st)))))
           (top_items
              (filter (λ kv, fst kv ∈ map fst
                         (get_top_n_from_redis n (redis st)))
                      (player_join (db st)))
              0 (get_top_n_from_redis n (redis st)))), st).
Proof.
  unfold get_top_leaderboard.
  destruct (get_top_n_from_redis n (redis st)) as [|e entries] eqn:E; done.
Qed.

End Reads.

(** X15. Without index/ledger drift (every index member is a player with a
    best-score row, as in every reachable state) [get_top_leaderboard] with
    [n >= 1] skips nothing: it returns the first [min n (size of the index)]
    members of the index in descending order, with the ranks 1, 2, 3, ...
    without a gap. *)
Theorem get_top_without_drift :
  forall (n : Z) (st : State),
    index_members_known st ->
    1 <= n ->
    exists items,
      get_top_leaderboard n st
      = (OK (mkLeaderboardResponse (Z.of_nat (length items)) items), st)
      /\ contiguous_ranks items
      /\ map entry_player_id items
         = map fst (take (Z.to_nat n)
                         (zrev_entries (GLOBAL_LEADERBOARD (redis st))))
      /\ Z.of_nat (length items)
         = Z.min n (Z.of_nat (size (GLOBAL_LEADERBOARD (redis st)))).
Proof.
  intros n st Hknown Hn. rewrite get_top_unfold.
  unfold get_top_n_from_redis. rewrite zrevrange_take by done.
  set (z := GLOBAL_LEADERBOARD (redis st)).
  set (entries := take (Z.to_nat n) (zrev_entries z)).
  set (info_map := filter _ _).
  eexists. split; [reflexivity|].
  assert (Forall (λ e, is_Some (info_map !! fst e)) entries) as Hall.
  { apply Forall_forall. intros [pid sc] Hin. cbn.
    assert ((pid, sc) ∈ zrev_entries z) as Hz.
    { apply elem_of_take in Hin as (i & Hi & _).
      by apply list_elem_of_lookup_2 in Hi. }
    apply elem_of_zrev_entries in Hz.
    destruct (Hknown pid) as [[p Hp] [l Hl]]; [by eexists|].
    exists (p, l). apply info_map_lookup. split; [|done].
    by apply (list_elem_of_fmap_2 fst) in Hin. }
  destruct (top_items_no_skip info_map 0 entries Hall) as [Hranks Hids].
  assert (length (top_items info_map 0 entries) = length entries) as Hlen.
  { by rewrite <- (length_map entry_player_id), Hids, length_map. }
  split; [|split; [done|]].
  - unfold contiguous_ranks. rewrite Hranks, Hlen. apply map_ext.
    intros i. lia.
  - rewrite Hlen. unfold entries.
    rewrite length_take, zrev_entries_length. lia.
Qed.

Lemma get_top_without_drift_witness :
  exists items,
    get_top_leaderboard 10 two_players
    = (OK (mkLeaderboardResponse (Z.of_nat (length items)) items),
       two_players)
    /\ contiguous_ranks items
    /\ map entry_player_id items
       = map fst (take (Z.to_nat 10)
                       (zrev_entries (GLOBAL_LEADERBOARD (redis two_players))))
    /\ Z.of_nat (length items)
       = Z.min 10 (Z.of_nat (size (GLOBAL_LEADERBOARD (redis two_players)))).
Proof.
  apply (get_top_without_drift 10 two_players).
  - exact (reachable_index_members_known _ _ two_players_reachable).
  - lia.
Defined.

(** X16. For [n >= 1], [get_top_leaderboard] returns at most [n] items, and
    the rank it shows for a player is the rank [get_rank_from_redis] (and so
    the profile) reports for that player. *)
Theorem get_top_rank_agrees_with_get_rank :
  forall (n : Z) (st : State) (resp : LeaderboardResponse),
    1 <= n ->
    fst (get_top_leaderboard n st) = OK resp ->
    total resp = Z.of_nat (length (items resp))
    /\ total resp <= n
    /\ forall item,
         item ∈ items resp ->
         get_rank_from_redis (entry_player_id item) (redis st)
         = Some (entry_rank item).
Proof.
  intros n st resp Hn. rewrite get_top_unfold. cbn [fst]. intros [= <-].
  cbn [total items]. unfold get_top_n_from_redis.
  rewrite zrevrange_take by done.
  set (z := GLOBAL_LEADERBOARD (redis st)).
  set (entries := take (Z.to_nat n) (zrev_entries z)).
  split; [done|]. split.
  - pose proof (top_items_length_le
                  (filter (λ kv, fst kv ∈ map fst entries)
                          (player_join (db st))) 0 entries) as Hle.
    assert (length entries <= Z.to_nat n)%nat
      by (unfold entries; rewrite length_take; lia).
    lia.
  - intros item (i & pid & sc & p & l & Hi & _ & ->)%elem_of_top_items.
    cbn [entry_player_id entry_rank]. unfold get_rank_from_redis, zrevrank.
    fold z. unfold entries in Hi. apply lookup_take_Some in Hi as [Hi _].
    assert (index_of pid (zrev_entries z) = Some (Z.of_nat i)) as ->.
    { apply index_of_Some; [apply zrev_entries_NoDup|].
      split; [lia|]. exists sc. by rewrite Nat2Z.id. }
    f_equal; lia.
Qed.

Lemma get_top_rank_agrees_with_get_rank_witness :
  get_rank_from_redis 2%N (redis two_players) = Some 2.
Proof.
  apply (proj2 (proj2
           (get_top_rank_agrees_with_get_rank 10 two_players
              (mkLeaderboardResponse 2
                 [mkPlayerLeaderboardEntry 1 1%N "Alice" 100 1790000000000000;
                  mkPlayerLeaderboardEntry 2 2%N "Bob" 50 1790000001000000])
              ltac:(lia) ltac:(by vm_compute)))
           (mkPlayerLeaderboardEntry 2 2%N "Bob" 50 1790000001000000)).
  apply elem_of_cons. right. apply elem_of_cons. by left.
Defined.

(** X17. [get_player_profile] changes nothing and answers 404 when the
    player or the player's best-score row is missing.  A player fresh from
    [signup], in a state without drift, has a profile with [best_score] 0,
    the signup time as [last_updated] and no rank. *)
Theorem get_player_profile_edges :
  forall (pid : UUID) (st : State),
    snd (get_player_profile pid st) = st
    /\ (playerinfo (db st) !! pid = None
        \/ playerleaderboard (db st) !! pid = None ->
        fst (get_player_profile pid st)
        = HTTPException 404 "Player not found")
    /\ (forall (payload : SignupRequest) (h : string) (now : datetime),
          index_members_known st ->
          fst (signup payload pid h now st)
          = OK "Signup successful. Please log in." ->
          fst (get_player_profile pid (snd (signup payload pid h now st)))
          = OK (mkPlayerProfileResponse pid (signup_name payload)
                  (signup_phone_or_email payload) None 0 now)).
Proof.
  intros pid st. split; [|split].
  - unfold get_player_profile. by repeat case_match.
  - intros Hmiss. unfold get_player_profile, player_join.
    assert (map_zip (playerinfo (db st)) (playerleaderboard (db st)) !! pid
            = None) as ->; [|done].
    apply map_lookup_zip_with_None. tauto.
  - intros payload h now Hknown Hok.
    destruct (signup_cases payload pid h now st)
      as [[_ E] | [(_ & _ & e & E) | (_ & _ & Hp & Hl & E)]];
      rewrite E in Hok |- *; [done|done|]. cbn [snd].
    unfold get_player_profile, player_join. cbn [db signed_up playerinfo
                                                   playerleaderboard].
    erewrite (proj2 (map_lookup_zip_Some _ _ pid (_, _)));
      [|cbn; split; apply lookup_insert_eq].
    cbn. unfold get_rank_from_redis, zrevrank.
    assert (index_of pid (zrev_entries (GLOBAL_LEADERBOARD (redis st)))
            = None) as ->; [|done].
    apply index_of_None. intros [[q sq] [Hq Hin]]%list_elem_of_fmap.
    cbn in Hq. subst q. apply elem_of_zrev_entries in Hin.
    destruct (Hknown pid) as [[x Hx] _]; [by eexists | congruence].
Qed.

Lemma get_player_profile_edges_witness :
  fst (get_player_profile 1%N (snd (signup alice 1%N "h" 100 empty_state)))
  = OK (mkPlayerProfileResponse 1%N "Alice" "alice" None 0 100).
Proof.
  apply (get_player_profile_edges 1%N empty_state).
  - intros pid [x Hx]. cbn in Hx. rewrite lookup_empty in Hx. discriminate Hx.
  - reflexivity.
Defined.

(** * The sample players of [sample_data.py] *)

Section SampleData.

Implicit Types (draws : list submission) (r : Redis) (pid : UUID).

Lemma foldl_raise_sample (best : Z * datetime) draws :
  foldl raise_best (Some (PlayerLeaderboard.mk (fst best) (snd best))) draws
  = Some (PlayerLeaderboard.mk
            (fst (foldl (λ best draw,
                           if fst best <? fst draw then draw else best)
                        best draws))
            (snd (foldl (λ best draw,
                           if fst best <? fst draw then draw else best)
                        best draws))).
Proof.
  revert best. induction draws as [|[s t] draws IH]; intros [b bt]; [done|].
  cbn [foldl raise_best fst snd PlayerLeaderboard.best_score].
  destruct (b <? s); apply (IH (_, _)).
Qed.

Lemma sample_row_fold now0 draws :
  foldl raise_best (Some (PlayerLeaderboard.mk 0 now0)) draws
  = Some (sample_row now0 draws).
Proof. apply (foldl_raise_sample (0, now0)). Qed.

Lemma max_from_bounds b lo hi draws :
  lo <= b <= hi -> Forall (λ draw, lo <= fst draw <= hi) draws ->
  lo <= max_from b draws <= hi.
Proof.
  intros Hb. unfold max_from.
  induction 1 as [|x draws Hx _ IH]; cbn [foldr]; lia.
Qed.

Lemma max_score_randint draws :
  draws ≠ [] -> randint_10_200 draws ->
  max_score draws = Some (max_from 0 draws) /\ 10 <= max_from 0 draws <= 200.
Proof.
  destruct draws as [|[s t] draws]; [done|].
  intros _ [Hs Hr]%Forall_cons. cbn [fst] in Hs.
  assert (10 <= max_from s draws <= 200) as Hm by (by apply max_from_bounds).
  cbn [max_score fst]. unfold max_from at 2 3 4. cbn [foldr fst].
  fold (max_from 0 draws). rewrite <- max_from_max.
  replace (Z.max s 0) with s by lia. done.
Qed.

(** The loop of [mirror_rows] over rows with distinct ids. *)
Lemma mirror_rows_spec (zone : TimeZone)
  (players : list (UUID * PlayerLeaderboard.t)) r r' (l : Ledger) :
  NoDup players.*1 ->
  mirror_rows zone players r = Some r' ->
  (forall pid pl, (pid, pl) ∈ players ->
     playerleaderboard l !! pid = Some pl ->
     mirrored_at pid (mkState l r' zone))
  /\ (forall pid, pid ∉ players.*1 ->
        GLOBAL_LEADERBOARD r' !! pid = GLOBAL_LEADERBOARD r !! pid
        /\ PLAYER_META r' !! pid = PLAYER_META r !! pid).
Proof.
  revert r. induction players as [|[p pl] players IH]; intros r Hnd Hm.
  - injection Hm as <-. split; [|done]. intros pid pl' Hin.
    by apply elem_of_nil in Hin.
  - cbn [fmap list_fmap fst] in Hnd. apply NoDup_cons in Hnd as [Hp Hnd].
    cbn [mirror_rows] in Hm.
    destruct (timestamp zone (PlayerLeaderboard.last_updated pl))
      as [e|a] eqn:Hts; [done|].
    destruct (update_leaderboard p (PlayerLeaderboard.best_score pl) a r)
      as [r1|] eqn:Hup; [|done].
    cbn [mbind option_bind] in Hm.
    destruct (IH r1 Hnd Hm) as [IH1 IH2]. split.
    + intros pid pl' [[= -> ->] | Hin]%elem_of_cons Hrow;
      [|by apply (IH1 pid pl')].
      destruct (update_leaderboard_mirror _ _ _ _ _ _ Hts Hup)
        as (encoded & meta & Hmir & Hg & Hh).
      destruct (IH2 p Hp) as [Eg Eh].
      exists pl, encoded, meta. cbn [db redis tz].
      repeat split; [done..| |].
      * by rewrite Eg.
      * by rewrite Eh.
    + intros pid Hnot. cbn [fmap list_fmap fst] in Hnot.
      apply not_elem_of_cons in Hnot as [Hne Hnot].
      destruct (IH2 pid Hnot) as [Eg Eh].
      destruct (update_leaderboard_other _ pid _ _ _ _ Hup) as [Eg1 Eh1];
        [done|].
      by rewrite Eg, Eh.
Qed.

End SampleData.

(** X18. For draws as [random.randint(10, 200)] returns them, the loop of
    [create_sample_players] leaves in [best_score] the highest score drawn,
    a number from 10 to 200, and in [best_ts] the time of the first draw that
    reached it, never the time read before the loop. *)
Theorem sample_best_is_first_max :
  forall (now0 : datetime) (draws : list submission),
    draws ≠ [] ->
    randint_10_200 draws ->
    max_score draws = Some (fst (sample_best now0 draws))
    /\ 10 <= fst (sample_best now0 draws) <= 200
    /\ first_time_of (fst (sample_best now0 draws)) draws
       = Some (snd (sample_best now0 draws)).
Proof.
  intros now0 draws Hne Hr.
  destruct (foldl_raise_best (PlayerLeaderboard.mk 0 now0) draws)
    as (r' & Hfold & Hbest & Htime).
  rewrite sample_row_fold in Hfold. injection Hfold as <-.
  cbn [PlayerLeaderboard.best_score PlayerLeaderboard.last_updated sample_row]
    in Hbest, Htime.
  destruct (max_score_randint draws Hne Hr) as [Hms Hb].
  rewrite Hbest. split; [done|]. split; [done|].
  destruct (Z.ltb_spec 0 (max_from 0 draws)); [done | lia].
Qed.

Lemma sample_best_is_first_max_witness :
  max_score [(120, 10); (200, 20); (200, 30)]
  = Some (fst (sample_best 5 [(120, 10); (200, 20); (200, 30)]))
  /\ 10 <= fst (sample_best 5 [(120, 10); (200, 20); (200, 30)]) <= 200
  /\ first_time_of (fst (sample_best 5 [(120, 10); (200, 20); (200, 30)]))
       [(120, 10); (200, 20); (200, 30)]
     = Some (snd (sample_best 5 [(120, 10); (200, 20); (200, 30)])).
Proof.
  apply (sample_best_is_first_max 5 [(120, 10); (200, 20); (200, 30)]).
  - discriminate.
  - repeat constructor; cbn; lia.
Defined.

(** X19. The best-score row [create_sample_players] adds for a player is the
    row the service holds after a [signup] at the time read before the loop
    followed by one [submit_score] per draw, for draws a PostgreSQL [Integer]
    holds. *)
Theorem sample_row_is_service_row :
  forall (payload : SignupRequest) (pid : UUID) (h : string)
         (now0 : datetime) (draws : list submission) (st : State),
    fst (signup payload pid h now0 st)
    = OK "Signup successful. Please log in." ->
    Forall (λ draw, fits_Integer (fst draw) = true) draws ->
    playerleaderboard
      (db (submit_all pid draws (snd (signup payload pid h now0 st)))) !! pid
    = Some (sample_row now0 draws).
Proof.
  intros payload pid h now0 draws st Hok Hfit.
  destruct (signup_cases payload pid h now0 st)
    as [[_ E] | [(_ & _ & e & E) | (_ & _ & _ & _ & E)]];
    rewrite E in Hok |- *; [done|done|]. cbn [snd].
  rewrite submit_all_row; [|cbn; rewrite lookup_insert_eq; by eexists|done].
  cbn [db signed_up playerleaderboard]. rewrite lookup_insert_eq.
  apply sample_row_fold.
Qed.

Lemma sample_row_is_service_row_witness :
  playerleaderboard
    (db (submit_all 1%N [(120, 10); (200, 20); (200, 30)]
           (snd (signup alice 1%N "h" 5 empty_state)))) !! 1%N
  = Some (sample_row 5 [(120, 10); (200, 20); (200, 30)]).
Proof.
  apply (sample_row_is_service_row alice 1%N "h" 5
           [(120, 10); (200, 20); (200, 30)] empty_state).
  - reflexivity.
  - repeat constructor.
Defined.

(** X20. When the mirror loop of [create_sample_players] runs through, in
    whatever order the query returned the rows, every best-score row of the
    ledger is mirrored in Redis, and the Redis entries of ids without a row
    are left as they were.  If every member of the rank index was a player
    before, the whole index mirrors the ledger afterwards. *)
Theorem sample_mirror_loop_repairs_index :
  forall (players : list (UUID * PlayerLeaderboard.t)) (st : State)
         (r' : Redis),
    players ≡ₚ map_to_list (playerleaderboard (db st)) ->
    mirror_rows (tz st) players (redis st) = Some r' ->
    (forall pid, is_Some (playerleaderboard (db st) !! pid) ->
                 mirrored_at pid (mkState (db st) r' (tz st)))
    /\ same_outside (playerleaderboard (db st)) (redis st) r'
    /\ (index_members_known st -> mirrored (mkState (db st) r' (tz st))).
Proof.
  intros players st r' Hperm Hm.
  assert (NoDup players.*1) as Hnd.
  { rewrite Hperm. apply NoDup_fst_map_to_list. }
  destruct (mirror_rows_spec (tz st) players (redis st) r' (db st) Hnd Hm)
    as [H1 H2].
  assert (forall pid, is_Some (playerleaderboard (db st) !! pid) ->
                      mirrored_at pid (mkState (db st) r' (tz st))) as Hall.
  { intros pid [pl Hpl]. apply (H1 pid pl); [|done].
    rewrite Hperm. by apply elem_of_map_to_list. }
  assert (same_outside (playerleaderboard (db st)) (redis st) r') as Hout.
  { intros pid Hnone. apply H2.
    intros [[q pl] [Hq Hin]]%list_elem_of_fmap. cbn in Hq. subst q.
    rewrite Hperm in Hin. apply elem_of_map_to_list in Hin. congruence. }
  split; [done|]. split; [done|].
  intros Hknown pid Hin. cbn [redis] in Hin.
  destruct (playerleaderboard (db st) !! pid) as [pl|] eqn:Hpl.
  - apply Hall. by eexists.
  - destruct (Hout pid Hpl) as [Eg _]. rewrite Eg in Hin.
    destruct (Hknown pid Hin) as [_ [x Hx]]. congruence.
Qed.

Lemma sample_mirror_loop_repairs_index_witness :
  mirrored
    (mkState (db two_players)
       (mkRedis (<[1%N := PyFloat.of_Z (-1690000000000)]>
                   (<[2%N := PyFloat.of_Z (-1740000001000)]> ∅))
                (<[1%N := (100, 1790000000000)]>
                   (<[2%N := (50, 1790000001000)]> ∅)))
       UTC).
Proof.
  apply (sample_mirror_loop_repairs_index
           (map_to_list (playerleaderboard (db two_players)))
           (mkState (db two_players) (redis empty_state) UTC)).
  - reflexivity.
  - by vm_compute.
  - intros pid [x Hx]. cbn in Hx. rewrite lookup_empty in Hx.
    discriminate Hx.
Defined.

(** * More on the encoder *)

(** X21. For achievements in the exact range whose timestamps are less than
    [K] milliseconds (about eleven and a half days) apart, the order of the
    encoded values is exactly the ranking rule: higher score first, earlier
    timestamp first among equal scores. *)
Theorem encoder_follows_rule_within_window :
  forall a b : achievement,
    exact_range a -> exact_range b ->
    Z.abs (snd a - snd b) < K ->
    encodes_above a b <-> ranks_above a b.
Proof. exact encode_order_within_window. Qed.

Lemma encoder_follows_rule_within_window_witness :
  encodes_above (51, sample_ts_ms + 999999999) (50, sample_ts_ms)
  <-> ranks_above (51, sample_ts_ms + 999999999) (50, sample_ts_ms).
Proof.
  apply (encoder_follows_rule_within_window
           (51, sample_ts_ms + 999999999) (50, sample_ts_ms));
    vm_compute; intuition discriminate.
Defined.

(** X22. In the exact range one point of score weighs as much as [K]
    milliseconds: a score one higher reached [d] milliseconds later is
    encoded above the lower score only if [d < K], and for [d = K] the two
    encoded values are the same. *)
Theorem encoder_point_weighs_K_ms :
  forall s t d : Z,
    exact_range (s, t) -> exact_range (s + 1, t + d) ->
    (encodes_above (s + 1, t + d) (s, t) <-> d < K)
    /\ (d = K ->
        _encode_score_with_tiebreaker (s + 1) (t + d)
        = _encode_score_with_tiebreaker s t).
Proof.
  intros s t d Ha Hb. split.
  - rewrite encodes_above_iff by done. cbn [fst snd]. unfold K. lia.
  - intros ->.
    apply exact_range_bounds in Ha as (Ha1 & Ha2 & Ha3 & _).
    apply exact_range_bounds in Hb as (Hb1 & Hb2 & Hb3 & _).
    cbn [fst snd] in *. rewrite !encode_canon by done.
    do 2 f_equal. lia.
Qed.

Lemma encoder_point_weighs_K_ms_witness :
  _encode_score_with_tiebreaker 51 (sample_ts_ms + K)
  = _encode_score_with_tiebreaker 50 sample_ts_ms.
Proof.
  apply (proj2 (encoder_point_weighs_K_ms 50 sample_ts_ms K
                  ltac:(vm_compute; intuition discriminate)
                  ltac:(vm_compute; intuition discriminate))).
  reflexivity.
Defined.

(** X23. For every score a PostgreSQL [Integer] column holds, from 0 on, and
    every timestamp from 0 to below [2^53], the encoder returns a finite
    number that differs from [best_score * K - achieved_ts_ms] by at most
    384. *)
Theorem encoder_total_within_384 :
  forall s t : Z,
    0 <= s <= INT4_MAX -> 0 <= t < 2 ^ 53 ->
    exists f,
      _encode_score_with_tiebreaker s t = Some f /\ normal f
      /\ Z.abs (sval f - (s * K - t) * 2 ^ 1074) <= 384 * 2 ^ 1074.
Proof. exact encode_approx. Qed.

Lemma encoder_total_within_384_witness :
  exists f,
    _encode_score_with_tiebreaker INT4_MAX sample_ts_ms = Some f /\ normal f
    /\ Z.abs (sval f - (INT4_MAX * K - sample_ts_ms) * 2 ^ 1074)
       <= 384 * 2 ^ 1074.
Proof.
  apply (encoder_total_within_384 INT4_MAX sample_ts_ms);
    vm_compute; intuition discriminate.
Defined.

(** * Binary64 division and addition *)

Section Division.

Lemma shr_scaled_step N P mrs :
  0 < P -> shr_scaled N P mrs -> shr_scaled N (2 * P) (shr_1 mrs).
Proof.
  destruct mrs as [m r s]. intros HP (rho & HM & Hrho & Hm & Hr & Hs).
  cbn [shr_m shr_r shr_s] in *. rewrite shr_1_spec by done.
  exists (Z.b2z (Z.odd m) * P + rho). cbn [shr_m shr_r shr_s].
  pose proof (Z.div2_odd m) as Hdiv.
  pose proof (proj2 (Z.div2_nonneg m) Hm) as Hq.
  set (q := Z.div2 m) in *. subst r s.
  destruct (Z.odd m); cbn [Z.b2z] in *;
    (split; [rewrite HM, Hdiv; ring|]); clear HM Hdiv;
    (split; [lia|]); (split; [done|]);
    destruct (Z.leb_spec P (2 * rho)), (Z.eqb_spec rho 0),
      (Z.eqb_spec (2 * rho) P); split; cbn;
    repeat match goal with
           | |- context [Z.leb ?a ?b] => destruct (Z.leb_spec a b)
           | |- context [Z.eqb ?a ?b] => destruct (Z.eqb_spec a b)
           end; cbn; try done; lia.
Qed.

Lemma shr_scaled_iter N P mrs (k : nat) :
  0 < P -> shr_scaled N P mrs ->
  shr_scaled N (P * 2 ^ Z.of_nat k) (Nat.iter k shr_1 mrs)
  /\ shr_m (Nat.iter k shr_1 mrs) = shr_m mrs / 2 ^ Z.of_nat k.
Proof.
  intros HP Hinv. induction k as [|k [IH1 IH2]].
  - cbn [Nat.iter]. change (2 ^ Z.of_nat 0) with 1.
    by rewrite Z.mul_1_r, Z.div_1_r.
  - assert (0 < 2 ^ Z.of_nat k) as Hk by (apply pow2_pos; lia).
    rewrite Nat.iter_succ, Nat2Z.inj_succ, Z.pow_succ_r by lia. split.
    + replace (P * (2 * 2 ^ Z.of_nat k)) with (2 * (P * 2 ^ Z.of_nat k))
        by ring.
      apply shr_scaled_step; [lia | done].
    + destruct (Nat.iter k shr_1 mrs) as [m r s] eqn:E.
      destruct IH1 as (rho & _ & _ & Hm & _). cbn [shr_m] in *.
      rewrite shr_1_spec by done. cbn [shr_m].
      rewrite Z.div2_div, IH2, Z.div_div by lia. f_equal. ring.
Qed.

Lemma shr_scaled_shr N P mrs e n :
  0 < P -> 0 <= n -> shr_scaled N P mrs ->
  exists mrs', shr mrs e n = (mrs', e + n)
               /\ shr_scaled N (P * 2 ^ n) mrs'
               /\ shr_m mrs' = shr_m mrs / 2 ^ n.
Proof.
  intros HP Hn Hinv. unfold shr. destruct n as [|p|p]; [| |lia].
  - exists mrs. rewrite Z.add_0_r, Z.mul_1_r, Z.div_1_r. done.
  - eexists. split; [done|]. rewrite iter_pos_nat.
    destruct (shr_scaled_iter N P mrs (Pos.to_nat p) HP Hinv) as [H1 H2].
    by rewrite positive_nat_Z in H1, H2.
Qed.

Lemma round_nearest_even_scaled N P mrs :
  shr_scaled N P mrs ->
  let q' := round_nearest_even (shr_m mrs) (loc_of_shr_record mrs) in
  shr_m mrs <= q' <= shr_m mrs + 1 /\ 2 * Z.abs (q' * P - N) <= P.
Proof.
  destruct mrs as [q r s]. intros (rho & HM & Hrho & Hq & Hr & Hs).
  cbn [shr_m shr_r shr_s] in *.
  destruct (Z.leb_spec P (2 * rho)), (Z.eqb_spec rho 0),
    (Z.eqb_spec (2 * rho) P); cbn in Hr, Hs; subst r s;
    cbn [loc_of_shr_record round_nearest_even]; try lia.
  destruct (Z.even q); lia.
Qed.

(** [binary_round_aux] on a quotient [N / D] whose integer part [q] has at
    least 53 bits and whose remainder is described by the location. *)
Lemma round_aux_scaled (s : bool) (q : positive) (e N D : Z) (l : location) :
  let d := Zpos (digits2_pos q) in
  0 < D -> shr_scaled N D (shr_record_of_loc (Zpos q) l) ->
  53 <= d -> -1074 <= e -> d + e <= 1000 ->
  exists m' e',
    binary_round_aux 53 1024 s (Zpos q) e l = S754_finite s m' e'
    /\ Zpos (digits2_pos m') = 53 /\ e <= e'
    /\ 2 * Z.abs (Zpos m' * 2 ^ (e' - e) * D - N) <= 2 ^ (d - 53) * D.
Proof.
  intros d HD Hinv0 Hd He Hde.
  pose proof (digits2_pos_bounds q) as Hm. fold d in Hm.
  unfold binary_round_aux, shr_fexp. cbn [Zdigits2]. fold d.
  unfold fexp, emin.
  replace (Z.max (d + e - 53) (3 - 1024 - 53) - e) with (d - 53) by lia.
  destruct (shr_scaled_shr N D _ e (d - 53) HD ltac:(lia) Hinv0)
    as (mrs & -> & Hinv & Hq0).
  assert (shr_m (shr_record_of_loc (Zpos q) l) = Zpos q) as Hq1
    by (by destruct l as [|[]]).
  rewrite Hq1 in Hq0.
  pose proof (round_nearest_even_scaled _ _ _ Hinv) as [Hq' Herr].
  set (k := d - 53) in *.
  assert (0 < 2 ^ k) as Hk by (apply pow2_pos; lia).
  set (q0 := shr_m mrs) in *.
  set (q' := round_nearest_even q0 (loc_of_shr_record mrs)) in *.
  assert (2 ^ 52 <= q0 < 2 ^ 53) as Hqr.
  { replace (d - 1) with (52 + k) in Hm by lia.
    replace d with (53 + k) in Hm by lia.
    rewrite !pow2_split in Hm by lia. rewrite Hq0. split.
    - apply Z.div_le_lower_bound; lia.
    - apply Z.div_lt_upper_bound; lia. }
  destruct (Z.eq_dec q' (2 ^ 53)) as [E|Hne].
  - rewrite E. change (Zdigits2 (2 ^ 53)) with 54.
    exists (Z.to_pos (2 ^ 52)), (e + k + 1).
    split; [|split; [done|split; [lia|]]].
    + replace (Z.max (54 + (e + k) - 53) (3 - 1024 - 53) - (e + k))
        with 1 by lia.
      change (shr (shr_record_of_loc (2 ^ 53) loc_Exact) (e + k) 1)
        with (Build_shr_record (2 ^ 52) false false, e + k + 1).
      cbn [shr_m]. change (2 ^ 52) with (Zpos (Z.to_pos (2 ^ 52))) at 1.
      cbn match.
      assert ((e + k + 1 <=? 1024 - 53) = true) as -> by (apply Z.leb_le; lia).
      done.
    + replace (e + k + 1 - e) with (k + 1) by lia.
      rewrite pow2_split by lia. rewrite E in Herr.
      change (Zpos (Z.to_pos (2 ^ 52))) with (2 ^ 52).
      change (2 ^ 53) with (2 ^ 52 * 2 ^ 1) in Herr.
      replace (2 ^ 52 * (2 ^ k * 2 ^ 1) * D) with (2 ^ 52 * 2 ^ 1 * (D * 2 ^ k))
        by ring.
      rewrite (Z.mul_comm (2 ^ k) D). done.
  - assert (exists mp, q' = Zpos mp) as [mp Hmp].
    { destruct q' as [|mp|mp]; [lia|by eexists|lia]. }
    rewrite Hmp. cbn [Zdigits2].
    assert (Zpos (digits2_pos mp) = 53) as Hd'.
    { apply digits_of_range. rewrite <- Hmp.
      change (2 ^ (53 - 1)) with (2 ^ 52). lia. }
    rewrite Hd'.
    replace (Z.max (53 + (e + k) - 53) (3 - 1024 - 53) - (e + k)) with 0 by lia.
    cbn [shr shr_m shr_record_of_loc].
    assert ((e + k <=? 1024 - 53) = true) as -> by (apply Z.leb_le; lia).
    exists mp, (e + k). split; [done|]. split; [done|]. split; [lia|].
    replace (e + k - e) with k by lia. rewrite <- Hmp.
    replace (q' * 2 ^ k * D) with (q' * (D * 2 ^ k)) by ring.
    by rewrite (Z.mul_comm (2 ^ k) D).
Qed.

(** The location [SFdiv_core_binary] computes from the remainder. *)
Lemma new_location_scaled (N D q r : Z) :
  0 < D -> N = q * D + r -> 0 <= r < D -> 0 <= q ->
  shr_scaled N D (shr_record_of_loc q (new_location D r)).
Proof.
  intros HD HN Hr Hq. exists r.
  assert (shr_m (shr_record_of_loc q (new_location D r)) = q) as ->
    by (by destruct (new_location D r) as [|[]]).
  split; [done|]. split; [done|]. split; [done|].
  unfold new_location, new_location_even, new_location_odd.
  destruct (Z.even D) eqn:Hev.
  - destruct (Z.eqb_spec r 0) as [->|Hr0].
    + cbn. split; [|done]. symmetry. apply Z.leb_gt. lia.
    + destruct (Z.compare_spec (2 * r) D); cbn [shr_record_of_loc shr_r shr_s];
        destruct (Z.leb_spec D (2 * r)), (Z.eqb_spec (2 * r) D);
        try done; lia.
  - assert (Z.odd D = true) as Hodd by (by rewrite <- Z.negb_even, Hev).
    apply Z.odd_spec in Hodd as [h Hh].
    destruct (Z.eqb_spec r 0) as [->|Hr0].
    + cbn. split; [|done]. symmetry. apply Z.leb_gt. lia.
    + destruct (Z.compare_spec (2 * r + 1) D);
        cbn [shr_record_of_loc shr_r shr_s];
        destruct (Z.leb_spec D (2 * r)), (Z.eqb_spec (2 * r) D);
        try done; lia.
Qed.

(** The quotient of two positive normal numbers, when it is neither
    subnormal nor out of range: a normal number within [2^(ex - ey - 53)] of
    the exact quotient. *)
Lemma div_spec (mx my : positive) (ex ey : Z) :
  Zpos (digits2_pos mx) = 53 -> Zpos (digits2_pos my) = 53 ->
  -1074 <= ex -> -1074 <= ey -> -1021 <= ex - ey <= 900 ->
  exists m' e',
    SFdiv 53 1024 (S754_finite false mx ex) (S754_finite false my ey)
    = S754_finite false m' e'
    /\ Zpos (digits2_pos m') = 53 /\ ex - ey - 53 <= e'
    /\ Z.abs (Zpos m' * 2 ^ (e' + 1074) * (Zpos my * 2 ^ (ey + 1074))
              - Zpos mx * 2 ^ (ex + 1074) * 2 ^ 1074)
       <= Zpos my * 2 ^ (ey + 1074) * 2 ^ (ex - ey - 53 + 1074).
Proof.
  intros Hdx Hdy Hex Hey He.
  pose proof (digits2_pos_bounds mx) as Hmx. rewrite Hdx in Hmx.
  pose proof (digits2_pos_bounds my) as Hmy. rewrite Hdy in Hmy.
  change (2 ^ (53 - 1)) with (2 ^ 52) in *.
  unfold SFdiv, SFdiv_core_binary. cbn [Zdigits2 xorb]. rewrite Hdx, Hdy.
  unfold fexp, emin.
  replace (Z.min (Z.max (53 + ex - (53 + ey) - 53) (3 - 1024 - 53)) (ex - ey))
    with (ex - ey - 53) by lia.
  set (e0 := ex - ey - 53).
  replace (ex - ey - e0) with 53 by lia. cbv iota.
  rewrite Z.shiftl_mul_pow2 by lia.
  pose proof (Z_div_mod (Zpos mx * 2 ^ 53) (Zpos my) ltac:(lia)) as Hdm.
  destruct (Z.div_eucl (Zpos mx * 2 ^ 53) (Zpos my)) as [q r].
  destruct Hdm as [HN Hr].
  assert (2 ^ 52 <= q < 2 ^ 54) as Hq.
  { change (2 ^ 54) with (2 * 2 ^ 53). change (2 ^ 53) with (2 * 2 ^ 52) in *.
    set (B := 2 ^ 52) in *. assert (0 < B) by done. split.
    - destruct (Z.le_gt_cases B q); [done|exfalso]. nia.
    - destruct (Z.le_gt_cases (2 * (2 * B)) q); [exfalso; nia | done]. }
  destruct q as [|qp|qp]; [lia| |lia].
  set (d := Zpos (digits2_pos qp)).
  assert (d = 53 \/ d = 54) as Hd.
  { destruct (Z.lt_ge_cases (Zpos qp) (2 ^ 53)).
    - left. apply digits_of_range. change (2 ^ (53 - 1)) with (2 ^ 52). lia.
    - right. apply digits_of_range. change (2 ^ (54 - 1)) with (2 ^ 53). lia. }
  destruct (round_aux_scaled false qp e0 (Zpos mx * 2 ^ 53) (Zpos my)
              (new_location (Zpos my) r))
    as (m' & e' & -> & Hd' & He' & Herr);
    [lia|apply new_location_scaled; lia|fold d; lia|lia|fold d; lia|].
  fold d in Herr. exists m', e'. split; [done|]. split; [done|].
  split; [done|].
  assert (2 ^ (d - 53) <= 2) as Hp.
  { destruct Hd as [-> | ->]; [by change (2 ^ (53 - 53)) with 1|
                                by change (2 ^ (54 - 53)) with 2]. }
  set (A := Zpos m' * 2 ^ (e' - e0)) in *.
  assert (0 < 2 ^ (e0 + 1074)) as HP0 by (apply pow2_pos; lia).
  assert (0 < 2 ^ (ey + 1074)) as HPy by (apply pow2_pos; lia).
  assert (Zpos m' * 2 ^ (e' + 1074) = A * 2 ^ (e0 + 1074)) as ->.
  { replace (e' + 1074) with ((e' - e0) + (e0 + 1074)) by lia.
    rewrite (pow2_split (e' - e0) (e0 + 1074)) by lia. subst A. ring. }
  assert (Zpos mx * 2 ^ (ex + 1074) * 2 ^ 1074
          = Zpos mx * 2 ^ 53 * 2 ^ (e0 + 1074) * 2 ^ (ey + 1074)) as ->.
  { rewrite <- !Z.mul_assoc. f_equal.
    rewrite <- (pow2_split (ex + 1074) 1074) by lia.
    rewrite <- (pow2_split (e0 + 1074) (ey + 1074)) by lia.
    rewrite <- (pow2_split 53 (e0 + 1074 + (ey + 1074))) by lia.
    f_equal. lia. }
  set (P0 := 2 ^ (e0 + 1074)) in *. set (Py := 2 ^ (ey + 1074)) in *.
  replace (A * P0 * (Zpos my * Py) - Zpos mx * 2 ^ 53 * P0 * Py)
    with ((A * Zpos my - Zpos mx * 2 ^ 53) * (P0 * Py)) by ring.
  rewrite Z.abs_mul, (Z.abs_eq (P0 * Py)) by lia.
  replace (Zpos my * Py * P0) with (Zpos my * (P0 * Py)) by ring.
  apply Z.mul_le_mono_nonneg_r; [lia|]. nia.
Qed.

(** The sum of two positive numbers, the first one normal. *)
Lemma add_spec (ma mb : positive) (ea eb j : Z) :
  Zpos (digits2_pos ma) = 53 ->
  -1074 <= ea -> -1074 <= eb -> j <= 1000 ->
  Zpos ma * 2 ^ (ea + 1074) + Zpos mb * 2 ^ (eb + 1074) < 2 ^ (j + 1074) ->
  exists m' e',
    SFadd 53 1024 (S754_finite false ma ea) (S754_finite false mb eb)
    = S754_finite false m' e'
    /\ Zpos (digits2_pos m') = 53 /\ Z.min ea eb <= e'
    /\ 2 * Z.abs (Zpos m' * 2 ^ (e' + 1074)
                  - (Zpos ma * 2 ^ (ea + 1074) + Zpos mb * 2 ^ (eb + 1074)))
       <= 2 ^ (j - 53 + 1074).
Proof.
  intros Hda Hea Heb Hj Hlt. cbn [SFadd cond_Zopp].
  pose proof (digits2_pos_bounds ma) as Hma. rewrite Hda in Hma.
  change (2 ^ (53 - 1)) with (2 ^ 52) in *.
  set (ez := Z.min ea eb) in *.
  destruct (shl_align_spec ma ea ez) as [Ha _]; [lia|].
  destruct (shl_align_spec mb eb ez) as [Hb _]; [lia|].
  set (pa := fst (shl_align ma ea ez)) in *.
  set (pb := fst (shl_align mb eb ez)) in *.
  change (Zpos pa + Zpos pb) with (Zpos (pa + pb)).
  cbn [binary_normalize]. unfold binary_round.
  assert (0 < 2 ^ (ez + 1074)) as HX by (apply pow2_pos; lia).
  assert (0 < 2 ^ (ea - ez)) as HXa by (apply pow2_pos; lia).
  assert (Zpos (pa + pb) * 2 ^ (ez + 1074)
          = Zpos ma * 2 ^ (ea + 1074) + Zpos mb * 2 ^ (eb + 1074)) as HM.
  { rewrite Pos2Z.inj_add, Ha, Hb.
    replace (ea + 1074) with ((ea - ez) + (ez + 1074)) by lia.
    replace (eb + 1074) with ((eb - ez) + (ez + 1074)) by lia.
    rewrite (pow2_split (ea - ez) (ez + 1074)) by lia.
    rewrite (pow2_split (eb - ez) (ez + 1074)) by lia. ring. }
  rewrite <- HM in Hlt |- *.
  pose proof (digits2_pos_bounds (pa + pb)) as Hd.
  set (d := Zpos (digits2_pos (pa + pb))) in *.
  assert (0 <= j + 1074) as Hj0.
  { destruct (Z.le_gt_cases 0 (j + 1074)); [done|].
    rewrite (Z.pow_neg_r 2 (j + 1074)) in Hlt by lia. nia. }
  assert (53 <= d) as Hd53.
  { destruct (Z.le_gt_cases 53 d) as [|Hsmall]; [done|exfalso].
    assert (2 ^ d <= 2 ^ 52) by (apply Z.pow_le_mono_r; lia).
    rewrite Pos2Z.inj_add, Ha in Hd. nia. }
  assert (d + ez <= j) as Hdj by (by apply digits_le_of_bound; [lia|done|]).
  unfold fexp, emin. rewrite shl_align_id by lia.
  destruct (round_aux_spec false (pa + pb) ez)
    as (m' & e' & -> & Hd' & He' & Herr); [fold d; lia|lia|fold d; lia|].
  fold d in Herr. exists m', e'. split; [done|]. split; [done|]. split; [lia|].
  replace (e' + 1074) with ((e' - ez) + (ez + 1074)) by lia.
  rewrite (pow2_split (e' - ez) (ez + 1074)) by lia.
  set (X := 2 ^ (ez + 1074)) in *.
  replace (Zpos m' * (2 ^ (e' - ez) * X) - Zpos (pa + pb) * X)
    with ((Zpos m' * 2 ^ (e' - ez) - Zpos (pa + pb)) * X) by ring.
  rewrite Z.abs_mul, (Z.abs_eq X), Z.mul_assoc by lia.
  etrans; [apply Z.mul_le_mono_nonneg_r; [lia | exact Herr]|].
  subst X. rewrite <- pow2_split by lia. apply Z.pow_le_mono_r; lia.
Qed.

(** [int(x)] of a positive number is the floor of its value. *)
Lemma int_of_float_floor (m : positive) (e : Z) :
  -1074 <= e ->
  PyFloat.int_of_float (S754_finite false m e)
  = Some (Zpos m * 2 ^ (e + 1074) / 2 ^ 1074).
Proof.
  intros He. assert (0 < 2 ^ 1074) as HU by (by apply pow2_pos).
  unfold PyFloat.int_of_float. f_equal. destruct e as [|p|p].
  - change (0 + 1074) with 1074. by rewrite Z.div_mul by lia.
  - rewrite Z.shiftl_mul_pow2, (pow2_split (Zpos p) 1074), Z.mul_assoc by lia.
    by rewrite Z.div_mul by lia.
  - rewrite Z.shiftr_div_pow2 by lia.
    assert (0 < 2 ^ Zpos p) by (by apply pow2_pos).
    assert (0 < 2 ^ (Zneg p + 1074)) by (apply pow2_pos; lia).
    replace (2 ^ 1074) with (2 ^ Zpos p * 2 ^ (Zneg p + 1074)).
    + rewrite Z.div_mul_cancel_r by lia. done.
    + rewrite <- pow2_split by lia. f_equal. lia.
Qed.

End Division.

(** * The millisecond timestamp of the mirror *)

Section Timestamp.

Implicit Types (d s us ms : Z).

(** [microsecond / 1e6] for a non-zero microsecond field. *)
Lemma frac_spec us :
  0 < us < 1000000 ->
  exists m e,
    SFdiv 53 1024 (canon us) (canon 1000000) = S754_finite false m e
    /\ Zpos (digits2_pos m) = 53 /\ -73 <= e
    /\ Z.abs (Zpos m * 2 ^ (e + 1074) * 1000000 - us * 2 ^ 1074)
       <= 1000000 * 2 ^ 1021.
Proof.
  intros Hus.
  assert (0 < Z.abs us < 2 ^ 53) as Habs by lia.
  pose proof (expo_range us Habs) as He.
  assert (expo us <= -33) as He33.
  { unfold expo. rewrite Z.abs_eq by lia.
    assert (Z.log2 us < 20) by (apply Z.log2_lt_pow2; lia). lia. }
  destruct (normal_canon us) as [Hn Hv]; [lia|].
  rewrite (canon_pos us) in * by lia. cbn [normal sval cond_Zopp] in Hn, Hv.
  destruct Hn as [Hd _].
  change (canon 1000000) with (S754_finite false 8589934592000000 (-33)).
  destruct (div_spec (Z.to_pos (mant us)) 8589934592000000 (expo us) (-33))
    as (m & e & -> & Hdm & Hem & Herr); [done|done|lia|lia|lia|].
  exists m, e. split; [done|]. split; [done|]. split; [lia|].
  rewrite Hv in Herr. change (-33 + 1074) with 1041 in Herr.
  assert (8589934592000000 * 2 ^ 1041 = 1000000 * 2 ^ 1074) as HY.
  { change 8589934592000000 with (1000000 * 2 ^ 33).
    by rewrite <- Z.mul_assoc, <- pow2_split. }
  rewrite HY in Herr.
  assert (0 < 2 ^ 1074) as HU by (by apply pow2_pos).
  assert (0 < 2 ^ (expo us - -33 - 53 + 1074) <= 2 ^ 1021) as Hp.
  { split; [apply pow2_pos; lia | apply Z.pow_le_mono_r; lia]. }
  set (U := 2 ^ 1074) in *. set (F := Zpos m * 2 ^ (e + 1074)) in *.
  set (X := 2 ^ (expo us - -33 - 53 + 1074)) in *.
  replace (F * (1000000 * U) - us * U * U)
    with ((F * 1000000 - us * U) * U) in Herr by ring.
  rewrite Z.abs_mul, (Z.abs_eq U) in Herr by lia.
  apply (Z.mul_le_mono_pos_r _ _ U); [done|]. etrans; [exact Herr|].
  replace (1000000 * U * X) with (1000000 * X * U) by ring.
  apply Z.mul_le_mono_nonneg_r; lia.
Qed.

(** [datetime.timestamp()] where the zone gives the POSIX second [u]: exact
    on whole seconds, and otherwise a positive normal number within
    [2^-16 + 2^-53] seconds of [u] seconds and the microseconds of the
    datetime. *)
Lemma timestamp_spec (zone : TimeZone) d u :
  local_to_seconds zone (d `div` 1000000) = inr u ->
  0 <= u <= MAX_SECOND ->
  (d `mod` 1000000 = 0 /\ timestamp zone d = inr (canon u))
  \/ exists m e,
       timestamp zone d = inr (S754_finite false m e)
       /\ Zpos (digits2_pos m) = 53 /\ -73 <= e
       /\ Z.abs (Zpos m * 2 ^ (e + 1074) * 1000000
                 - (u * 1000000 + d `mod` 1000000) * 2 ^ 1074)
          <= 1000000 * 2 ^ 1021 + 1000000 * 2 ^ 1058.
Proof.
  intros Hu Hs. unfold MAX_SECOND in Hs. unfold timestamp. rewrite Hu.
  pose proof (Z.mod_pos_bound d 1000000 ltac:(lia)) as Hus.
  set (us := d `mod` 1000000) in *.
  rewrite !float_of_int_canon by lia.
  unfold PyFloat.add, PyFloat.div.
  change PyFloat.prec with 53. change PyFloat.emax with 1024.
  change (PyFloat.of_Z 1000000) with (canon 1000000).
  assert (0 < 2 ^ 1021) as HV by (by apply pow2_pos).
  assert (2 ^ 1074 = 2 ^ 53 * 2 ^ 1021) as HU by (by rewrite <- pow2_split).
  assert (2 ^ 1058 = 2 ^ 37 * 2 ^ 1021) as HW by (by rewrite <- pow2_split).
  destruct (Z.eq_dec us 0) as [E|Hne].
  - left. split; [done|]. rewrite E.
    change (SFdiv 53 1024 (canon 0) (canon 1000000)) with (S754_zero false).
    f_equal. unfold canon. destruct (u =? 0); [done|]. by destruct (u <? 0).
  - right. destruct (frac_spec us) as (m & e & -> & Hdm' & Hem & Herr); [lia|].
    destruct (Z.eq_dec u 0) as [Es|Hs0].
    + rewrite Es. change (canon 0) with (S754_zero false). cbn [SFadd].
      exists m, e. split; [done|]. split; [done|]. split; [done|].
      replace (0 * 1000000 + us) with us by lia. etrans; [exact Herr|].
      rewrite HW. lia.
    + destruct (normal_canon u) as [Hns Hvs]; [lia|].
      rewrite (canon_pos u) in * by lia.
      cbn [normal sval cond_Zopp] in Hns, Hvs. destruct Hns as [Hds Hes].
      pose proof (expo_range u ltac:(lia)) as Hexs.
      set (F := Zpos m * 2 ^ (e + 1074)) in *.
      assert (F < 2 ^ 1074 + 2 ^ 1021) as HF.
      { rewrite HU in *. set (V := 2 ^ 1021) in *.
        assert (us * V <= 999999 * V) by nia. lia. }
      destruct (add_spec (Z.to_pos (mant u)) m (expo u) e 38)
        as (m' & e' & -> & Hd' & He' & Herr2); [done|lia|lia|lia| |].
      { rewrite Hvs. fold F.
        replace (2 ^ (38 + 1074)) with (2 ^ 91 * 2 ^ 1021)
          by (by rewrite <- pow2_split).
        rewrite HU in *. set (V := 2 ^ 1021) in *.
        assert (u * V <= 253402300799 * V) by nia. lia. }
      exists m', e'. split; [done|]. split; [done|]. split; [lia|].
      rewrite Hvs in Herr2. fold F in Herr2.
      replace (2 ^ (38 - 53 + 1074)) with (2 * 2 ^ 1058) in Herr2
        by (change (38 - 53 + 1074) with (1 + 1058); by rewrite pow2_split).
      set (S := Zpos m' * 2 ^ (e' + 1074)) in *.
      set (U := 2 ^ 1074) in *. set (W := 2 ^ 1058) in *.
      set (V := 2 ^ 1021) in *.
      replace (S * 1000000 - (u * 1000000 + us) * U)
        with (1000000 * (S - (u * U + F)) + (F * 1000000 - us * U)) by ring.
      lia.
Qed.

(** [int(achieved_at * 1000)] for the timestamp of a datetime whose second
    the zone maps to [u], from the epoch to the end of the year 9999:
    defined, and less than 1/32 above and less than 1 + 1/32 below the POSIX
    time in milliseconds. *)
Lemma ts_ms_of_spec (zone : TimeZone) d u :
  local_to_seconds zone (d `div` 1000000) = inr u ->
  0 <= u <= MAX_SECOND ->
  exists ms,
    ts_ms_of zone d = Some ms /\ 0 <= ms
    /\ 32 * (u * 1000000 + d `mod` 1000000) - 33000 < 32000 * ms
       <= 32 * (u * 1000000 + d `mod` 1000000) + 1000.
Proof.
  intros Hu Hs. unfold ts_ms_of, PyFloat.mul.
  change PyFloat.prec with 53. change PyFloat.emax with 1024.
  assert (0 < 2 ^ 1021) as HV by (by apply pow2_pos).
  assert (2 ^ 1074 = 2 ^ 53 * 2 ^ 1021) as HU by (by rewrite <- pow2_split).
  assert (2 ^ 1058 = 2 ^ 37 * 2 ^ 1021) as HW by (by rewrite <- pow2_split).
  pose proof (Z.mod_pos_bound d 1000000 ltac:(lia)) as Hus.
  destruct (timestamp_spec zone d u Hu Hs)
    as [[Hmod ->] | (m & e & -> & Hdm & Hem & Herr)];
    unfold MAX_SECOND in Hs.
  - change (PyFloat.of_Z 1000) with (canon 1000).
    rewrite mul_canon, int_of_float_canon by lia.
    eexists. split; [done|]. lia.
  - set (p := u * 1000000 + d `mod` 1000000) in *.
    change (PyFloat.of_Z 1000)
      with (S754_finite false 8796093022208000 (-43)).
    set (S := Zpos m * 2 ^ (e + 1074)) in *.
    assert (Zpos m * 8796093022208000 * 2 ^ (e + -43 + 1074) = 1000 * S)
      as HP.
    { subst S. replace (e + 1074) with (43 + (e + -43 + 1074)) by lia.
      rewrite (pow2_split 43 (e + -43 + 1074)) by lia.
      change 8796093022208000 with (1000 * 2 ^ 43). ring. }
    assert (0 <= p <= 253402300799999999) as Hp by (subst p; lia).
    assert (p * 2 ^ 1021 <= 253402300799999999 * 2 ^ 1021) as HdV by nia.
    assert (0 <= p * 2 ^ 1021) as HdV0 by nia.
    destruct (mul_spec m 8796093022208000 e (-43) 48)
      as (m' & e' & -> & Hd' & He' & Herr3); [done|done|lia|lia| |].
    { rewrite HP.
      replace (2 ^ (48 + 1074)) with (2 ^ 101 * 2 ^ 1021)
        by (by rewrite <- pow2_split).
      rewrite HU, HW in Herr. set (V := 2 ^ 1021) in *. lia. }
    rewrite int_of_float_floor by lia. eexists. split; [done|].
    rewrite HP in Herr3.
    replace (2 ^ (48 - 53 + 1074)) with (2 ^ 48 * 2 ^ 1021) in Herr3
      by (by rewrite <- pow2_split).
    set (P := Zpos m' * 2 ^ (e' + 1074)) in *.
    pose proof (Z.div_mod P (2 ^ 1074) ltac:(lia)) as HPdiv.
    pose proof (Z.mod_pos_bound P (2 ^ 1074) ltac:(lia)) as Hr.
    set (ms := P / 2 ^ 1074) in *. set (r := P mod 2 ^ 1074) in *.
    assert (0 <= ms) as Hms0.
    { apply Z.div_pos; [|lia].
      assert (0 < 2 ^ (e' + 1074)) by (apply pow2_pos; lia). lia. }
    rewrite HU, HW in *. set (V := 2 ^ 1021) in *.
    split; [done|]. split.
    + destruct (Z.lt_ge_cases (32 * p - 33000) (32000 * ms)); [done|exfalso].
      assert (32000 * ms * V <= (32 * p - 33000) * V)
        by (apply Z.mul_le_mono_nonneg_r; lia).
      lia.
    + destruct (Z.le_gt_cases (32000 * ms) (32 * p + 1000)); [done|exfalso].
      assert ((32 * p + 1001) * V <= 32000 * ms * V)
        by (apply Z.mul_le_mono_nonneg_r; lia).
      lia.
Qed.

End Timestamp.

(** * The values of the mirror step are defined *)

Section MirrorTotal.

Implicit Types (st : State) (payload : SubmitScoreRequest) (now : datetime).
Implicit Types (pid : UUID) (r : Redis) (row : PlayerLeaderboard.t).
Implicit Types (zone : TimeZone).

Lemma posix_us_UTC d : 0 <= d <= DATETIME_MAX -> posix_us UTC d = Some d.
Proof.
  unfold DATETIME_MAX. intros Hd.
  pose proof (Z.div_mod d 1000000 ltac:(lia)).
  pose proof (Z.mod_pos_bound d 1000000 ltac:(lia)).
  unfold posix_us. cbn [local_to_seconds UTC].
  destruct (Z.ltb_spec (d `div` 1000000) (-62135510400)); [lia|].
  destruct (Z.ltb_spec 253402300799 (d `div` 1000000)); [lia|].
  cbn [orb]. f_equal. lia.
Qed.

Lemma stamp_ok_posix zone d :
  stamp_ok zone d <->
  exists p, posix_us zone d = Some p /\ 0 <= p <= DATETIME_MAX.
Proof.
  unfold stamp_ok, posix_us, MAX_SECOND, DATETIME_MAX.
  pose proof (Z.mod_pos_bound d 1000000 ltac:(lia)) as Hus. split.
  - intros (u & -> & Hu). eexists. split; [done|]. lia.
  - intros (p & Hp & Hr).
    destruct (local_to_seconds zone (d `div` 1000000)) as [e|u];
      [done|]. injection Hp as <-. exists u. split; [done|]. lia.
Qed.

Lemma ts_ms_of_near zone d p :
  posix_us zone d = Some p -> 0 <= p <= DATETIME_MAX ->
  exists ms,
    ts_ms_of zone d = Some ms /\ 0 <= ms /\ Z.abs (ms - p / 1000) <= 1.
Proof.
  intros Hp Hr. unfold posix_us in Hp. unfold DATETIME_MAX in Hr.
  destruct (local_to_seconds zone (d `div` 1000000)) as [e|u] eqn:Hu;
    [done|]. injection Hp as <-.
  pose proof (Z.mod_pos_bound d 1000000 ltac:(lia)) as Hus.
  destruct (ts_ms_of_spec zone d u Hu) as (ms & Hms & Hms0 & Hb);
    [unfold MAX_SECOND; lia|].
  exists ms. split; [done|]. split; [done|].
  set (p := u * 1000000 + d `mod` 1000000) in *.
  pose proof (Z.div_mod p 1000 ltac:(lia)) as Hdiv.
  pose proof (Z.mod_pos_bound p 1000 ltac:(lia)) as Hmod. lia.
Qed.

(** For a row in range the values of the mirror step are defined: the
    millisecond timestamp, below [2^53], and its normal encoding. *)
Lemma mirror_of_in_range zone row :
  stamp_ok zone (PlayerLeaderboard.last_updated row) ->
  0 <= PlayerLeaderboard.best_score row <= INT4_MAX ->
  exists ms encoded,
    ts_ms_of zone (PlayerLeaderboard.last_updated row) = Some ms
    /\ _encode_score_with_tiebreaker (PlayerLeaderboard.best_score row) ms
       = Some encoded
    /\ normal encoded
    /\ mirror_of zone row
       = Some (encoded, (PlayerLeaderboard.best_score row, ms)).
Proof.
  intros (p & Hp & Hr)%stamp_ok_posix Hb.
  destruct (ts_ms_of_near _ _ _ Hp Hr) as (ms & Hms & Hms0 & Hnear).
  destruct (encode_approx (PlayerLeaderboard.best_score row) ms)
    as (f & Hf & Hn & _); [done| |].
  { unfold DATETIME_MAX in Hr.
    pose proof (Z.div_mod p 1000 ltac:(lia)).
    pose proof (Z.mod_pos_bound p 1000 ltac:(lia)). lia. }
  exists ms, f. split; [done|]. split; [done|]. split; [done|].
  unfold mirror_of. rewrite Hms. cbn [mbind option_bind]. by rewrite Hf.
Qed.

Lemma update_leaderboard_defined zone pid row r :
  stamp_ok zone (PlayerLeaderboard.last_updated row) ->
  0 <= PlayerLeaderboard.best_score row <= INT4_MAX ->
  exists achieved_at r',
    timestamp zone (PlayerLeaderboard.last_updated row) = inr achieved_at
    /\ update_leaderboard pid (PlayerLeaderboard.best_score row) achieved_at r
       = Some r'.
Proof.
  intros Hd Hs.
  destruct (mirror_of_in_range zone row Hd Hs) as (ms & f & Hms & Hf & _).
  unfold ts_ms_of in Hms.
  destruct (timestamp zone (PlayerLeaderboard.last_updated row)) as [e|a];
    [discriminate Hms|].
  exists a. unfold update_leaderboard. rewrite Hms. cbn [mbind option_bind].
  rewrite Hf. by eexists.
Qed.

Lemma rows_in_range_committed zone payload now st :
  rows_in_range zone (db st) ->
  0 <= score payload <= INT4_MAX -> stamp_ok zone now ->
  rows_in_range zone (committed payload now st).
Proof.
  intros Hrows Hs Hnow pid row. unfold committed. cbn [playerleaderboard].
  destruct (decide (pid = player_id payload)) as [->|Hne].
  - rewrite upsert_best_raise. unfold raise_best. cbn [fst snd].
    destruct (playerleaderboard (db st) !! player_id payload) as [r0|] eqn:E.
    + destruct (_ <? _); intros [= <-]; [done | by apply (Hrows _ _ E)].
    + by intros [= <-].
  - rewrite upsert_best_other by done. apply Hrows.
Qed.

Lemma rows_in_range_signed_up zone (p : SignupRequest) new_id (h : string)
  now (l : Ledger) :
  rows_in_range zone l -> stamp_ok zone now ->
  rows_in_range zone (signed_up p new_id h now l).
Proof.
  intros Hrows Hnow pid row. cbn [signed_up playerleaderboard].
  destruct (decide (pid = new_id)) as [->|Hne].
  - rewrite lookup_insert_eq. intros [= <-]. cbn. unfold INT4_MAX.
    split; [done | lia].
  - rewrite lookup_insert_ne by done. apply Hrows.
Qed.

Lemma mirror_rows_defined zone
  (players : list (UUID * PlayerLeaderboard.t)) r :
  Forall (λ p, stamp_ok zone (PlayerLeaderboard.last_updated p.2)
               /\ 0 <= PlayerLeaderboard.best_score p.2 <= INT4_MAX) players ->
  is_Some (mirror_rows zone players r).
Proof.
  intros Hall. revert r.
  induction Hall as [|[pid pl] players [Hd Hb] _ IH]; intros r; [by eexists|].
  cbn [mirror_rows snd] in *.
  destruct (update_leaderboard_defined zone pid pl r Hd Hb)
    as (a & r' & -> & Hu).
  rewrite Hu. cbn [mbind option_bind]. apply IH.
Qed.

(** The rows of a state reached from the empty database are stamped with
    clock readings of the run and hold valid scores. *)
Lemma reachable_within_rows lo hi st pid row :
  reachable_within lo hi st ->
  playerleaderboard (db st) !! pid = Some row ->
  lo <= PlayerLeaderboard.last_updated row <= hi
  /\ 0 <= PlayerLeaderboard.best_score row <= INT4_MAX.
Proof.
  intros Hr. revert row.
  induction Hr as [zone | st req now Hr IH Hle]; intros row Hrow.
  - cbn in Hrow. by rewrite lookup_empty in Hrow.
  - destruct (handle_cases req now st)
      as [E | [(p & new_id & h & _ & _ & _ & _ & _ & E)
               | (payload & _ & Hs & _ & _ & E)]];
      rewrite E in Hrow.
    + by apply IH.
    + cbn [db signed_up playerleaderboard] in Hrow.
      destruct (decide (new_id = pid)) as [->|Hne].
      * rewrite lookup_insert_eq in Hrow. injection Hrow as <-. cbn.
        unfold INT4_MAX. lia.
      * rewrite lookup_insert_ne in Hrow by done. by apply IH.
    + unfold committed in Hrow. cbn [playerleaderboard] in Hrow.
      destruct (decide (player_id payload = pid)) as [<-|Hne].
      * rewrite upsert_best_raise in Hrow. unfold raise_best in Hrow.
        cbn [fst snd] in Hrow.
        destruct (playerleaderboard (db st) !! player_id payload)
          as [r0|] eqn:E0.
        -- destruct (_ <? _); injection Hrow as <-; [cbn; lia|].
           by apply (IH r0).
        -- injection Hrow as <-. cbn. lia.
      * rewrite upsert_best_other in Hrow by done. by apply IH.
Qed.

Lemma two_players_reachable_within :
  reachable_within 0 1790000001000000 two_players.
Proof.
  change two_players
    with (handle (SubmitScore (mkSubmitScoreRequest 2%N 50)) 1790000001000000
            (handle (SubmitScore (mkSubmitScoreRequest 1%N 100))
               1790000000000000
               (handle (Signup bob 2%N "h") 200
                  (handle (Signup alice 1%N "h") 100 empty_state)))).
  repeat (apply reachable_within_step; [|lia]).
  apply (reachable_within_init _ _ UTC).
Qed.

Lemma stamp_ok_UTC d : 0 <= d <= DATETIME_MAX -> stamp_ok UTC d.
Proof.
  intros Hd. apply stamp_ok_posix. exists d.
  split; [by apply posix_us_UTC|done].
Qed.

Lemma reachable_within_rows_UTC lo hi st :
  reachable_within lo hi st -> 0 <= lo -> hi <= DATETIME_MAX ->
  rows_in_range UTC (db st).
Proof.
  intros Hr Hlo Hhi pid row Hrow.
  destruct (reachable_within_rows lo hi st pid row Hr Hrow) as [Hl Hb].
  split; [|done]. apply stamp_ok_UTC. lia.
Qed.

Lemma two_players_rows_in_range : rows_in_range UTC (db two_players).
Proof.
  apply (reachable_within_rows_UTC 0 1790000001000000);
    [exact two_players_reachable_within | lia | by vm_compute].
Qed.

Lemma alice_rows_in_range :
  rows_in_range UTC (db (handle (Signup alice 1%N "h") 100 empty_state)).
Proof.
  apply (reachable_within_rows_UTC 0 100); [|lia|by vm_compute].
  apply reachable_within_step; [|lia].
  apply (reachable_within_init _ _ UTC).
Qed.

End MirrorTotal.

(** X24. In whatever time zone the process runs: when the zone gives the
    datetime a POSIX time from the epoch to the end of the year 9999, the
    millisecond timestamp of the mirror, [int(last_updated.timestamp() *
    1000)], is defined, not negative and within one millisecond of that
    POSIX time in whole milliseconds.  In UTC the POSIX time is the datetime
    itself; even there the timestamp is not always equal to the whole
    milliseconds: both deviations occur. *)
Theorem ts_ms_within_one_millisecond :
  (forall (zone : TimeZone) (d : datetime) (p : Z),
     posix_us zone d = Some p ->
     0 <= p <= DATETIME_MAX ->
     exists ms,
       ts_ms_of zone d = Some ms /\ 0 <= ms /\ Z.abs (ms - p / 1000) <= 1)
  /\ (forall d : datetime, 0 <= d <= DATETIME_MAX -> posix_us UTC d = Some d)
  /\ ts_ms_of UTC 1001000 = Some (1001000 / 1000 - 1)
  /\ ts_ms_of UTC DATETIME_MAX = Some (DATETIME_MAX / 1000 + 1).
Proof.
  split; [exact ts_ms_of_near|]. split; [exact posix_us_UTC|].
  split; by vm_compute.
Qed.

Lemma ts_ms_within_one_millisecond_witness :
  exists ms,
    ts_ms_of UTC 1790000000123456 = Some ms
    /\ 0 <= ms /\ Z.abs (ms - 1790000000123456 / 1000) <= 1.
Proof.
  apply (proj1 ts_ms_within_one_millisecond UTC 1790000000123456
           1790000000123456).
  - by vm_compute.
  - vm_compute. intuition discriminate.
Defined.

(** X25. For a known player and a score from 0 to [2^31 - 1], when the zone
    of the process maps the clock reading and the [last_updated] of every
    best-score row to POSIX seconds from the epoch to the end of the year
    9999 and the rows hold scores in that range: [submit_score] commits, the
    rows stay in range, and for the player's committed row the values of the
    mirror step are defined, so that neither [timestamp()], [int()] nor the
    encoder raises. *)
Theorem submit_score_mirror_values_defined :
  forall (payload : SubmitScoreRequest) (now : datetime) (st : State),
    is_Some (playerinfo (db st) !! player_id payload) ->
    0 <= score payload <= INT4_MAX ->
    stamp_ok (tz st) now ->
    rows_in_range (tz st) (db st) ->
    let st' := snd (submit_score payload now st) in
    db st' = committed payload now st
    /\ tz st' = tz st
    /\ rows_in_range (tz st) (db st')
    /\ exists row,
         playerleaderboard (db st') !! player_id payload = Some row
         /\ mirror_defined (tz st) row.
Proof.
  intros payload now st Hp Hs Hnow Hrows st'. subst st'.
  assert (fits_Integer (score payload) = true) as Hfit.
  { unfold fits_Integer, INT4_MIN, INT4_MAX in *.
    apply andb_true_iff. split; apply Z.leb_le; lia. }
  pose proof (rows_in_range_committed _ payload now st Hrows Hs Hnow) as Hc.
  rewrite (submit_score_commits payload now st Hp Hfit).
  split; [done|]. split; [apply submit_score_tz|]. split; [done|].
  exists (fst (upsert_best (player_id payload) (score payload) now
                 (playerleaderboard (db st)))).
  split; [apply upsert_best_lookup|].
  destruct (Hc (player_id payload) _ (upsert_best_lookup _ _ _ _))
    as [Hd Hb].
  destruct (mirror_of_in_range _ _ Hd Hb) as (ms & f & _ & _ & _ & Hm).
  unfold mirror_defined. by rewrite Hm.
Qed.

Lemma submit_score_mirror_values_defined_witness :
  exists row,
    playerleaderboard
      (db (snd (submit_score (mkSubmitScoreRequest 1%N INT4_MAX)
                  DATETIME_MAX
                  (handle (Signup alice 1%N "h") 100 empty_state))))
      !! 1%N = Some row
    /\ mirror_defined UTC row.
Proof.
  apply (submit_score_mirror_values_defined
           (mkSubmitScoreRequest 1%N INT4_MAX) DATETIME_MAX
           (handle (Signup alice 1%N "h") 100 empty_state)).
  - by eexists.
  - by vm_compute.
  - apply stamp_ok_UTC. by vm_compute.
  - exact alice_rows_in_range.
Defined.

(** X26. In every state the service reaches from the empty database by
    serving requests one after the other, whatever the order of their clock
    readings, each best-score row is stamped with a clock reading of the run
    and holds a score from 0 to [2^31 - 1].  If the zone of the process maps
    the clock readings of the run to POSIX seconds from the epoch to the end
    of the year 9999, the values of the mirror step are defined for every
    row. *)
Theorem reachable_rows_in_clock_range :
  forall (lo hi : datetime) (st : State),
    reachable_within lo hi st ->
    (forall pid row,
       playerleaderboard (db st) !! pid = Some row ->
       lo <= PlayerLeaderboard.last_updated row <= hi
       /\ 0 <= PlayerLeaderboard.best_score row <= INT4_MAX)
    /\ ((forall d, lo <= d <= hi -> stamp_ok (tz st) d) ->
        rows_in_range (tz st) (db st)
        /\ forall pid row,
             playerleaderboard (db st) !! pid = Some row ->
             mirror_defined (tz st) row).
Proof.
  intros lo hi st Hr.
  assert (forall pid row,
            playerleaderboard (db st) !! pid = Some row ->
            lo <= PlayerLeaderboard.last_updated row <= hi
            /\ 0 <= PlayerLeaderboard.best_score row <= INT4_MAX) as Hrows.
  { intros pid row Hrow. by apply (reachable_within_rows lo hi st pid). }
  split; [done|]. intros Hzone.
  assert (rows_in_range (tz st) (db st)) as Hin.
  { intros pid row Hrow. destruct (Hrows pid row Hrow) as [Hl Hb].
    split; [by apply Hzone | done]. }
  split; [done|]. intros pid row Hrow. destruct (Hin pid row Hrow) as [Hd Hb].
  destruct (mirror_of_in_range _ _ Hd Hb) as (ms & f & _ & _ & _ & Hm).
  unfold mirror_defined. by rewrite Hm.
Qed.

Lemma reachable_rows_in_clock_range_witness :
  rows_in_range UTC (db two_players).
Proof.
  apply (proj2 (reachable_rows_in_clock_range 0 1790000001000000 two_players
                  two_players_reachable_within)).
  intros d Hd. apply stamp_ok_UTC. unfold DATETIME_MAX. lia.
Defined.

(** X27. Over best-score rows whose [last_updated] the zone of the script
    maps to POSIX seconds from the epoch to the end of the year 9999, with
    scores from 0 to [2^31 - 1], neither [timestamp()], [int()] nor the
    encoder raises for any row of the mirror loop of
    [create_sample_players]: the values of every call are defined and the
    loop meets no exception of its own computations, in whatever order the
    query returns the rows. *)
Theorem sample_mirror_loop_runs_through :
  forall (players : list (UUID * PlayerLeaderboard.t)) (st : State),
    rows_in_range (tz st) (db st) ->
    players ≡ₚ map_to_list (playerleaderboard (db st)) ->
    Forall (λ p, mirror_defined (tz st) p.2) players
    /\ is_Some (mirror_rows (tz st) players (redis st)).
Proof.
  intros players st Hrows Hperm.
  assert (Forall (λ p, stamp_ok (tz st) (PlayerLeaderboard.last_updated p.2)
                       /\ 0 <= PlayerLeaderboard.best_score p.2 <= INT4_MAX)
                 players) as Hall.
  { apply Forall_forall. intros [pid pl] Hin. cbn [snd].
    rewrite Hperm in Hin. apply elem_of_map_to_list in Hin.
    by apply (Hrows pid pl). }
  split; [|by apply mirror_rows_defined].
  eapply Forall_impl; [exact Hall|]. intros [pid pl] [Hd Hb]. cbn [snd] in *.
  destruct (mirror_of_in_range _ _ Hd Hb) as (ms & f & _ & _ & _ & Hm).
  unfold mirror_defined. by rewrite Hm.
Qed.

Lemma sample_mirror_loop_runs_through_witness :
  is_Some (mirror_rows UTC
             (map_to_list (playerleaderboard (db two_players)))
             (redis empty_state)).
Proof.
  apply (proj2 (sample_mirror_loop_runs_through
                  (map_to_list (playerleaderboard (db two_players)))
                  (mkState (db two_players) (redis empty_state) UTC)
                  two_players_rows_in_range
                  (reflexivity _))).
Defined.

(** * The order of the leaderboard *)

Section Order.

Implicit Types (st : State) (pid : UUID) (e x y : zentry).

(** In a mirrored state every score of the rank index is the encoding of the
    member's best-score row, a normal number. *)
Lemma mirrored_entry st pid (sc : PyFloat.float) :
  mirrored st -> rows_in_range (tz st) (db st) ->
  GLOBAL_LEADERBOARD (redis st) !! pid = Some sc ->
  normal sc
  /\ exists row ms,
       playerleaderboard (db st) !! pid = Some row
       /\ ts_ms_of (tz st) (PlayerLeaderboard.last_updated row) = Some ms
       /\ _encode_score_with_tiebreaker (PlayerLeaderboard.best_score row) ms
          = Some sc.
Proof.
  intros Hm Hrows Hsc.
  destruct (Hm pid) as (row & encoded & meta & Hrow & Hmir & Hg & _);
    [by eexists|].
  rewrite Hsc in Hg. injection Hg as <-.
  destruct (Hrows pid row Hrow) as [Hd Hb].
  destruct (mirror_of_in_range (tz st) row Hd Hb)
    as (ms & f & Hms & Hf & Hn & Hmir').
  rewrite Hmir' in Hmir. injection Hmir as <- _.
  split; [done|]. by exists row, ms.
Qed.

Lemma two_players_mirrored : mirrored two_players.
Proof.
  change two_players
    with (handle (SubmitScore (mkSubmitScoreRequest 2%N 50)) 1790000001000000
            (handle (SubmitScore (mkSubmitScoreRequest 1%N 100))
               1790000000000000
               (handle (Signup bob 2%N "h") 200
                  (handle (Signup alice 1%N "h") 100 empty_state)))).
  repeat apply handle_mirrored.
  - intros pid [x Hx]. vm_compute in Hx. discriminate Hx.
  - by intros (payload & e & [=] & _).
  - by intros (payload & e & [=] & _).
  - intros (payload & e & [= <-] & Hraise & _). vm_compute in Hraise.
    discriminate Hraise.
  - intros (payload & e & [= <-] & Hraise & _). vm_compute in Hraise.
    discriminate Hraise.
Qed.

End Order.

(** X28. In a state whose rank index mirrors the ledger and whose best-score
    rows have a [last_updated] that the time zone of the process maps into
    the years 1970 to 9999 and a score within [Integer],
    [get_top_leaderboard] lists the players by their best-score rows: of two
    items the one with the lower rank number never has the smaller encoded
    (score, millisecond timestamp) of the two, the timestamp being the one
    [timestamp()] gives in the zone of the process.  For scores up to
    9,007,199 and timestamps less than [K] milliseconds apart the item listed
    later never outranks the earlier one by the ranking rule. *)
Theorem top_leaderboard_in_ranking_order :
  forall (st : State) (n : Z) (resp : LeaderboardResponse)
         (a b : PlayerLeaderboardEntry),
    mirrored st -> rows_in_range (tz st) (db st) ->
    1 <= n ->
    fst (get_top_leaderboard n st) = OK resp ->
    a ∈ items resp -> b ∈ items resp ->
    entry_rank a < entry_rank b ->
    exists x y,
      achievement_of (tz st) a = Some x /\ achievement_of (tz st) b = Some y
      /\ ~ encodes_above y x
      /\ (exact_range x -> exact_range y -> Z.abs (snd x - snd y) < K ->
          ~ ranks_above y x).
Proof.
  intros st n resp a b Hm Hrows Hn Hresp Ha Hb Hlt.
  rewrite get_top_unfold in Hresp. cbn [fst] in Hresp.
  injection Hresp as <-. cbn [items] in Ha, Hb.
  unfold get_top_n_from_redis in Ha, Hb.
  rewrite zrevrange_take in Ha, Hb by done.
  set (z := GLOBAL_LEADERBOARD (redis st)) in *.
  apply elem_of_top_items in Ha
    as (i & pa & sa & pla & ra & Hi & Hia%info_map_lookup & ->).
  apply elem_of_top_items in Hb
    as (j & pb & sb & plb & rb & Hj & Hib%info_map_lookup & ->).
  cbn [entry_rank] in Hlt.
  apply lookup_take_Some in Hi as [Hi _].
  apply lookup_take_Some in Hj as [Hj _].
  destruct Hia as (_ & _ & Hra). destruct Hib as (_ & _ & Hrb).
  assert (z !! pa = Some sa) as Hza.
  { apply elem_of_zrev_entries. by apply list_elem_of_lookup_2 in Hi. }
  assert (z !! pb = Some sb) as Hzb.
  { apply elem_of_zrev_entries. by apply list_elem_of_lookup_2 in Hj. }
  destruct (mirrored_entry st pa sa Hm Hrows Hza)
    as (_ & ra' & ma & Hra' & Hma & Hea).
  destruct (mirrored_entry st pb sb Hm Hrows Hzb)
    as (_ & rb' & mb & Hrb' & Hmb & Heb).
  rewrite Hra in Hra'. injection Hra' as <-.
  rewrite Hrb in Hrb'. injection Hrb' as <-.
  exists (PlayerLeaderboard.best_score ra, ma),
         (PlayerLeaderboard.best_score rb, mb).
  unfold achievement_of. cbn [entry_last_updated entry_score].
  rewrite Hma, Hmb. cbn [mbind option_bind].
  split; [done|]. split; [done|].
  assert (zabove (pb, sb) (pa, sa) = false) as Hord.
  { apply (Sorted_lookup_on (λ e1 e2, zabove e2 e1 = false)
             (λ e, normal (snd e)) (zrev_entries z)) with (i := i) (j := j);
      [..|lia|done|done].
    - intros e1 e2 e3 H1 H2 H3. by apply zabove_false_trans.
    - apply Forall_forall. intros [p s] Hin. cbn [snd].
      apply elem_of_zrev_entries in Hin.
      by destruct (mirrored_entry st p s Hm Hrows Hin) as [? _].
    - apply zrev_entries_sorted. }
  assert (~ encodes_above (PlayerLeaderboard.best_score rb, mb)
                          (PlayerLeaderboard.best_score ra, ma)) as Hnot.
  { intros (fx & fy & Hx & Hy & Hxy). cbn [fst snd] in Hx, Hy.
    rewrite Heb in Hx. rewrite Hea in Hy.
    injection Hx as <-. injection Hy as <-.
    unfold zabove in Hord. cbn [fst snd] in Hord.
    apply orb_false_iff in Hord as [Hord _]. congruence. }
  split; [done|]. intros Hxa Hxb Hw Hrank. apply Hnot.
  apply encode_order_within_window; [done|done| |done].
  by rewrite <- Z.abs_opp, Z.opp_sub_distr, Z.add_comm.
Qed.

Lemma top_leaderboard_in_ranking_order_witness :
  exists x y,
    achievement_of UTC
      (mkPlayerLeaderboardEntry 1 1%N "Alice" 100 1790000000000000) = Some x
    /\ achievement_of UTC
         (mkPlayerLeaderboardEntry 2 2%N "Bob" 50 1790000001000000) = Some y
    /\ ~ encodes_above y x
    /\ (exact_range x -> exact_range y -> Z.abs (snd x - snd y) < K ->
        ~ ranks_above y x).
Proof.
  apply (top_leaderboard_in_ranking_order two_players 10
           (mkLeaderboardResponse 2
              [mkPlayerLeaderboardEntry 1 1%N "Alice" 100 1790000000000000;
               mkPlayerLeaderboardEntry 2 2%N "Bob" 50 1790000001000000])).
  - exact two_players_mirrored.
  - exact two_players_rows_in_range.
  - lia.
  - by vm_compute.
  - apply elem_of_cons. by left.
  - apply elem_of_cons. right. apply elem_of_cons. by left.
  - cbn. lia.
Defined.
